(** * g10/parse-packet.c: the OpenPGP packet reader, embedded in Rocq

    The C functions of [g10/parse-packet.c] are translated one by one into
    functions over an explicit byte-source state.  Integers are [Z] with
    the wrap-around of the C types written out (ILP32: [int], [unsigned]
    and [unsigned long] are 32 bits wide, [unsigned short] 16 bits, [byte]
    8 bits).  Diagnostic output ([printf], [log_error], [log_debug]) has no
    effect on the stream or on the packet record and is left out; the
    places where [list_mode] changes how the stream is read are kept. *)

From Stdlib Require Import Strings.String.
From Stdlib Require Import ZArith List Bool Lia.
From Stdlib Require Import Strings.Byte.
Import ListNotations.
Local Open Scope Z_scope.

(** ** Bytes and machine integers *)

Definition b2z (b : byte) : Z := Z.of_N (Byte.to_N b).

(** Storing an [int] into a [byte] keeps the low eight bits. *)
Definition z2b (z : Z) : byte :=
  match Byte.of_N (Z.to_N (z mod 256)) with
  | Some b => b
  | None => x00
  end.

(** [unsigned long] and [unsigned] arithmetic. *)
Definition wrap (z : Z) : Z := z mod 2 ^ 32.

(** [unsigned short] arithmetic. *)
Definition wrap16 (z : Z) : Z := z mod 2 ^ 16.

(** Big-endian value of a byte string. *)
Definition be_value (bs : list byte) : Z :=
  fold_left (fun acc b => acc * 256 + b2z b) bs 0.

(** ** Constants of the headers that are not part of this file *)

(** Modelled from the spec: [packet.h] is missing; the packet tags are the
    OpenPGP tag numbers (user id is 13 and plaintext is 11 in the
    scenarios S2 and S8). *)
Definition PKT_PUBKEY_ENC : Z := 1.
Definition PKT_SIGNATURE : Z := 2.
Definition PKT_SYMKEY_ENC : Z := 3.
Definition PKT_ONEPASS_SIG : Z := 4.
Definition PKT_SECRET_CERT : Z := 5.
Definition PKT_PUBLIC_CERT : Z := 6.
Definition PKT_SECKEY_SUBCERT : Z := 7.
Definition PKT_COMPRESSED : Z := 8.
Definition PKT_ENCRYPTED : Z := 9.
Definition PKT_PLAINTEXT : Z := 11.
Definition PKT_RING_TRUST : Z := 12.
Definition PKT_USER_ID : Z := 13.
Definition PKT_PUBKEY_SUBCERT : Z := 14.
Definition PKT_OLD_COMMENT : Z := 16.
Definition PKT_COMMENT : Z := 61.

(** Modelled from the spec: [errors.h] is missing; error codes are
    positive and pairwise distinct, -1 is kept for end of stream. *)
Definition G10ERR_UNKNOWN_PACKET : Z := 2.
Definition G10ERR_INVALID_PACKET : Z := 14.
Definition G10ERR_READ_FILE : Z := 21.
Definition G10ERR_WRITE_FILE : Z := 22.

Definition error_codes : list Z :=
  [G10ERR_UNKNOWN_PACKET; G10ERR_INVALID_PACKET;
   G10ERR_READ_FILE; G10ERR_WRITE_FILE].

(** Modelled from the spec: [cipher.h] is missing; algorithm numbers are
    the OpenPGP ones (RSA is 1 in scenario S5). *)
Definition PUBKEY_ALGO_RSA : Z := 1.
Definition PUBKEY_ALGO_RSA_E : Z := 2.
Definition PUBKEY_ALGO_RSA_S : Z := 3.
Definition PUBKEY_ALGO_ELGAMAL_E : Z := 16.
Definition PUBKEY_ALGO_DSA : Z := 17.
Definition PUBKEY_ALGO_ELGAMAL : Z := 20.
Definition CIPHER_ALGO_BLOWFISH160 : Z := 42.
Definition DIGEST_ALGO_MD5 : Z := 1.
Definition DIGEST_ALGO_RMD160 : Z := 3.

Definition is_ELGAMAL (a : Z) : bool :=
  (a =? PUBKEY_ALGO_ELGAMAL) || (a =? PUBKEY_ALGO_ELGAMAL_E).

Definition is_RSA (a : Z) : bool :=
  (a =? PUBKEY_ALGO_RSA) || (a =? PUBKEY_ALGO_RSA_E) || (a =? PUBKEY_ALGO_RSA_S).

(** Modelled from the spec: subpacket type numbers of [packet.h]
    (creation time is 2, issuer is 16; the two list requests are
    negative). *)
Definition SIGSUBPKT_LIST_UNHASHED : Z := -1.
Definition SIGSUBPKT_LIST_HASHED : Z := -2.
Definition SIGSUBPKT_SIG_CREATED : Z := 2.
Definition SIGSUBPKT_ISSUER : Z := 16.

(** ** The byte source *)

(** Modelled from the spec: [iobuf.c] is missing.  A source is the bytes
    not yet read, the offset [iobuf_tell] reports, and the framing mode:
    plain, block mode (the body runs to the end of the stream) or
    partial mode (power-of-two chunks, each announced by a length byte in
    224..254, closed by a chunk with any other length byte). *)
Inductive iomode : Type :=
| Plain
| Block
| Partial (left : Z) (last : bool).

Record IOBUF : Type := mkIOBUF {
  io_data : list byte;
  io_pos : Z;
  io_mode : iomode
}.

Definition iobuf_open (bs : list byte) : IOBUF :=
  {| io_data := bs; io_pos := 0; io_mode := Plain |}.

Definition set_mode (m : iomode) (s : IOBUF) : IOBUF :=
  {| io_data := io_data s; io_pos := io_pos s; io_mode := m |}.

Definition take_byte (s : IOBUF) : option (Z * IOBUF) :=
  match io_data s with
  | [] => None
  | b :: r =>
      Some (b2z b, {| io_data := r; io_pos := io_pos s + 1; io_mode := io_mode s |})
  end.

(** Length of the closing chunk of a partial body: the definite lengths of
    the new format. *)
Definition final_chunk_len (c : Z) (s : IOBUF) : option (Z * IOBUF) :=
  if c <? 192 then Some (c, s)
  else if c <? 224 then
    match take_byte s with
    | Some (d, s1) => Some ((c - 192) * 256 + d + 192, s1)
    | None => None
    end
  else
    match take_byte s with
    | Some (b3, s1) =>
      match take_byte s1 with
      | Some (b2, s2) =>
        match take_byte s2 with
        | Some (b1, s3) =>
          match take_byte s3 with
          | Some (b0, s4) =>
              Some (((b3 * 256 + b2) * 256 + b1) * 256 + b0, s4)
          | None => None
          end
        | None => None
        end
      | None => None
      end
    | None => None
    end.

Definition next_chunk (s : IOBUF) : option (Z * bool * IOBUF) :=
  match take_byte s with
  | None => None
  | Some (c, s1) =>
      if (224 <=? c) && (c <=? 254) then Some (2 ^ (c - 224), false, s1)
      else
        match final_chunk_len c s1 with
        | Some (n, s2) => Some (n, true, s2)
        | None => None
        end
  end.

(** Modelled from the spec: [iobuf_get] of the missing [iobuf.c] gives the
    next byte of the body, or -1.  Reaching the end of a block or partial
    body reports -1 once and leaves the mode; in partial mode a chunk that
    is used up makes the source read the next length byte first. *)
Definition iobuf_get_raw (s : IOBUF) : Z * IOBUF :=
  match io_mode s with
  | Plain =>
      match take_byte s with
      | Some r => r
      | None => (-1, s)
      end
  | Block =>
      match take_byte s with
      | Some r => r
      | None => (-1, set_mode Plain s)
      end
  | Partial k last =>
      if 0 <? k then
        match take_byte s with
        | Some (c, s1) => (c, set_mode (Partial (k - 1) last) s1)
        | None => (-1, set_mode Plain s)
        end
      else if last then (-1, set_mode Plain s)
      else
        match next_chunk s with
        | None => (-1, set_mode Plain s)
        | Some (n, l, s1) =>
            if 0 <? n then
              match take_byte s1 with
              | Some (c, s2) => (c, set_mode (Partial (n - 1) l) s2)
              | None => (-1, set_mode Plain s1)
              end
            else (-1, set_mode Plain s1)
        end
  end.

(** ** A state and fault monad for the parser *)

Inductive fault : Type :=
| EndOfInput      (* iobuf_get_noeof met the end of the stream *)
| AssertFailed    (* assert() *)
| BugHit          (* BUG() *)
| OutOfFuel.

Inductive result (A : Type) : Type :=
| Done (a : A) (s : IOBUF)
| Fault (f : fault).

Arguments Done {A} a s.
Arguments Fault {A} f.

Definition M (A : Type) : Type := IOBUF -> result A.

Definition ret {A : Type} (a : A) : M A := fun s => Done a s.

Definition bind {A B : Type} (m : M A) (k : A -> M B) : M B :=
  fun s =>
    match m s with
    | Done a s' => k a s'
    | Fault f => Fault f
    end.

Definition raise {A : Type} (f : fault) : M A := fun _ => Fault f.

Notation "x <- m ;; k" := (bind m (fun x => k))
  (at level 61, m at next level, right associativity).
Notation "' pat <- m ;; k" := (bind m (fun x => match x with pat => k end))
  (at level 61, pat pattern, m at next level, right associativity).
Notation "m ;;; k" := (bind m (fun _ => k))
  (at level 61, right associativity).

Definition iobuf_get : M Z := fun s => let (c, s') := iobuf_get_raw s in Done c s'.

(** Modelled from the spec: [get_or_fail] returns a byte and fails at the
    end of the stream. *)
Definition iobuf_get_noeof : M Z :=
  fun s =>
    let (c, s') := iobuf_get_raw s in
    if c =? -1 then Fault EndOfInput else Done c s'.

(** Modelled from the spec: [tell] is the cumulative byte offset. *)
Definition iobuf_tell : M Z := fun s => Done (io_pos s) s.

(** Modelled from the spec: [set_block_mode(active)]. *)
Definition iobuf_set_block_mode (n : Z) : M unit :=
  fun s => Done tt (set_mode (if n =? 0 then Plain else Block) s).

(** Modelled from the spec: [set_partial_block_mode(initial)] starts a
    partial body whose first chunk has [len] bytes left. *)
Definition iobuf_set_partial_block_mode (len : Z) : M unit :=
  fun s => Done tt (set_mode (Partial len false) s).

(** Modelled from the spec: [in_block_mode] holds in both structured
    modes; [skip_rest] and [copy_packet] rely on it to leave them. *)
Definition iobuf_in_block_mode : M bool :=
  fun s => Done (match io_mode s with Plain => false | _ => true end) s.

Fixpoint iobuf_read_loop (n : nat) (s : IOBUF) : list byte * IOBUF :=
  match n with
  | O => ([], s)
  | S k =>
      let (c, s1) := iobuf_get_raw s in
      if c =? -1 then ([], s1)
      else let (bs, s2) := iobuf_read_loop k s1 in (z2b c :: bs, s2)
  end.

(** Modelled from the spec: [iobuf_read(inp, buf, n)] gives the bytes
    read and their count (at most [n]), -1 when the stream gave none. *)
Definition iobuf_read (n : Z) : M (Z * list byte) :=
  fun s =>
    let (bs, s') := iobuf_read_loop (Z.to_nat n) s in
    match bs with
    | [] => Done ((if 0 <? n then -1 else 0), []) s'
    | _ => Done (Z.of_nat (length bs), bs) s'
    end.

(** Modelled from the spec: the output sink of the copy mode accepts
    writes or reports an error.  It is the bytes written so far and, when
    the sink is bounded, the room left; a write that does not fit fails
    with -1 and writes nothing. *)
Record SINK : Type := mkSINK {
  sink_bytes : list byte;
  sink_room : option nat
}.

Definition sink_empty : SINK := {| sink_bytes := []; sink_room := None |}.

Definition iobuf_write (out : SINK) (buf : list byte) : Z * SINK :=
  match sink_room out with
  | None => (0, {| sink_bytes := sink_bytes out ++ buf; sink_room := None |})
  | Some r =>
      if (length buf <=? r)%nat
      then (0, {| sink_bytes := sink_bytes out ++ buf;
                  sink_room := Some (r - length buf)%nat |})
      else (-1, out)
  end.

(** ** read_16, read_32, buffer_to_u32 *)

Definition read_16 : M Z :=
  b1 <- iobuf_get_noeof ;;
  b0 <- iobuf_get_noeof ;;
  ret (Z.lor (wrap16 (Z.shiftl b1 8)) b0).

Definition read_32 : M Z :=
  b3 <- iobuf_get_noeof ;;
  b2 <- iobuf_get_noeof ;;
  b1 <- iobuf_get_noeof ;;
  b0 <- iobuf_get_noeof ;;
  ret (Z.lor (Z.lor (Z.lor (wrap (Z.shiftl b3 24)) (Z.shiftl b2 16))
                    (Z.shiftl b1 8)) b0).

(** A [const byte *] into a buffer is the buffer and an offset; reading
    past the end of the buffer yields 0 here. *)
Definition byte_at (buf : list byte) (i : Z) : Z :=
  if i <? 0 then 0 else b2z (nth (Z.to_nat i) buf x00).

Definition buffer_to_u32 (buf : list byte) (p : Z) : Z :=
  Z.lor (Z.lor (Z.lor (wrap (Z.shiftl (byte_at buf p) 24))
                      (Z.shiftl (byte_at buf (p + 1)) 16))
               (Z.shiftl (byte_at buf (p + 2)) 8))
        (byte_at buf (p + 3)).

(** ** The header decoder (parse, lines 208-266) *)

Inductive header : Type :=
| HdrEof
| HdrError (rc : Z)
| HdrOk (pkttype pktlen : Z) (hdr : list byte) (pgp3 : bool).

(** The legacy length loop: [pktlen <<= 8; pktlen |= hdr[hdrlen++] = get]. *)
Fixpoint read_len (lenbytes : nat) (pktlen : Z) (hdr : list byte)
  : M (Z * list byte) :=
  match lenbytes with
  | O => ret (pktlen, hdr)
  | S k =>
      c <- iobuf_get_noeof ;;
      read_len k (Z.lor (wrap (Z.shiftl pktlen 8)) c) (hdr ++ [z2b c])
  end.

(** In the four-byte branch [(byte) << 24] is an [int] that is converted
    to [unsigned long].  With the 32-bit types of this embedding the
    value is the byte times 2^24.  Where [unsigned long] has 64 bits the
    conversion extends the sign, and a length whose first byte is above
    0x7f comes out larger by 2^64 - 2^32; for such lengths this
    definition gives the 32-bit value. *)
Definition read_header : M header :=
  ctb <- iobuf_get ;;
  if ctb =? -1 then ret HdrEof
  else
    let hdr := [z2b ctb] in
    if Z.land ctb 0x80 =? 0 then ret (HdrError G10ERR_INVALID_PACKET)
    else if negb (Z.land ctb 0x40 =? 0) then
      let pkttype := Z.land ctb 0x3f in
      c <- iobuf_get ;;
      if c =? -1 then ret (HdrError G10ERR_INVALID_PACKET)
      else
        let hdr := hdr ++ [z2b c] in
        if c <? 192 then ret (HdrOk pkttype c hdr true)
        else if c <? 224 then
          let pktlen := (c - 192) * 256 in
          c <- iobuf_get ;;
          if c =? -1 then ret (HdrError G10ERR_INVALID_PACKET)
          else ret (HdrOk pkttype (wrap (pktlen + (c + 192)))
                          (hdr ++ [z2b c]) true)
        else if c <? 255 then
          b3 <- iobuf_get_noeof ;;
          b2 <- iobuf_get_noeof ;;
          b1 <- iobuf_get_noeof ;;
          c <- iobuf_get ;;
          if c =? -1 then ret (HdrError G10ERR_INVALID_PACKET)
          else
            ret (HdrOk pkttype
                   (Z.lor (Z.lor (Z.lor (wrap (Z.shiftl b3 24)) (Z.shiftl b2 16))
                                 (Z.shiftl b1 8)) c)
                   (hdr ++ [z2b b3; z2b b2; z2b b1; z2b c]) true)
        else
          (* partial body length: pktlen is still 0 here *)
          iobuf_set_partial_block_mode 0 ;;;
          ret (HdrOk pkttype 0 hdr true)
    else
      let pkttype := Z.land (Z.shiftr ctb 2) 0xf in
      let lenbytes := if Z.land ctb 3 =? 3 then 0 else Z.shiftl 1 (Z.land ctb 3) in
      if lenbytes =? 0 then
        (if negb (pkttype =? PKT_COMPRESSED) then iobuf_set_block_mode 1 else ret tt) ;;;
        ret (HdrOk pkttype 0 hdr false)
      else
        '(pktlen, hdr) <- read_len (Z.to_nat lenbytes) 0 hdr ;;
        ret (HdrOk pkttype pktlen hdr false).

(** ** Packet records (packet.h) *)

(** Modelled from the spec: [mpi.h] is missing.  An MPI is its bit length
    and its value bytes. *)
Record MPI : Type := mkMPI {
  mpi_nbits : Z;
  mpi_value : list byte
}.

Record STRING2KEY : Type := mkS2K {
  s2k_mode : Z;
  s2k_hash_algo : Z;
  s2k_salt : list byte;
  s2k_count : Z
}.

Definition zero8 : list byte := repeat x00 8.

Definition s2k_clear : STRING2KEY := mkS2K 0 0 zero8 0.

Record PKT_symkey_enc : Type := mkSymkeyEnc {
  ske_version : Z;
  ske_cipher_algo : Z;
  ske_s2k : STRING2KEY;
  ske_seskeylen : Z;
  ske_seskey : list byte
}.

Inductive enc_material : Type :=
| EncNone
| EncElg (a b : option MPI)
| EncRsa (rsa_integer : option MPI).

Record PKT_pubkey_enc : Type := mkPubkeyEnc {
  pke_version : Z;
  pke_keyid0 : Z;
  pke_keyid1 : Z;
  pke_pubkey_algo : Z;
  pke_d : enc_material
}.

Inductive sig_material : Type :=
| SigNone
| SigElg (a b : option MPI)
| SigDsa (r s : option MPI)
| SigRsa (rsa_integer : option MPI).

Record PKT_signature : Type := mkSignature {
  sig_version : Z;
  sig_class : Z;
  sig_timestamp : Z;
  sig_keyid0 : Z;
  sig_keyid1 : Z;
  sig_pubkey_algo : Z;
  sig_digest_algo : Z;
  sig_hashed_data : option (list byte);
  sig_unhashed_data : option (list byte);
  sig_digest_start : list byte;
  sig_d : sig_material
}.

Definition signature_clear : PKT_signature :=
  mkSignature 0 0 0 0 0 0 0 None None [x00; x00] SigNone.

Record PKT_onepass_sig : Type := mkOnepass {
  ops_keyid0 : Z;
  ops_keyid1 : Z;
  ops_sig_class : Z;
  ops_digest_algo : Z;
  ops_pubkey_algo : Z;
  ops_last : Z
}.

Definition onepass_clear : PKT_onepass_sig := mkOnepass 0 0 0 0 0 0.

Inductive pubkey_material : Type :=
| PkNone
| PkElg (p g y : option MPI)
| PkDsa (p q g y : option MPI)
| PkRsa (n e : option MPI).

Record PKT_public_cert : Type := mkPublicCert {
  pc_timestamp : Z;
  pc_valid_days : Z;
  pc_hdrbytes : Z;
  pc_version : Z;
  pc_pubkey_algo : Z;
  pc_d : pubkey_material
}.

Definition public_cert_clear : PKT_public_cert := mkPublicCert 0 0 0 0 0 PkNone.

Inductive seckey_material : Type :=
| SkNone
| SkElg (p g y x : option MPI)
| SkDsa (p q g y x : option MPI)
| SkRsa (n e d p q u : option MPI).

Record cert_protect : Type := mkProtect {
  protect_algo : Z;
  protect_s2k : STRING2KEY;
  protect_iv : list byte
}.

Record PKT_secret_cert : Type := mkSecretCert {
  sc_timestamp : Z;
  sc_valid_days : Z;
  sc_hdrbytes : Z;
  sc_version : Z;
  sc_pubkey_algo : Z;
  sc_is_protected : Z;
  sc_protect : cert_protect;
  sc_d : seckey_material;
  sc_csum : Z
}.

Definition secret_cert_clear : PKT_secret_cert :=
  mkSecretCert 0 0 0 0 0 0 (mkProtect 0 s2k_clear zero8) SkNone 0.

Record PKT_user_id : Type := mkUserId {
  uid_len : Z;
  uid_name : list byte
}.

Record PKT_comment : Type := mkComment {
  comment_len : Z;
  comment_data : list byte
}.

(** [buf] fields hold the [IOBUF] pointer itself: the handle is the
    source as it stands when the record is filled. *)
Record PKT_plaintext : Type := mkPlaintext {
  pt_len : Z;
  pt_buf : IOBUF;
  pt_mode : Z;
  pt_timestamp : Z;
  pt_namelen : Z;
  pt_name : list byte
}.

Record PKT_compressed : Type := mkCompressed {
  zd_len : Z;
  zd_algorithm : Z;
  zd_buf : IOBUF
}.

Record PKT_encrypted : Type := mkEncrypted {
  ed_len : Z;
  ed_buf : option IOBUF
}.

(** The union [pkt] of [PACKET]; [Generic_NULL] is the null pointer. *)
Inductive pkt_union : Type :=
| Generic_NULL
| Public_cert (c : PKT_public_cert)
| Secret_cert (c : PKT_secret_cert)
| Symkey_enc (k : PKT_symkey_enc)
| Pubkey_enc (k : PKT_pubkey_enc)
| Signature (g : PKT_signature)
| Onepass_sig (o : PKT_onepass_sig)
| User_id (u : PKT_user_id)
| Comment (c : PKT_comment)
| Plaintext (p : PKT_plaintext)
| Compressed (z : PKT_compressed)
| Encrypted (e : PKT_encrypted).

Record PACKET : Type := mkPACKET {
  pkttype : Z;
  pkt : pkt_union
}.

(** Modelled from the spec: [init_packet] of [packet.h] clears the tag and
    the body pointer. *)
Definition init_packet : PACKET := mkPACKET 0 Generic_NULL.

Definition set_body (b : pkt_union) (p : PACKET) : PACKET :=
  mkPACKET (pkttype p) b.

(** Field assignments on the records that are filled step by step. *)

Definition set_sig_version (v : Z) (g : PKT_signature) : PKT_signature :=
  mkSignature v (sig_class g) (sig_timestamp g) (sig_keyid0 g) (sig_keyid1 g)
    (sig_pubkey_algo g) (sig_digest_algo g) (sig_hashed_data g)
    (sig_unhashed_data g) (sig_digest_start g) (sig_d g).

Definition set_sig_class (v : Z) (g : PKT_signature) : PKT_signature :=
  mkSignature (sig_version g) v (sig_timestamp g) (sig_keyid0 g) (sig_keyid1 g)
    (sig_pubkey_algo g) (sig_digest_algo g) (sig_hashed_data g)
    (sig_unhashed_data g) (sig_digest_start g) (sig_d g).

Definition set_sig_timestamp (v : Z) (g : PKT_signature) : PKT_signature :=
  mkSignature (sig_version g) (sig_class g) v (sig_keyid0 g) (sig_keyid1 g)
    (sig_pubkey_algo g) (sig_digest_algo g) (sig_hashed_data g)
    (sig_unhashed_data g) (sig_digest_start g) (sig_d g).

Definition set_sig_keyid (k0 k1 : Z) (g : PKT_signature) : PKT_signature :=
  mkSignature (sig_version g) (sig_class g) (sig_timestamp g) k0 k1
    (sig_pubkey_algo g) (sig_digest_algo g) (sig_hashed_data g)
    (sig_unhashed_data g) (sig_digest_start g) (sig_d g).

Definition set_sig_pubkey_algo (v : Z) (g : PKT_signature) : PKT_signature :=
  mkSignature (sig_version g) (sig_class g) (sig_timestamp g) (sig_keyid0 g)
    (sig_keyid1 g) v (sig_digest_algo g) (sig_hashed_data g)
    (sig_unhashed_data g) (sig_digest_start g) (sig_d g).

Definition set_sig_digest_algo (v : Z) (g : PKT_signature) : PKT_signature :=
  mkSignature (sig_version g) (sig_class g) (sig_timestamp g) (sig_keyid0 g)
    (sig_keyid1 g) (sig_pubkey_algo g) v (sig_hashed_data g)
    (sig_unhashed_data g) (sig_digest_start g) (sig_d g).

Definition set_sig_hashed_data (v : option (list byte)) (g : PKT_signature)
  : PKT_signature :=
  mkSignature (sig_version g) (sig_class g) (sig_timestamp g) (sig_keyid0 g)
    (sig_keyid1 g) (sig_pubkey_algo g) (sig_digest_algo g) v
    (sig_unhashed_data g) (sig_digest_start g) (sig_d g).

Definition set_sig_unhashed_data (v : option (list byte)) (g : PKT_signature)
  : PKT_signature :=
  mkSignature (sig_version g) (sig_class g) (sig_timestamp g) (sig_keyid0 g)
    (sig_keyid1 g) (sig_pubkey_algo g) (sig_digest_algo g) (sig_hashed_data g)
    v (sig_digest_start g) (sig_d g).

Definition set_sig_digest_start (v : list byte) (g : PKT_signature)
  : PKT_signature :=
  mkSignature (sig_version g) (sig_class g) (sig_timestamp g) (sig_keyid0 g)
    (sig_keyid1 g) (sig_pubkey_algo g) (sig_digest_algo g) (sig_hashed_data g)
    (sig_unhashed_data g) v (sig_d g).

Definition set_sig_d (v : sig_material) (g : PKT_signature) : PKT_signature :=
  mkSignature (sig_version g) (sig_class g) (sig_timestamp g) (sig_keyid0 g)
    (sig_keyid1 g) (sig_pubkey_algo g) (sig_digest_algo g) (sig_hashed_data g)
    (sig_unhashed_data g) (sig_digest_start g) v.

Definition set_sc_head (timestamp valid_days hdrbytes version algo : Z)
  (c : PKT_secret_cert) : PKT_secret_cert :=
  mkSecretCert timestamp valid_days hdrbytes version algo
    (sc_is_protected c) (sc_protect c) (sc_d c) (sc_csum c).

Definition set_sc_is_protected (v : Z) (c : PKT_secret_cert) : PKT_secret_cert :=
  mkSecretCert (sc_timestamp c) (sc_valid_days c) (sc_hdrbytes c) (sc_version c)
    (sc_pubkey_algo c) v (sc_protect c) (sc_d c) (sc_csum c).

Definition set_sc_protect (v : cert_protect) (c : PKT_secret_cert)
  : PKT_secret_cert :=
  mkSecretCert (sc_timestamp c) (sc_valid_days c) (sc_hdrbytes c) (sc_version c)
    (sc_pubkey_algo c) (sc_is_protected c) v (sc_d c) (sc_csum c).

Definition set_sc_d (v : seckey_material) (c : PKT_secret_cert) : PKT_secret_cert :=
  mkSecretCert (sc_timestamp c) (sc_valid_days c) (sc_hdrbytes c) (sc_version c)
    (sc_pubkey_algo c) (sc_is_protected c) (sc_protect c) v (sc_csum c).

Definition set_sc_csum (v : Z) (c : PKT_secret_cert) : PKT_secret_cert :=
  mkSecretCert (sc_timestamp c) (sc_valid_days c) (sc_hdrbytes c) (sc_version c)
    (sc_pubkey_algo c) (sc_is_protected c) (sc_protect c) (sc_d c) v.

Definition set_protect_algo (v : Z) (c : PKT_secret_cert) : PKT_secret_cert :=
  set_sc_protect (mkProtect v (protect_s2k (sc_protect c))
                    (protect_iv (sc_protect c))) c.

Definition set_protect_s2k (v : STRING2KEY) (c : PKT_secret_cert)
  : PKT_secret_cert :=
  set_sc_protect (mkProtect (protect_algo (sc_protect c)) v
                    (protect_iv (sc_protect c))) c.

Definition set_protect_iv (v : list byte) (c : PKT_secret_cert)
  : PKT_secret_cert :=
  set_sc_protect (mkProtect (protect_algo (sc_protect c))
                    (protect_s2k (sc_protect c)) v) c.

Definition set_s2k_mode (v : Z) (k : STRING2KEY) : STRING2KEY :=
  mkS2K v (s2k_hash_algo k) (s2k_salt k) (s2k_count k).

Definition set_s2k_hash_algo (v : Z) (k : STRING2KEY) : STRING2KEY :=
  mkS2K (s2k_mode k) v (s2k_salt k) (s2k_count k).

Definition set_s2k_salt (v : list byte) (k : STRING2KEY) : STRING2KEY :=
  mkS2K (s2k_mode k) (s2k_hash_algo k) v (s2k_count k).

Definition set_s2k_count (v : Z) (k : STRING2KEY) : STRING2KEY :=
  mkS2K (s2k_mode k) (s2k_hash_algo k) (s2k_salt k) v.

(** [pkt->pkt.secret_cert] and [pkt->pkt.public_cert]: parse allocated
    the record that matches the packet type. *)
Definition secret_cert_of (p : PACKET) : PKT_secret_cert :=
  match pkt p with
  | Secret_cert c => c
  | _ => secret_cert_clear
  end.

Definition public_cert_of (p : PACKET) : PKT_public_cert :=
  match pkt p with
  | Public_cert c => c
  | _ => public_cert_clear
  end.

(** ** Reading loops shared by the body parsers *)

(** [pktlen--], [pktlen -= n] on an [unsigned long]. *)
Definition dec (pktlen n : Z) : Z := wrap (pktlen - n).

(** [for( ; pktlen; pktlen-- ) *p++ = iobuf_get_noeof(inp);] *)
Fixpoint read_bytes (n : nat) : M (list byte) :=
  match n with
  | O => ret []
  | S k =>
      c <- iobuf_get_noeof ;;
      bs <- read_bytes k ;;
      ret (z2b c :: bs)
  end.

(** [for(i=0; i < k && pktlen; i++, pktlen-- ) a[i] = iobuf_get_noeof(inp);]
    with the bytes stored and the counter left. *)
Fixpoint read_upto (k : nat) (pktlen : Z) : M (list byte * Z) :=
  match k with
  | O => ret ([], pktlen)
  | S k' =>
      if pktlen =? 0 then ret ([], pktlen)
      else
        c <- iobuf_get_noeof ;;
        '(bs, p) <- read_upto k' (dec pktlen 1) ;;
        ret (z2b c :: bs, p)
  end.

(** [byte temp[8]] after such a loop, as [memcpy( dst, temp, 8 )] sees it;
    the bytes the loop did not write are indeterminate in C and 0 here. *)
Definition fill8 (bs : list byte) : list byte := firstn 8 (bs ++ zero8).

Definition get_source : M IOBUF := fun s => Done s s.

(** Modelled from the spec: [mpi_read] of the missing MPI library reads a
    16-bit big-endian bit length [nb] and then (nb+7)/8 value bytes; it
    returns the integer (the null pointer when the prefix or the value is
    cut short by the end of the stream) and, through [*ret_nread], the
    number of bytes consumed, the two bytes of the prefix included.  The
    value the caller has put into [*ret_nread] before the call ([nmax],
    its [pktlen]) is not said to limit the read, and does not limit it
    here: an integer that is longer than the rest of the packet is read
    beyond the packet. *)
Definition mpi_read (nmax : Z) : M (option MPI * Z) :=
  c1 <- iobuf_get ;;
  if c1 =? -1 then ret (None, 0)
  else
    c2 <- iobuf_get ;;
    if c2 =? -1 then ret (None, 1)
    else
      let nb := c1 * 256 + c2 in
      let nbytes := (nb + 7) / 8 in
      '(n, bs) <- iobuf_read nbytes ;;
      if Z.of_nat (length bs) <? nbytes
      then ret (None, 2 + Z.of_nat (length bs))
      else ret (Some (mkMPI nb bs), 2 + nbytes).

(** ** skip_rest, skip_packet, copy_packet *)

(** [while( iobuf_get(inp) != -1 ) ;] *)
Fixpoint drain (fuel : nat) : M unit :=
  match fuel with
  | O => raise OutOfFuel
  | S f =>
      c <- iobuf_get ;;
      if c =? -1 then ret tt else drain f
  end.

(** [for( ; pktlen; pktlen-- ) iobuf_get(inp);] *)
Fixpoint get_n (n : nat) : M unit :=
  match n with
  | O => ret tt
  | S k => iobuf_get ;;; get_n k
  end.

(** The draining loop of [skip_rest] and [skip_packet]; every byte it is
    given comes off [io_data], which bounds the rounds. *)
Definition drain_all : M unit :=
  fun s => drain (S (length (io_data s))) s.

Definition skip_rest (pktlen : Z) : M unit :=
  b <- iobuf_in_block_mode ;;
  if b then drain_all else get_n (Z.to_nat pktlen).

(** The two [while( (n = iobuf_read( inp, buf, 100 )) != -1 )] loops. *)
Fixpoint copy_to_eof (fuel : nat) (out : SINK) : M (Z * SINK) :=
  match fuel with
  | O => raise OutOfFuel
  | S f =>
      '(n, buf) <- iobuf_read 100 ;;
      if n =? -1 then ret (0, out)
      else
        let (w, out') := iobuf_write out buf in
        if negb (w =? 0) then ret (G10ERR_WRITE_FILE, out')
        else copy_to_eof f out'
  end.

(** [for( ; pktlen; pktlen -= n )] *)
Fixpoint copy_definite (fuel : nat) (pktlen : Z) (out : SINK) : M (Z * SINK) :=
  match fuel with
  | O => raise OutOfFuel
  | S f =>
      if pktlen =? 0 then ret (0, out)
      else
        let n := if 100 <? pktlen then 100 else pktlen in
        '(n, buf) <- iobuf_read n ;;
        if n =? -1 then ret (G10ERR_READ_FILE, out)
        else
          let (w, out') := iobuf_write out buf in
          if negb (w =? 0) then ret (G10ERR_WRITE_FILE, out')
          else copy_definite f (dec pktlen n) out'
  end.

(** Every round of the three loops takes at least one byte from the
    source or ends the loop, which bounds the rounds. *)
Definition copy_packet (out : SINK) (pkttype pktlen : Z) : M (Z * SINK) :=
  b <- iobuf_in_block_mode ;;
  if b then fun s => copy_to_eof (S (length (io_data s))) out s
  else if (pktlen =? 0) && (pkttype =? PKT_COMPRESSED)
  then fun s => copy_to_eof (S (length (io_data s))) out s
  else fun s => copy_definite (S (length (io_data s))) pktlen out s.

(** ** parse_sig_subpkt *)

(** What [parse_sig_subpkt] returns: a pointer into the buffer (an offset
    here) with [*ret_n], or the null pointer; [BUG()] is kept apart.  The
    buffer is the list of its bytes, the offset 0 being [buffer[0]]. *)
Inductive subpkt_result : Type :=
| SubFound (p n : Z)
| SubNull
| SubBug
| SubOutOfFuel.

(** The length decoding of one subpacket (lines 570-585): the decoded
    length, the pointer and the bytes left, or [None] at [too_short]. *)
Definition subpkt_length (buf : list byte) (p buflen : Z)
  : option (Z * Z * Z) :=
  let n := byte_at buf p in
  let p := p + 1 in
  let buflen := buflen - 1 in
  if n =? 255 then
    if buflen <? 4 then None
    else
      Some (wrap (Z.lor (Z.lor (Z.lor (Z.shiftl (byte_at buf p) 24)
                                      (Z.shiftl (byte_at buf (p + 1)) 16))
                               (Z.shiftl (byte_at buf (p + 2)) 8))
                        (byte_at buf (p + 3))),
            p + 4, buflen - 4)
  else if 192 <=? n then
    if buflen <? 2 then None
    else Some (Z.shiftl (n - 192) 8 + byte_at buf p + 192, p, buflen - 1)
  else Some (n, p, buflen).

(** The part after [break] (lines 624-642). *)
Definition subpkt_found (p buflen n type : Z) : subpkt_result :=
  let p := p + 1 in
  let n := wrap (n - 1) in
  if buflen <? n then SubNull
  else if type =? SIGSUBPKT_SIG_CREATED then
    if n <? 4 then SubNull else SubFound p n
  else if type =? SIGSUBPKT_ISSUER then
    if n <? 8 then SubNull else SubFound p n
  else SubBug.

(** The [for(;;)] loop (lines 567-623); [buflen] drops in every round. *)
Fixpoint subpkt_scan (fuel : nat) (buf : list byte) (reqtype p buflen : Z)
  : subpkt_result :=
  match fuel with
  | O => SubOutOfFuel
  | S f =>
      if buflen =? 0 then SubNull
      else
        match subpkt_length buf p buflen with
        | None => SubNull
        | Some (n, p, buflen) =>
            if buflen <? n then SubNull
            else
              let type := byte_at buf p in
              let type := if negb (Z.land type 0x80 =? 0)
                          then Z.land type 0x7f else type in
              if reqtype <? 0 then subpkt_scan f buf reqtype (p + n) (buflen - n)
              else if type =? reqtype then subpkt_found p buflen n type
              else subpkt_scan f buf reqtype (p + n) (buflen - n)
        end
  end.

Definition parse_sig_subpkt (buffer : option (list byte)) (reqtype : Z)
  : subpkt_result :=
  match buffer with
  | None => SubNull
  | Some buf =>
      let buflen := Z.lor (Z.shiftl (byte_at buf 0) 8) (byte_at buf 1) in
      subpkt_scan (S (Z.to_nat buflen)) buf reqtype 2 buflen
  end.

(** ** The body parsers *)

Section Parsers.

(** [static int list_mode]: only its effect on how the stream is read is
    kept. *)
Variable list_mode : bool.

Definition skip_packet (pkttype pktlen : Z) : M unit :=
  if list_mode && negb (pkttype =? 0) then
    b <- iobuf_in_block_mode ;;
    if b then drain_all else get_n (Z.to_nat pktlen)
  else skip_rest pktlen.

(** [leave: skip_rest(inp, pktlen); return rc;] *)
Definition leave {A : Type} (rc : Z) (pktlen : Z) (a : A) : M (Z * A) :=
  skip_rest pktlen ;;; ret (rc, a).

(** *** parse_symkeyenc *)

(** The [switch( s2kmode )] of lines 446-459: the bytes the S2K mode
    needs, [None] for the [default:] label. *)
Definition symkeyenc_minlen (s2kmode : Z) : option Z :=
  if s2kmode =? 0 then Some 0
  else if s2kmode =? 1 then Some 8
  else if s2kmode =? 4 then Some 12
  else None.

(** Lines 464-480: the record is allocated and filled; the result is the
    record and the counter [pktlen] as the assertion finds it. *)
Definition symkeyenc_fill (version cipher_algo s2kmode hash_algo minlen pktlen : Z)
  : M (PKT_symkey_enc * Z) :=
  let seskeylen := pktlen - minlen in
  '(salt, pktlen) <-
     (if (s2kmode =? 1) || (s2kmode =? 4)
      then '(bs, p) <- read_upto 8 pktlen ;; ret (fill8 bs, p)
      else ret (zero8, pktlen)) ;;
  '(count, pktlen) <-
     (if s2kmode =? 4
      then c <- read_32 ;; ret (c, dec pktlen 4)
      else ret (0, pktlen)) ;;
  '(seskey, pktlen) <- read_upto (Z.to_nat seskeylen) pktlen ;;
  ret (mkSymkeyEnc version cipher_algo (mkS2K s2kmode hash_algo salt count)
         seskeylen seskey, pktlen).

Definition parse_symkeyenc (pkttype pktlen : Z) (packet : PACKET)
  : M (Z * PACKET) :=
  if pktlen <? 4 then leave 0 pktlen packet
  else
    version <- iobuf_get_noeof ;;
    let pktlen := dec pktlen 1 in
    if negb (version =? 4) then leave 0 pktlen packet
    else if 200 <? pktlen then leave 0 pktlen packet
    else
      cipher_algo <- iobuf_get_noeof ;;
      let pktlen := dec pktlen 1 in
      s2kmode <- iobuf_get_noeof ;;
      let pktlen := dec pktlen 1 in
      hash_algo <- iobuf_get_noeof ;;
      let pktlen := dec pktlen 1 in
      match symkeyenc_minlen s2kmode with
      | None => leave 0 pktlen packet
      | Some minlen =>
          if pktlen <? minlen then leave 0 pktlen packet
          else
            '(k, pktlen) <- symkeyenc_fill version cipher_algo s2kmode
                                           hash_algo minlen pktlen ;;
            if negb (pktlen =? 0) then raise AssertFailed
            else leave 0 pktlen (set_body (Symkey_enc k) packet)
      end.

(** *** parse_pubkeyenc *)

Definition parse_pubkeyenc (pkttype pktlen : Z) (packet : PACKET)
  : M (Z * PACKET) :=
  (* m_alloc: the fields not yet written are indeterminate in C, 0 here *)
  let k := mkPubkeyEnc 0 0 0 0 EncNone in
  if pktlen <? 12 then leave 0 pktlen (set_body (Pubkey_enc k) packet)
  else
    version <- iobuf_get_noeof ;;
    let pktlen := dec pktlen 1 in
    let k := mkPubkeyEnc version 0 0 0 EncNone in
    if negb (version =? 2) && negb (version =? 3)
    then leave 0 pktlen (set_body (Pubkey_enc k) packet)
    else
      keyid0 <- read_32 ;;
      let pktlen := dec pktlen 4 in
      keyid1 <- read_32 ;;
      let pktlen := dec pktlen 4 in
      algo <- iobuf_get_noeof ;;
      let pktlen := dec pktlen 1 in
      if is_ELGAMAL algo then
        '(a, n) <- mpi_read pktlen ;;
        let pktlen := dec pktlen n in
        '(b, n) <- mpi_read pktlen ;;
        let pktlen := dec pktlen n in
        leave 0 pktlen
          (set_body (Pubkey_enc (mkPubkeyEnc version keyid0 keyid1 algo (EncElg a b)))
                    packet)
      else if is_RSA algo then
        '(a, n) <- mpi_read pktlen ;;
        let pktlen := dec pktlen n in
        leave 0 pktlen
          (set_body (Pubkey_enc (mkPubkeyEnc version keyid0 keyid1 algo (EncRsa a)))
                    packet)
      else
        leave 0 pktlen
          (set_body (Pubkey_enc (mkPubkeyEnc version keyid0 keyid1 algo EncNone))
                    packet).

(** *** parse_signature *)

(** One subpacket area (lines 683-699 and 700-716): [inr] carries the
    buffer stored in the record (the null pointer for an empty area) and
    the counter, [inl] the return code of a [goto leave] together with the
    buffer already stored. *)
Definition read_subpkt_area (pktlen : Z)
  : M (Z * option (list byte) * Z + option (list byte) * Z) :=
  n <- read_16 ;;
  let pktlen := dec pktlen 2 in
  if 10000 <? n then ret (inl (G10ERR_INVALID_PACKET, None, pktlen))
  else if negb (n =? 0) then
    '(got, bytes) <- iobuf_read n ;;
    let data := z2b (Z.shiftl n 8) :: z2b n :: bytes in
    if negb (got =? n) then ret (inl (-1, Some data, pktlen))
    else ret (inr (Some data, dec pktlen n))
  else ret (inr (None, pktlen)).

(** Lines 728-742: creation time and issuer taken from the subpackets. *)
Definition extract_v4_info (sig : PKT_signature) : M PKT_signature :=
  sig <-
    match parse_sig_subpkt (sig_hashed_data sig) SIGSUBPKT_SIG_CREATED with
    | SubFound p _ =>
        ret (set_sig_timestamp
               (buffer_to_u32 (match sig_hashed_data sig with
                               | Some b => b | None => [] end) p) sig)
    | SubNull => ret sig
    | SubBug => raise BugHit
    | SubOutOfFuel => raise OutOfFuel
    end ;;
  match parse_sig_subpkt (sig_unhashed_data sig) SIGSUBPKT_ISSUER with
  | SubFound p _ =>
      let b := match sig_unhashed_data sig with Some b => b | None => [] end in
      ret (set_sig_keyid (buffer_to_u32 b p) (buffer_to_u32 b (p + 4)) sig)
  | SubNull => ret sig
  | SubBug => raise BugHit
  | SubOutOfFuel => raise OutOfFuel
  end.

(** Lines 758-794: the signature MPIs. *)
Definition read_sig_mpis (pktlen : Z) (sig : PKT_signature)
  : M (PKT_signature * Z) :=
  if is_ELGAMAL (sig_pubkey_algo sig) then
    '(a, n) <- mpi_read pktlen ;;
    let pktlen := dec pktlen n in
    '(b, n) <- mpi_read pktlen ;;
    let pktlen := dec pktlen n in
    ret (set_sig_d (SigElg a b) sig, pktlen)
  else if sig_pubkey_algo sig =? PUBKEY_ALGO_DSA then
    '(r, n) <- mpi_read pktlen ;;
    let pktlen := dec pktlen n in
    '(s, n) <- mpi_read pktlen ;;
    let pktlen := dec pktlen n in
    ret (set_sig_d (SigDsa r s) sig, pktlen)
  else if is_RSA (sig_pubkey_algo sig) then
    '(a, n) <- mpi_read pktlen ;;
    let pktlen := dec pktlen n in
    ret (set_sig_d (SigRsa a) sig, pktlen)
  else ret (sig, pktlen).

(** Lines 719-799. *)
Definition signature_tail (is_v4 : bool) (pktlen : Z) (sig : PKT_signature)
  : M (Z * PKT_signature) :=
  if pktlen <? 5 then leave G10ERR_INVALID_PACKET pktlen sig
  else
    d0 <- iobuf_get_noeof ;;
    let pktlen := dec pktlen 1 in
    d1 <- iobuf_get_noeof ;;
    let pktlen := dec pktlen 1 in
    let sig := set_sig_digest_start [z2b d0; z2b d1] sig in
    sig <- (if is_v4 then extract_v4_info sig else ret sig) ;;
    '(sig, pktlen) <- read_sig_mpis pktlen sig ;;
    leave 0 pktlen sig.

Definition parse_signature (pkttype pktlen : Z) (sig : PKT_signature)
  : M (Z * PKT_signature) :=
  if pktlen <? 16 then leave 0 pktlen sig
  else
    version <- iobuf_get_noeof ;;
    let pktlen := dec pktlen 1 in
    let sig := set_sig_version version sig in
    let is_v4 := version =? 4 in
    if negb is_v4 && negb (version =? 2) && negb (version =? 3)
    then leave 0 pktlen sig
    else
      '(md5_len, pktlen) <-
         (if negb is_v4
          then c <- iobuf_get_noeof ;; ret (c, dec pktlen 1)
          else ret (0, pktlen)) ;;
      class <- iobuf_get_noeof ;;
      let pktlen := dec pktlen 1 in
      let sig := set_sig_class class sig in
      '(sig, pktlen) <-
         (if negb is_v4 then
            t <- read_32 ;;
            k0 <- read_32 ;;
            k1 <- read_32 ;;
            ret (set_sig_keyid k0 k1 (set_sig_timestamp t sig),
                 dec (dec (dec pktlen 4) 4) 4)
          else ret (sig, pktlen)) ;;
      pubkey_algo <- iobuf_get_noeof ;;
      let pktlen := dec pktlen 1 in
      digest_algo <- iobuf_get_noeof ;;
      let pktlen := dec pktlen 1 in
      let sig := set_sig_digest_algo digest_algo
                   (set_sig_pubkey_algo pubkey_algo sig) in
      if is_v4 then
        hashed <- read_subpkt_area pktlen ;;
        match hashed with
        | inl (rc, data, pktlen) =>
            leave rc pktlen
              (match data with
               | Some _ => set_sig_hashed_data data sig
               | None => sig
               end)
        | inr (data, pktlen) =>
            let sig := match data with
                       | Some _ => set_sig_hashed_data data sig
                       | None => sig
                       end in
            unhashed <- read_subpkt_area pktlen ;;
            match unhashed with
            | inl (rc, data, pktlen) =>
                leave rc pktlen
                  (match data with
                   | Some _ => set_sig_unhashed_data data sig
                   | None => sig
                   end)
            | inr (data, pktlen) =>
                signature_tail is_v4 pktlen
                  (match data with
                   | Some _ => set_sig_unhashed_data data sig
                   | None => sig
                   end)
            end
        end
      else signature_tail is_v4 pktlen sig.

(** *** parse_onepass_sig *)

Definition parse_onepass_sig (pkttype pktlen : Z) (ops : PKT_onepass_sig)
  : M (Z * PKT_onepass_sig) :=
  if pktlen <? 13 then leave 0 pktlen ops
  else
    version <- iobuf_get_noeof ;;
    let pktlen := dec pktlen 1 in
    if negb (version =? 3) then leave 0 pktlen ops
    else
      sig_class <- iobuf_get_noeof ;;
      let pktlen := dec pktlen 1 in
      digest_algo <- iobuf_get_noeof ;;
      let pktlen := dec pktlen 1 in
      pubkey_algo <- iobuf_get_noeof ;;
      let pktlen := dec pktlen 1 in
      keyid0 <- read_32 ;;
      let pktlen := dec pktlen 4 in
      keyid1 <- read_32 ;;
      let pktlen := dec pktlen 4 in
      last <- iobuf_get_noeof ;;
      let pktlen := dec pktlen 1 in
      leave 0 pktlen
        (mkOnepass keyid0 keyid1 sig_class digest_algo pubkey_algo last).

(** *** parse_certificate *)

(** The explicit string-to-key specifier after protection byte 255 (lines
    943-993, and the same text at 1079-1129): [inl rc] is a [goto leave]. *)
Definition read_explicit_s2k (cert : PKT_secret_cert) (pktlen : Z)
  : M (Z * PKT_secret_cert * Z + PKT_secret_cert * Z) :=
  if pktlen <? 3 then ret (inl (G10ERR_INVALID_PACKET, cert, pktlen))
  else
    algo <- iobuf_get_noeof ;;
    let pktlen := dec pktlen 1 in
    mode <- iobuf_get_noeof ;;
    let pktlen := dec pktlen 1 in
    hash_algo <- iobuf_get_noeof ;;
    let pktlen := dec pktlen 1 in
    let cert := set_protect_algo algo cert in
    let cert := set_protect_s2k
                  (set_s2k_hash_algo hash_algo
                     (set_s2k_mode mode (protect_s2k (sc_protect cert)))) cert in
    '(cert, pktlen) <-
       (if (mode =? 1) || (mode =? 4) then
          '(temp, p) <- read_upto 8 pktlen ;;
          ret (set_protect_s2k
                 (set_s2k_salt (fill8 temp) (protect_s2k (sc_protect cert))) cert,
               p)
        else ret (cert, pktlen)) ;;
    if negb ((mode =? 0) || (mode =? 1) || (mode =? 4))
    then ret (inl (G10ERR_INVALID_PACKET, cert, pktlen))
    else if mode =? 4 then
      if pktlen <? 4 then ret (inl (G10ERR_INVALID_PACKET, cert, pktlen))
      else
        count <- read_32 ;;
        ret (inr (set_protect_s2k
                    (set_s2k_count count (protect_s2k (sc_protect cert))) cert,
                  dec pktlen 4))
    else ret (inr (cert, pktlen)).

(** The protection block of the ElGamal and DSA branches (lines 938-1022
    and 1074-1154); the two differ only in the hash algorithm of the faked
    string-to-key, passed as [fake_hash]. *)
Definition read_protection (fake_hash : Z -> Z) (cert : PKT_secret_cert)
  (pktlen : Z) : M (Z * PKT_secret_cert * Z + PKT_secret_cert * Z) :=
  algo <- iobuf_get_noeof ;;
  let pktlen := dec pktlen 1 in
  let cert := set_protect_algo algo cert in
  if negb (algo =? 0) then
    let cert := set_sc_is_protected 1 cert in
    let cert := set_protect_s2k
                  (set_s2k_count 0 (protect_s2k (sc_protect cert))) cert in
    r <- (if algo =? 255 then read_explicit_s2k cert pktlen
          else
            ret (inr (set_protect_s2k
                        (set_s2k_hash_algo (fake_hash algo)
                           (set_s2k_mode 0 (protect_s2k (sc_protect cert)))) cert,
                      pktlen))) ;;
    match r with
    | inl l => ret (inl l)
    | inr (cert, pktlen) =>
        if pktlen <? 8 then ret (inl (G10ERR_INVALID_PACKET, cert, pktlen))
        else
          '(temp, pktlen) <- read_upto 8 pktlen ;;
          ret (inr (set_protect_iv (fill8 temp) cert, pktlen))
    end
  else ret (inr (set_sc_is_protected 0 cert, pktlen)).

(** The protection block of the RSA branch (lines 1195-1212). *)
Definition read_protection_rsa (cert : PKT_secret_cert) (pktlen : Z)
  : M (PKT_secret_cert * Z) :=
  algo <- iobuf_get_noeof ;;
  let pktlen := dec pktlen 1 in
  let cert := set_protect_algo algo cert in
  if negb (algo =? 0) then
    let cert := set_sc_is_protected 1 cert in
    '(temp, pktlen) <- read_upto 8 pktlen ;;
    if algo =? CIPHER_ALGO_BLOWFISH160
    then ret (set_protect_iv (fill8 temp) cert, pktlen)
    else ret (cert, pktlen)
  else ret (set_sc_is_protected 0 cert, pktlen).

Definition is_secret_type (pkttype : Z) : bool :=
  (pkttype =? PKT_SECRET_CERT) || (pkttype =? PKT_SECKEY_SUBCERT).

Definition is_public_type (pkttype : Z) : bool :=
  (pkttype =? PKT_PUBLIC_CERT) || (pkttype =? PKT_PUBKEY_SUBCERT).

Definition elg_fake_hash (algo : Z) : Z :=
  if algo =? CIPHER_ALGO_BLOWFISH160 then DIGEST_ALGO_RMD160 else DIGEST_ALGO_MD5.

Definition parse_certificate (pkttype pktlen : Z) (hdr : list byte)
  (hdrlen : Z) (pkt : PACKET) : M (Z * PACKET) :=
  version <- iobuf_get_noeof ;;
  let pktlen := dec pktlen 1 in
  if (pkttype =? PKT_PUBKEY_SUBCERT) && (version =? 35) then
    (* an old comment packet, started by a hash mark *)
    (if list_mode
     then read_bytes (Z.to_nat pktlen) ;;; skip_rest 0
     else skip_rest pktlen) ;;;
    ret (0, pkt)
  else
    let is_v4 := version =? 4 in
    if negb is_v4 && negb (version =? 2) && negb (version =? 3)
    then leave 0 pktlen pkt
    else if pktlen <? 11 then leave 0 pktlen pkt
    else
      timestamp <- read_32 ;;
      let pktlen := dec pktlen 4 in
      '(valid_period, pktlen) <-
         (if is_v4 then ret (0, pktlen)
          else v <- read_16 ;; ret (v, dec pktlen 2)) ;;
      algorithm <- iobuf_get_noeof ;;
      let pktlen := dec pktlen 1 in
      let sc := set_sc_head timestamp valid_period hdrlen version algorithm
                  (secret_cert_of pkt) in
      let pc := mkPublicCert timestamp valid_period hdrlen version algorithm
                  (pc_d (public_cert_of pkt)) in
      if is_ELGAMAL algorithm then
        '(elg_p, n) <- mpi_read pktlen ;;
        let pktlen := dec pktlen n in
        '(elg_g, n) <- mpi_read pktlen ;;
        let pktlen := dec pktlen n in
        '(elg_y, n) <- mpi_read pktlen ;;
        let pktlen := dec pktlen n in
        if is_public_type pkttype then
          leave 0 pktlen
            (set_body (Public_cert
               (mkPublicCert timestamp valid_period hdrlen version algorithm
                  (PkElg elg_p elg_g elg_y))) pkt)
        else
          let sc := set_sc_d (SkElg elg_p elg_g elg_y None) sc in
          r <- read_protection elg_fake_hash sc pktlen ;;
          match r with
          | inl (rc, sc, pktlen) => leave rc pktlen (set_body (Secret_cert sc) pkt)
          | inr (sc, pktlen) =>
              '(x, n) <- mpi_read pktlen ;;
              let pktlen := dec pktlen n in
              csum <- read_16 ;;
              let pktlen := dec pktlen 2 in
              leave 0 pktlen
                (set_body (Secret_cert
                   (set_sc_csum csum (set_sc_d (SkElg elg_p elg_g elg_y x) sc)))
                   pkt)
          end
      else if algorithm =? PUBKEY_ALGO_DSA then
        '(dsa_p, n) <- mpi_read pktlen ;;
        let pktlen := dec pktlen n in
        '(dsa_q, n) <- mpi_read pktlen ;;
        let pktlen := dec pktlen n in
        '(dsa_g, n) <- mpi_read pktlen ;;
        let pktlen := dec pktlen n in
        '(dsa_y, n) <- mpi_read pktlen ;;
        let pktlen := dec pktlen n in
        if is_public_type pkttype then
          leave 0 pktlen
            (set_body (Public_cert
               (mkPublicCert timestamp valid_period hdrlen version algorithm
                  (PkDsa dsa_p dsa_q dsa_g dsa_y))) pkt)
        else
          let sc := set_sc_d (SkDsa dsa_p dsa_q dsa_g dsa_y None) sc in
          r <- read_protection (fun _ => DIGEST_ALGO_MD5) sc pktlen ;;
          match r with
          | inl (rc, sc, pktlen) => leave rc pktlen (set_body (Secret_cert sc) pkt)
          | inr (sc, pktlen) =>
              '(x, n) <- mpi_read pktlen ;;
              let pktlen := dec pktlen n in
              csum <- read_16 ;;
              let pktlen := dec pktlen 2 in
              leave 0 pktlen
                (set_body (Secret_cert
                   (set_sc_csum csum
                      (set_sc_d (SkDsa dsa_p dsa_q dsa_g dsa_y x) sc))) pkt)
          end
      else if is_RSA algorithm then
        '(rsa_pub_mod, n) <- mpi_read pktlen ;;
        let pktlen := dec pktlen n in
        '(rsa_pub_exp, n) <- mpi_read pktlen ;;
        let pktlen := dec pktlen n in
        if is_public_type pkttype then
          leave 0 pktlen
            (set_body (Public_cert
               (mkPublicCert timestamp valid_period hdrlen version algorithm
                  (PkRsa rsa_pub_mod rsa_pub_exp))) pkt)
        else
          let sc := set_sc_d (SkRsa rsa_pub_mod rsa_pub_exp None None None None)
                      sc in
          '(sc, pktlen) <- read_protection_rsa sc pktlen ;;
          '(rsa_d, n) <- mpi_read pktlen ;;
          let pktlen := dec pktlen n in
          '(rsa_p, n) <- mpi_read pktlen ;;
          let pktlen := dec pktlen n in
          '(rsa_q, n) <- mpi_read pktlen ;;
          let pktlen := dec pktlen n in
          '(rsa_u, n) <- mpi_read pktlen ;;
          let pktlen := dec pktlen n in
          csum <- read_16 ;;
          let pktlen := dec pktlen 2 in
          leave 0 pktlen
            (set_body (Secret_cert
               (set_sc_csum csum
                  (set_sc_d (SkRsa rsa_pub_mod rsa_pub_exp rsa_d rsa_p rsa_q rsa_u)
                     sc))) pkt)
      else
        leave 0 pktlen
          (if is_secret_type pkttype
           then set_body (Secret_cert sc) pkt
           else set_body (Public_cert pc) pkt).

(** *** parse_user_id, parse_comment, parse_trust *)

Definition parse_user_id (pkttype pktlen : Z) (packet : PACKET)
  : M (Z * PACKET) :=
  name <- read_bytes (Z.to_nat pktlen) ;;
  ret (0, set_body (User_id (mkUserId pktlen name)) packet).

Definition parse_comment (pkttype pktlen : Z) (packet : PACKET)
  : M (Z * PACKET) :=
  data <- read_bytes (Z.to_nat pktlen) ;;
  ret (0, set_body (Comment (mkComment pktlen data)) packet).

Definition parse_trust (pkttype pktlen : Z) : M unit :=
  c <- iobuf_get_noeof ;;
  ret tt.

(** *** parse_plaintext, parse_compressed, parse_encrypted *)

(** [for( i=0; pktlen > 4 && i < namelen; pktlen--, i++ )] *)
Fixpoint read_name (k : nat) (pktlen : Z) : M (list byte * Z) :=
  match k with
  | O => ret ([], pktlen)
  | S k' =>
      if 4 <? pktlen then
        c <- iobuf_get_noeof ;;
        '(bs, p) <- read_name k' (dec pktlen 1) ;;
        ret (z2b c :: bs, p)
      else ret ([], pktlen)
  end.

(** [for( i=0; i < namelen; i++ ) if( (c=iobuf_get(inp)) == -1 ) break;] *)
Fixpoint read_name_eof (k : nat) : M (list byte) :=
  match k with
  | O => ret []
  | S k' =>
      c <- iobuf_get ;;
      if c =? -1 then ret []
      else bs <- read_name_eof k' ;; ret (z2b c :: bs)
  end.

(** The name holds the bytes the loop stored; the rest of [name[namelen]]
    is indeterminate in C. *)
Definition parse_plaintext (pkttype pktlen : Z) (pkt : PACKET)
  : M (Z * PACKET) :=
  if negb (pktlen =? 0) && (pktlen <? 6) then ret (0, pkt)
  else
    mode <- iobuf_get_noeof ;;
    let pktlen := if negb (pktlen =? 0) then dec pktlen 1 else pktlen in
    namelen <- iobuf_get_noeof ;;
    let pktlen := if negb (pktlen =? 0) then dec pktlen 1 else pktlen in
    '(name, pktlen) <-
       (if negb (pktlen =? 0) then read_name (Z.to_nat namelen) pktlen
        else bs <- read_name_eof (Z.to_nat namelen) ;; ret (bs, pktlen)) ;;
    timestamp <- read_32 ;;
    let pktlen := if negb (pktlen =? 0) then dec pktlen 4 else pktlen in
    inp <- get_source ;;
    ret (0, set_body (Plaintext (mkPlaintext pktlen inp mode timestamp namelen name))
              pkt).

Definition parse_compressed (pkttype pktlen : Z) (pkt : PACKET)
  : M (Z * PACKET) :=
  algorithm <- iobuf_get_noeof ;;
  inp <- get_source ;;
  ret (0, set_body (Compressed (mkCompressed 0 algorithm inp)) pkt).

Definition parse_encrypted (pkttype pktlen : Z) (pkt : PACKET)
  : M (Z * PACKET) :=
  if negb (pktlen =? 0) && (pktlen <? 10) then
    skip_rest pktlen ;;;
    ret (0, set_body (Encrypted (mkEncrypted pktlen None)) pkt)
  else
    inp <- get_source ;;
    ret (0, set_body (Encrypted (mkEncrypted pktlen (Some inp))) pkt).

(** ** parse and the functions built on it *)

(** What one call of [parse] leaves behind: the return code, [*skip], the
    packet, [*retpos] when asked for, and the output sink. *)
Record parsed : Type := mkParsed {
  p_rc : Z;
  p_skip : bool;
  p_pkt : PACKET;
  p_retpos : option Z;
  p_out : option SINK
}.

(** The [switch( pkttype )] of lines 285-336; [rc] starts as
    [G10ERR_UNKNOWN_PACKET]. *)
Definition dispatch (pkttype pktlen : Z) (hdr : list byte) (packet : PACKET)
  : M (Z * PACKET) :=
  let pkt := mkPACKET pkttype (pkt packet) in
  let hdrlen := Z.of_nat (length hdr) in
  if (pkttype =? PKT_PUBLIC_CERT) || (pkttype =? PKT_PUBKEY_SUBCERT) then
    parse_certificate pkttype pktlen hdr hdrlen
      (set_body (Public_cert public_cert_clear) pkt)
  else if (pkttype =? PKT_SECRET_CERT) || (pkttype =? PKT_SECKEY_SUBCERT) then
    parse_certificate pkttype pktlen hdr hdrlen
      (set_body (Secret_cert secret_cert_clear) pkt)
  else if pkttype =? PKT_SYMKEY_ENC then parse_symkeyenc pkttype pktlen pkt
  else if pkttype =? PKT_PUBKEY_ENC then parse_pubkeyenc pkttype pktlen pkt
  else if pkttype =? PKT_SIGNATURE then
    '(rc, sig) <- parse_signature pkttype pktlen signature_clear ;;
    ret (rc, set_body (Signature sig) pkt)
  else if pkttype =? PKT_ONEPASS_SIG then
    '(rc, ops) <- parse_onepass_sig pkttype pktlen onepass_clear ;;
    ret (rc, set_body (Onepass_sig ops) pkt)
  else if pkttype =? PKT_USER_ID then parse_user_id pkttype pktlen pkt
  else if (pkttype =? PKT_OLD_COMMENT) || (pkttype =? PKT_COMMENT) then
    parse_comment pkttype pktlen pkt
  else if pkttype =? PKT_RING_TRUST then
    parse_trust pkttype pktlen ;;;
    ret (G10ERR_UNKNOWN_PACKET, pkt)
  else if pkttype =? PKT_PLAINTEXT then parse_plaintext pkttype pktlen pkt
  else if pkttype =? PKT_COMPRESSED then parse_compressed pkttype pktlen pkt
  else if pkttype =? PKT_ENCRYPTED then parse_encrypted pkttype pktlen pkt
  else
    skip_packet pkttype pktlen ;;;
    ret (G10ERR_UNKNOWN_PACKET, pkt).

Definition parse (packet : PACKET) (reqtype : Z) (want_retpos : bool)
  (out : option SINK) (do_skip : bool) : M parsed :=
  match pkt packet with
  | Generic_NULL =>
      retpos <- (if want_retpos then p <- iobuf_tell ;; ret (Some p)
                 else ret None) ;;
      h <- read_header ;;
      match h with
      | HdrEof => ret (mkParsed (-1) false packet retpos out)
      | HdrError rc => ret (mkParsed rc false packet retpos out)
      | HdrOk pkttype pktlen hdr pgp3 =>
          match (if pkttype =? 0 then None else out) with
          | Some o =>
              let (w, o) := iobuf_write o hdr in
              if w =? -1
              then ret (mkParsed G10ERR_WRITE_FILE false packet retpos (Some o))
              else
                '(rc, o) <- copy_packet o pkttype pktlen ;;
                ret (mkParsed rc false packet retpos (Some o))
          | None =>
              if do_skip || (pkttype =? 0)
                 || (negb (reqtype =? 0) && negb (pkttype =? reqtype))
              then
                skip_packet pkttype pktlen ;;;
                ret (mkParsed 0 true packet retpos out)
              else
                '(rc, filled) <- dispatch pkttype pktlen hdr packet ;;
                ret (mkParsed rc false filled retpos out)
          end
      end
  | _ => raise AssertFailed
  end.

(** [do { rc = parse(...); } while( skip );] of [parse_packet] and
    [search_packet].  Every skipped packet takes at least its header byte
    from the source, which bounds the number of rounds. *)
Fixpoint parse_until_kept (fuel : nat) (pkt : PACKET) (reqtype : Z)
  (want_retpos : bool) : M parsed :=
  match fuel with
  | O => raise OutOfFuel
  | S f =>
      r <- parse pkt reqtype want_retpos None false ;;
      if p_skip r then parse_until_kept f (p_pkt r) reqtype want_retpos
      else ret r
  end.

Definition parse_packet (pkt : PACKET) : M (Z * PACKET) :=
  fun s =>
    (r <- parse_until_kept (S (length (io_data s))) pkt 0 false ;;
     ret (p_rc r, p_pkt r)) s.

Definition search_packet (pkt : PACKET) (pkttype : Z) (want_retpos : bool)
  : M (Z * PACKET * option Z) :=
  fun s =>
    (r <- parse_until_kept (S (length (io_data s))) pkt pkttype want_retpos ;;
     ret (p_rc r, p_pkt r, p_retpos r)) s.

(** [do { init_packet(&pkt); } while( !(rc = parse( ..., out, 0 )) );] *)
Fixpoint copy_loop (fuel : nat) (out : SINK) : M (Z * SINK) :=
  match fuel with
  | O => raise OutOfFuel
  | S f =>
      r <- parse init_packet 0 false (Some out) false ;;
      let out := match p_out r with Some o => o | None => out end in
      if p_rc r =? 0 then copy_loop f out else ret (p_rc r, out)
  end.

Definition copy_all_packets (out : SINK) : M (Z * SINK) :=
  fun s => copy_loop (S (length (io_data s))) out s.

Fixpoint copy_some_loop (fuel : nat) (out : SINK) (stopoff : Z)
  : M (Z * SINK) :=
  match fuel with
  | O => raise OutOfFuel
  | S f =>
      pos <- iobuf_tell ;;
      if stopoff <=? pos then ret (0, out)
      else
        r <- parse init_packet 0 false (Some out) false ;;
        let out := match p_out r with Some o => o | None => out end in
        if p_rc r =? 0 then copy_some_loop f out stopoff else ret (p_rc r, out)
  end.

Definition copy_some_packets (out : SINK) (stopoff : Z) : M (Z * SINK) :=
  fun s => copy_some_loop (S (length (io_data s))) out stopoff s.

(** [for( ;n && !rc; n--)] *)
Fixpoint skip_some_packets (n : nat) : M Z :=
  match n with
  | O => ret 0
  | S k =>
      r <- parse init_packet 0 false None true ;;
      if p_rc r =? 0 then skip_some_packets k else ret (p_rc r)
  end.

(** Modelled from the spec: the loop of a caller that reads a whole
    stream is not part of this file.  [parse_packet] is called on a fresh
    packet as long as it returns 0, as in the loops of [copy_all_packets]
    and [skip_some_packets]: -1 is the end of the stream, and an invalid
    framing terminates the stream as well.  The packets returned with 0
    are kept, with the return code that ended the loop.  A call that
    returns 0 has taken at least its header byte, which bounds the
    rounds. *)
Fixpoint parse_stream_loop (fuel : nat) : M (list PACKET * Z) :=
  match fuel with
  | O => raise OutOfFuel
  | S f =>
      '(rc, pkt) <- parse_packet init_packet ;;
      if rc =? 0
      then '(rest, last) <- parse_stream_loop f ;; ret (pkt :: rest, last)
      else ret ([], rc)
  end.

Definition parse_stream : M (list PACKET * Z) :=
  fun s => parse_stream_loop (S (length (io_data s))) s.

End Parsers.

(** * common/mbox-util.c: mail address helpers *)

(** A [const char *] is a buffer, the list of its bytes.  The string it
    holds ends at the first NUL byte; the end of the list stands for the
    terminating NUL when no NUL comes earlier.  A pointer into the buffer
    is an offset. *)

(** The value of a [char] in an expression; plain [char] is signed here
    (bytes above 0x7f are negative). *)
Definition char_val (b : byte) : Z :=
  if b2z b <? 128 then b2z b else b2z b - 256.

(** [s[i]], with 0 past the end of the list. *)
Definition char_at (s : list byte) (i : nat) : Z := char_val (nth i s x00).

(** The string held by a buffer. *)
Fixpoint cstr (s : list byte) : list byte :=
  match s with
  | [] => []
  | b :: r => if Byte.eqb b x00 then [] else b :: cstr r
  end.

(** [strlen], [strchr] and [strstr] of the C library.  [strchr] looks for
    [(char)c] and takes the terminating NUL for a part of the string;
    [strstr] gives the offset of the first place where the needle
    starts. *)
Fixpoint strlen (s : list byte) : nat :=
  match s with
  | [] => O
  | b :: r => if Byte.eqb b x00 then O else S (strlen r)
  end.

Fixpoint strchr (s : list byte) (c : Z) : option nat :=
  match s with
  | [] => if Byte.eqb x00 (z2b c) then Some O else None
  | b :: r =>
      if Byte.eqb b (z2b c) then Some O
      else if Byte.eqb b x00 then None
      else option_map S (strchr r c)
  end.

Fixpoint starts_with (needle s : list byte) : bool :=
  match needle with
  | [] => true
  | n :: needle' =>
      if Byte.eqb n x00 then true
      else
        match s with
        | [] => false
        | b :: s' => Byte.eqb b n && starts_with needle' s'
        end
  end.

Fixpoint strstr (haystack needle : list byte) : option nat :=
  if starts_with needle haystack then Some O
  else
    match haystack with
    | [] => None
    | b :: r =>
        if Byte.eqb b x00 then None else option_map S (strstr r needle)
    end.

(** A pointer used as a truth value. *)
Definition found (p : option nat) : bool :=
  match p with
  | Some _ => true
  | None => false
  end.

(** Modelled from the spec: [errno.h] is missing; [EINVAL] is 22. *)
Definition EINVAL : Z := 22.

Definition at_sign : Z := char_val "@"%byte.
Definition dot : Z := char_val "."%byte.
Definition dotdot : list byte := list_byte_of_string "..".

(** [for (count=0; *string; string++ ) if ( *string == c ) count++;] *)
Fixpoint string_count_chr (string : list byte) (c : Z) : Z :=
  match string with
  | [] => 0
  | b :: r =>
      if Byte.eqb b x00 then 0
      else (if char_val b =? c then 1 else 0) + string_count_chr r c
  end.

Fixpoint string_has_ctrl_or_space (string : list byte) : bool :=
  match string with
  | [] => false
  | b :: r =>
      if Byte.eqb b x00 then false
      else if (Z.land (char_val b) 0x80 =? 0) && (char_val b <=? 0x20) then true
      else string_has_ctrl_or_space r
  end.

Definition has_dotdot_after_at (string : list byte) : bool :=
  match strchr string at_sign with
  | None => false
  | Some i => found (strstr (skipn (S i) string) dotdot)
  end.

Definition valid_chars : list byte :=
  list_byte_of_string
    "01234567890_-.abcdefghijklmnopqrstuvwxyzABCDEFGHIJKLMNOPQRSTUVWXYZ".

Definition special_chars : list byte :=
  list_byte_of_string "!#$%&'*+/=?^`{|}~".

(** The loop of [has_invalid_email_chars], with [at_seen] as it stands. *)
Fixpoint has_invalid_email_chars_loop (at_seen : bool) (s : list byte) : bool :=
  match s with
  | [] => false
  | b :: r =>
      if Byte.eqb b x00 then false
      else if negb (Z.land (char_val b) 0x80 =? 0)
      then has_invalid_email_chars_loop at_seen r
      else if char_val b =? at_sign
      then has_invalid_email_chars_loop true r
      else if negb at_seen
              && negb (found (strchr valid_chars (char_val b))
                       || found (strchr special_chars (char_val b)))
      then true
      else if at_seen && negb (found (strchr valid_chars (char_val b)))
      then true
      else has_invalid_email_chars_loop at_seen r
  end.

Definition has_invalid_email_chars (s : list byte) : bool :=
  has_invalid_email_chars_loop false s.

(** [name] may be the null pointer, which is [None]. *)
Definition is_valid_mailbox (name : option (list byte)) : bool :=
  match name with
  | None => false
  | Some name =>
      negb ((char_at name 0 =? 0)
            || has_invalid_email_chars name
            || negb (string_count_chr name at_sign =? 1)
            || (char_at name 0 =? at_sign)
            || (char_at name (strlen name - 1) =? at_sign)
            || (char_at name (strlen name - 1) =? dot)
            || found (strstr name dotdot))
  end.

(** Modelled from the spec: [ascii_strlwr] belongs to the missing
    [stringhelp.c]; the comment on [mailbox_from_userid] says that all
    plain ASCII characters of the result are converted to lowercase.  The
    letters A to Z get the bit 0x20, up to the end of the string. *)
Definition ascii_tolower (b : byte) : byte :=
  if (65 <=? b2z b) && (b2z b <=? 90) then z2b (Z.lor (b2z b) 0x20) else b.

Fixpoint ascii_strlwr (s : list byte) : list byte :=
  match s with
  | [] => []
  | b :: r => if Byte.eqb b x00 then s else ascii_tolower b :: ascii_strlwr r
  end.

(** The basic checks on the text between the angle brackets (lines
    150-155), true when the text is refused. *)
Definition bracket_text_refused (result : list byte) (len : nat) : bool :=
  negb (string_count_chr result at_sign =? 1)
  || (char_at result 0 =? at_sign)
  || (char_at result (len - 1) =? at_sign)
  || (char_at result (len - 1) =? dot)
  || string_has_ctrl_or_space result
  || has_dotdot_after_at result.

(** What [mailbox_from_userid] returns, the null pointer being [None],
    and the value it assigns to [errno], if any.  [have_core] tells
    whether [xtrymalloc] and [xtrystrdup] find memory; when they do not
    the function returns the null pointer and assigns nothing. *)
Definition mailbox_from_userid (have_core : bool) (userid : list byte)
  : option (list byte) * option Z :=
  let (result, errno) :=
    match strchr userid (char_val "<"%byte) with
    | Some i =>
        let s := skipn (S i) userid in
        match strchr s (char_val ">"%byte) with
        | Some len =>
            if (0 <? len)%nat then
              if have_core then
                let result := firstn len s in
                if bracket_text_refused result len
                then (None, Some EINVAL)
                else (Some result, None)
              else (None, None)
            else (None, Some EINVAL)
        | None => (None, Some EINVAL)
        end
    | None =>
        if is_valid_mailbox (Some userid) then
          if have_core then (Some (cstr userid), None) else (None, None)
        else (None, Some EINVAL)
    end in
  (option_map ascii_strlwr result, errno).

Definition is_valid_user_id (uid : option (list byte)) : bool :=
  match uid with
  | None => false
  | Some uid => negb (char_at uid 0 =? 0)
  end.

(** ** Worked inputs *)

(** Scenario S2: a legacy user id packet. *)
Definition hello_legacy : list byte := [xb4; x05; x48; x65; x6c; x6c; x6f].

(** Scenario S3: a new-format user id packet. *)
Definition world_new : list byte := [xcd; x05; x77; x6f; x72; x6c; x64].

(** A new-format user id packet whose length is written in the five-byte
    form: first length byte 255, then 00 00 00 05. *)
Definition hello_five_byte_length : list byte :=
  [xcd; xff; x00; x00; x00; x05; x48; x65; x6c; x6c; x6f].

(** Scenario S8: a new-format plaintext packet with a partial body: first
    length byte 0xE2 (a chunk of 4 bytes), the four bytes, then a closing
    chunk of length 0. *)
Definition partial_plaintext : list byte :=
  [xcb; xe2; x61; x62; x63; x64; x00].

(** A source in plain mode with [bs] still to read, at offset [pos]. *)
Definition plain (bs : list byte) (pos : Z) : IOBUF := mkIOBUF bs pos Plain.

(** A legacy ring trust packet: type 12, one length byte, one body byte. *)
Definition trust_packet : list byte := [xb0; x01; x00].

(** A ring trust packet of two body bytes followed by scenario S2. *)
Definition trust_packet_then_hello : list byte :=
  [xb0; x02; x00; x00] ++ hello_legacy.

(** A subpacket area of 196 bytes holding one issuer subpacket whose
    length 194 needs the two-byte form (0xC0 0x02): type byte 0x10, the
    eight key id bytes 0x11, and 185 further bytes. *)
Definition issuer_area_two_byte_length : list byte :=
  [x00; xc4; xc0; x02; x10] ++ repeat x11 8 ++ repeat x00 185.

(** A hashed area of 256 bytes: a creation time subpacket (0x5F000000) and
    two subpackets of type 20 that fill the area. *)
Definition hashed_area_256 : list byte :=
  [x05; x02; x5f; x00; x00; x00]
  ++ (xbf :: x14 :: repeat x00 190)
  ++ (x39 :: x14 :: repeat x00 56).

(** A version 4 RSA signature packet (legacy header, body of 269 bytes)
    with that hashed area, an empty unhashed area, digest start AB CD and
    one MPI of 8 bits. *)
Definition sig_v4_hashed_256 : list byte :=
  [x89; x01; x0d]
  ++ [x04; x00; x01; x02]
  ++ [x01; x00] ++ hashed_area_256
  ++ [x00; x00]
  ++ [xab; xcd]
  ++ [x00; x08; x80].

Definition iv_bytes : list byte := [xa1; xa2; xa3; xa4; xa5; xa6; xa7; xa8].

(** A version 3 RSA secret key packet protected with cipher 1: public
    MPIs n and e, protection byte 01, eight IV bytes, the MPIs d, p, q, u
    and the checksum. *)
Definition rsa_secret_key_protected : list byte :=
  [x94; x25]
  ++ [x03; x00; x00; x00; x01; x00; x00; x01]
  ++ [x00; x08; xc5] ++ [x00; x02; x03]
  ++ [x01] ++ iv_bytes
  ++ [x00; x08; x11] ++ [x00; x08; x22] ++ [x00; x08; x33] ++ [x00; x08; x44]
  ++ [x12; x34].

(** The same protection on an ElGamal secret key packet. *)
Definition elg_secret_key_protected : list byte :=
  [x94; x1f]
  ++ [x03; x00; x00; x00; x01; x00; x00; x10]
  ++ [x00; x08; xc5] ++ [x00; x02; x03] ++ [x00; x08; x77]
  ++ [x01] ++ iv_bytes
  ++ [x00; x08; x11]
  ++ [x12; x34].

(** A symkey-enc body of 201 bytes: version 4, cipher 7, simple S2K, hash
    2, and 197 bytes of session key. *)
Definition symkeyenc_body_201 : list byte :=
  [x04; x07; x00; x02] ++ repeat xaa 197.

(** ** The symkey-enc claim, as the specification words it *)

(** The packet the specification expects from a symkey-enc body, with
    [hi] the largest packet length it lets through: a record when the
    length is within 4..[hi], the version byte is 4, the S2K mode is 0, 1
    or 4 and the mode's bytes are there; the session key is what follows
    the S2K fields.  Otherwise the packet is left without a record. *)
Definition symkeyenc_expected (hi : Z) (body : list byte) (packet : PACKET)
  : PACKET :=
  match body with
  | v :: c :: m :: h :: tail =>
      if (Z.of_nat (length body) <=? hi) && (b2z v =? 4) then
        match symkeyenc_minlen (b2z m) with
        | Some minlen =>
            if minlen <=? Z.of_nat (length tail) then
              let salt := if (b2z m =? 1) || (b2z m =? 4)
                          then firstn 8 tail else zero8 in
              let count := if b2z m =? 4
                           then be_value (firstn 4 (skipn 8 tail)) else 0 in
              set_body
                (Symkey_enc
                   (mkSymkeyEnc 4 (b2z c) (mkS2K (b2z m) (b2z h) salt count)
                      (Z.of_nat (length tail) - minlen)
                      (skipn (Z.to_nat minlen) tail)))
                packet
            else packet
        | None => packet
        end
      else packet
  | _ => packet
  end.

(** On every body that is wholly in the stream, [parse_symkeyenc] returns
    0, hands back the expected packet and has consumed the body. *)
Definition symkeyenc_claim (hi : Z) : Prop :=
  forall (pkttype : Z) (body rest : list byte) (pos : Z) (packet : PACKET),
    Z.of_nat (length body) < 2 ^ 32 ->
    parse_symkeyenc pkttype (Z.of_nat (length body)) packet
      (plain (body ++ rest) pos)
    = Done (0, symkeyenc_expected hi body packet)
           (plain rest (pos + Z.of_nat (length body))).

(** An action that never stops on a failed [assert]. *)
Definition never_asserts {A : Type} (m : M A) : Prop :=
  forall s : IOBUF, m s <> Fault AssertFailed.

(** ** Streams of well-formed packets *)

(** The packet types [parse] has a body parser for. *)
Definition known_types : list Z :=
  [PKT_PUBKEY_ENC; PKT_SIGNATURE; PKT_SYMKEY_ENC; PKT_ONEPASS_SIG;
   PKT_SECRET_CERT; PKT_PUBLIC_CERT; PKT_SECKEY_SUBCERT; PKT_COMPRESSED;
   PKT_ENCRYPTED; PKT_PLAINTEXT; PKT_RING_TRUST; PKT_USER_ID;
   PKT_PUBKEY_SUBCERT; PKT_OLD_COMMENT; PKT_COMMENT].

(** [well_framed pos bs]: read from offset [pos], the stream [bs] is a
    sequence of packets with known nonzero type tags, each with a header
    [hdr] that the header decoder accepts and with its whole body in the
    stream.  A body is either of the definite length the header gives, or
    runs to the end of the stream (block mode, or a compressed packet of
    length 0). *)
Inductive well_framed : Z -> list byte -> Prop :=
| wf_end (pos : Z) : well_framed pos []
| wf_definite (pos : Z) (hdr body rest : list byte)
    (pkttype pktlen : Z) (pgp3 : bool) :
    read_header (plain (hdr ++ body ++ rest) pos)
    = Done (HdrOk pkttype pktlen hdr pgp3)
           (plain (body ++ rest) (pos + Z.of_nat (length hdr))) ->
    In pkttype known_types ->
    Z.of_nat (length body) = pktlen ->
    (pktlen = 0 -> pkttype <> PKT_COMPRESSED) ->
    well_framed (pos + Z.of_nat (length hdr) + pktlen) rest ->
    well_framed pos (hdr ++ body ++ rest)
| wf_to_eof (pos : Z) (hdr body : list byte)
    (pkttype pktlen : Z) (pgp3 : bool) (m : iomode) :
    read_header (plain (hdr ++ body) pos)
    = Done (HdrOk pkttype pktlen hdr pgp3)
           (mkIOBUF body (pos + Z.of_nat (length hdr)) m) ->
    In pkttype known_types ->
    m = Block \/ (m = Plain /\ pktlen = 0 /\ pkttype = PKT_COMPRESSED) ->
    well_framed pos (hdr ++ body).

(** A compressed packet of indeterminate length (scenario S7). *)
Definition compressed_to_eof : list byte := [xa3; x01; x78; x9c; x03; x00].

(** Scenarios S2, S3 and S7 one after the other. *)
Definition three_packets : list byte :=
  hello_legacy ++ world_new ++ compressed_to_eof.

(** A one-pass signature packet (new format, type 4) of 13 body bytes:
    version 3, class 0, digest 2, public key algorithm 1, the key id
    B4 05 48 65 6C 6C 6F 21 and the flag 01.  The first has its length in
    the five-byte form FF 00 00 00 0D, the second in one byte. *)
Definition onepass_body : list byte :=
  [x03; x00; x02; x01] ++ [xb4; x05; x48; x65; x6c; x6c; x6f; x21] ++ [x01].

Definition onepass_five_byte_length : list byte :=
  [xc4; xff; x00; x00; x00; x0d] ++ onepass_body.

Definition onepass_one_byte_length : list byte := [xc4; x0d] ++ onepass_body.

(** The packets a stream yields: those [parse_packet] returned with 0
    before the loop ended. *)
Definition packet_records (r : result (list PACKET * Z)) : list PACKET :=
  match r with
  | Done (l, _) _ => l
  | Fault _ => []
  end.

(** A new-format user id packet with a body of 0x00B4B405 = 11842565
    bytes, its length written in the five-byte form FF 00 B4 B4 05.  The
    body is "Hello" and zero bytes. *)
Definition long_user_id_start : list byte :=
  [x48; x65; x6c; x6c; x6f] ++ repeat x00 175.

Definition long_user_id_rest : list byte := repeat x00 (Z.to_nat 11842385).

Definition long_user_id_body : list byte :=
  long_user_id_start ++ long_user_id_rest.

Definition long_user_id : list byte :=
  [xcd; xff; x00; xb4; xb4; x05] ++ long_user_id_body.

(** The 184 bytes [copy_all_packets] writes for it. *)
Definition long_user_id_copy : list byte :=
  [xcd; xff] ++ [xb4; xb4] ++ [x05; x48; x65; x6c; x6c; x6f] ++ repeat x00 174.

(** ** Loops and the bytes left in the source *)

(** The bytes the source still holds, whatever its mode. *)
Definition remaining (s : IOBUF) : nat := length (io_data s).

(** At the source [s], the action [m] gives no byte back to the source,
    and when it stops without a result it is for the end of the input: no
    assertion has failed, [BUG()] was not reached and no loop has used up
    its fuel. *)
Definition tame_at {A : Type} (m : M A) (s : IOBUF) : Prop :=
  (forall f : fault, m s = Fault f -> f = EndOfInput)
  /\ forall (a : A) (s' : IOBUF),
       m s = Done a s' -> (remaining s' <= remaining s)%nat.

Definition tame {A : Type} (m : M A) : Prop := forall s : IOBUF, tame_at m s.

(** A result that is not one of the internal stops: a failed assertion,
    [BUG()], or a loop of the embedding out of fuel. *)
Definition no_internal_fault {A : Type} (r : result A) : Prop :=
  r <> Fault AssertFailed /\ r <> Fault BugHit /\ r <> Fault OutOfFuel.


(** ** New-format packets with a one-byte length *)

(** The bytes of a new-format packet whose body is shorter than 192
    bytes: the header byte 0xC0 + tag, the length byte and the body. *)
Definition new_packet (tag : Z) (body : list byte) : list byte :=
  z2b (0xC0 + tag) :: z2b (Z.of_nat (length body)) :: body.

Definition new_packets (l : list (Z * list byte)) : list byte :=
  flat_map (fun p => new_packet (fst p) (snd p)) l.

Definition small_packet (p : Z * list byte) : Prop :=
  0 <= fst p < 64 /\ (length (snd p) < 192)%nat.

(** A compressed packet of length 0 is copied up to the end of the stream
    (line 367); the packets below are not of this kind. *)
Definition not_empty_compressed (p : Z * list byte) : Prop :=
  fst p = PKT_COMPRESSED -> snd p <> [].

(** The packets that are not marked as deleted. *)
Definition live_packets (l : list (Z * list byte)) : list (Z * list byte) :=
  filter (fun p => negb (fst p =? 0)) l.

(** What makes [parse] skip a packet of type [tag] when [reqtype] is asked
    for (line 276, without [do_skip]). *)
Definition skipped_type (reqtype tag : Z) : Prop :=
  tag = 0 \/ (reqtype <> 0 /\ tag <> reqtype).

(** ** Subpacket areas with one-byte lengths *)

(** A subpacket whose length fits one byte: the length byte counts the
    type byte and the data. *)
Definition subpkt (type : byte) (data : list byte) : list byte :=
  z2b (1 + Z.of_nat (length data)) :: type :: data.

Definition subpkt_area (subs : list (byte * list byte)) : list byte :=
  flat_map (fun td => subpkt (fst td) (snd td)) subs.

(** The buffer [parse_sig_subpkt] is given for an area: its length in two
    bytes, high byte first, and the area. *)
Definition area_buffer (area : list byte) : list byte :=
  z2b (Z.of_nat (length area) / 256) :: z2b (Z.of_nat (length area)) :: area.

(** The type of a subpacket without its critical bit (lines 588-594). *)
Definition subpkt_type (t : byte) : Z := Z.land (b2z t) 0x7f.

(** The least data length [parse_sig_subpkt] accepts for the two types it
    serves (lines 631-638). *)
Definition subpkt_min_len (reqtype : Z) : Z :=
  if reqtype =? SIGSUBPKT_SIG_CREATED then 4 else 8.

(** ** Worked inputs for the further properties *)

(** A mailbox, and a user id that holds it between angle brackets. *)
Definition heine_name : list byte := list_byte_of_string "Heinrich Heine ".
Definition heine_mailbox : list byte :=
  list_byte_of_string "Heinrich.Heine@Duesseldorf.DE".
Definition heine_mailbox_lower : list byte :=
  list_byte_of_string "heinrich.heine@duesseldorf.de".
Definition heine_remark : list byte := list_byte_of_string " (poet)".

(** Three new-format packets: a user id, a deleted packet (type 0) and a
    packet of the unknown type 20. *)
Definition user_id_hi : Z * list byte := (PKT_USER_ID, [x68; x69]).
Definition deleted_packet : Z * list byte := (0, [x01; x02]).
Definition unknown_packet : Z * list byte := (20, [x01; x02; x03]).
Definition mixed_packets : list (Z * list byte) :=
  [user_id_hi; deleted_packet; unknown_packet].

(** A plaintext packet of 3 body bytes, and the body of one with mode
    [b], a name of two bytes, a timestamp and three data bytes. *)
Definition short_plaintext : Z * list byte := (PKT_PLAINTEXT, [x62; x00; x00]).
Definition plaintext_tail : list byte :=
  [x68; x69] ++ [x5f; x00; x00; x01] ++ [x61; x62; x63].

(** An encrypted data packet of 10 body bytes. *)
Definition encrypted_10 : Z * list byte := (PKT_ENCRYPTED, repeat xee 10).

(** A subpacket area: a creation time, and a critical issuer subpacket. *)
Definition created_subpkt : byte * list byte := (x02, [x5f; x00; x00; x01]).
Definition issuer_subpkt : byte * list byte := (x90, repeat x11 8).

(** The body of a public-key encrypted session key: version 3, a key id,
    RSA, and one integer of 8 bits. *)
Definition pubkeyenc_body : list byte :=
  [x03] ++ [xb4; x05; x48; x65; x6c; x6c; x6f; x21] ++ [x01] ++ [x00; x08; x80].

(** The fields of a version 3 signature up to the public key algorithm
    (16 bytes), and what follows them in an RSA signature with MD5:
    digest algorithm, digest start AB CD, one integer of 8 bits. *)
Definition sig_v3_timestamp : list byte := [x5f; x00; x00; x01].
Definition sig_v3_keyid : list byte := [xb4; x05; x48; x65; x6c; x6c; x6f; x21].
Definition sig_v3_tail : list byte := [xab; xcd; x00; x08; x80].

(** The body of a version 4 RSA public key behind the version byte:
    creation time, algorithm 1, n and e. *)
Definition public_key_v4_tail : list byte :=
  [x5f; x00; x00; x01] ++ [x01] ++ [x00; x08; xc5] ++ [x00; x02; x03].

(** ** Integers as [mpi_read] takes them *)

(** The bit count an integer starts with, high byte first. *)
Definition mpi_bits (m : list byte) : Z :=
  b2z (nth 0 m x00) * 256 + b2z (nth 1 m x00).

(** [m] is one whole integer: the two bytes of the bit count and the
    (bits+7)/8 bytes of the value. *)
Definition mpi_encoded (m : list byte) : Prop :=
  (2 <= length m)%nat /\ Z.of_nat (length m) = 2 + (mpi_bits m + 7) / 8.

(** What [mpi_read] returns for it. *)
Definition mpi_decode (m : list byte) : option MPI :=
  Some (mkMPI (mpi_bits m) (skipn 2 m)).

(** The integers a packet holds for an algorithm, in the order they are
    read: two for ElGamal and one for RSA in a pubkey-enc packet (lines
    523-545); two for ElGamal and DSA and one for RSA in a signature
    (lines 758-794), three for ElGamal, four for DSA and two for RSA in a
    public key (lines 912-916, 1043-1048 and 1173-1177), with the record
    they make.  For any other algorithm no integer is read and the
    record keeps what it had. *)
Definition pubkeyenc_count (algo : Z) : nat :=
  if is_ELGAMAL algo then 2 else if is_RSA algo then 1 else 0.

Definition signature_integers (algo : Z) (ms : list (list byte))
  (old : sig_material) : option sig_material :=
  if is_ELGAMAL algo then
    match ms with
    | [a; b] => Some (SigElg (mpi_decode a) (mpi_decode b))
    | _ => None
    end
  else if algo =? PUBKEY_ALGO_DSA then
    match ms with
    | [r; s] => Some (SigDsa (mpi_decode r) (mpi_decode s))
    | _ => None
    end
  else if is_RSA algo then
    match ms with
    | [a] => Some (SigRsa (mpi_decode a))
    | _ => None
    end
  else
    match ms with
    | [] => Some old
    | _ => None
    end.

Definition public_key_integers (algo : Z) (ms : list (list byte))
  (old : pubkey_material) : option pubkey_material :=
  if is_ELGAMAL algo then
    match ms with
    | [p; g; y] => Some (PkElg (mpi_decode p) (mpi_decode g) (mpi_decode y))
    | _ => None
    end
  else if algo =? PUBKEY_ALGO_DSA then
    match ms with
    | [p; q; g; y] =>
        Some (PkDsa (mpi_decode p) (mpi_decode q) (mpi_decode g) (mpi_decode y))
    | _ => None
    end
  else if is_RSA algo then
    match ms with
    | [n; e] => Some (PkRsa (mpi_decode n) (mpi_decode e))
    | _ => None
    end
  else
    match ms with
    | [] => Some old
    | _ => None
    end.

(** The fixed fields of a signature of version 2 or 3 as the record
    holds them. *)
Definition sig_v3_fixed (sig : PKT_signature) (v cls : byte) (ts kid : list byte)
  (pa da : byte) : Prop :=
  sig_version sig = b2z v
  /\ sig_class sig = b2z cls
  /\ sig_timestamp sig = be_value ts
  /\ sig_keyid0 sig = be_value (firstn 4 kid)
  /\ sig_keyid1 sig = be_value (skipn 4 kid)
  /\ sig_pubkey_algo sig = b2z pa
  /\ sig_digest_algo sig = b2z da.

(** One integer of 8 bits. *)
Definition mpi_80 : list byte := [x00; x08; x80].

(** ** Bytes and bit operations *)

Lemma b2z_range (b : byte) : 0 <= b2z b < 256.
Proof.
  unfold b2z. pose proof (Byte.to_N_bounded b) as H. lia.
Qed.

Lemma z2b_b2z (b : byte) : z2b (b2z b) = b.
Proof.
  unfold z2b. rewrite Z.mod_small by apply b2z_range.
  unfold b2z. rewrite N2Z.id, Byte.of_to_N. reflexivity.
Qed.

Lemma b2z_not_eof (b : byte) : (b2z b =? -1) = false.
Proof. apply Z.eqb_neq. pose proof (b2z_range b). lia. Qed.

Lemma land_shiftl8_low (a c : Z) : 0 <= c < 256 -> Z.land (Z.shiftl a 8) c = 0.
Proof.
  intros Hc. apply Z.bits_inj'. intros n Hn.
  rewrite Z.land_spec, Z.bits_0.
  destruct (Z.ltb_spec n 8) as [Hlt | Hge].
  - rewrite Z.shiftl_spec_low by lia. reflexivity.
  - destruct (Z.eq_dec c 0) as [-> | Hnz].
    + rewrite Z.bits_0. apply andb_false_r.
    + rewrite (Z.bits_above_log2 c n); [apply andb_false_r | lia |].
      apply Z.lt_le_trans with 8; [| lia].
      apply Z.log2_lt_pow2; lia.
Qed.

Lemma lor_shiftl8 (a c : Z) :
  0 <= c < 256 -> Z.lor (Z.shiftl a 8) c = a * 256 + c.
Proof.
  intros Hc. pose proof (Z.add_lor_land (Z.shiftl a 8) c) as H.
  rewrite land_shiftl8_low in H by assumption.
  rewrite Z.shiftl_mul_pow2 in H by lia. rewrite Z.shiftl_mul_pow2 by lia.
  change (2 ^ 8) with 256 in *. lia.
Qed.

Lemma lor_add_low (a k n c : Z) :
  0 <= n -> 0 <= c < 2 ^ n -> a = k * 2 ^ n -> Z.lor a c = a + c.
Proof.
  intros Hn Hc ->.
  pose proof (Z.add_lor_land (k * 2 ^ n) c) as H.
  assert (Hz : Z.land (k * 2 ^ n) c = 0).
  { rewrite <- Z.shiftl_mul_pow2 by lia.
    apply Z.bits_inj'. intros i Hi.
    rewrite Z.land_spec, Z.bits_0.
    destruct (Z.ltb_spec i n) as [Hlt | Hge].
    - rewrite Z.shiftl_spec_low by lia. reflexivity.
    - destruct (Z.eq_dec c 0) as [-> | Hnz].
      + rewrite Z.bits_0. apply andb_false_r.
      + rewrite (Z.bits_above_log2 c i); [apply andb_false_r | lia |].
        apply Z.lt_le_trans with n; [| lia].
        apply Z.log2_lt_pow2; lia. }
  lia.
Qed.

Lemma be32_lor (b3 b2 b1 b0 : Z) :
  0 <= b3 < 256 -> 0 <= b2 < 256 -> 0 <= b1 < 256 -> 0 <= b0 < 256 ->
  Z.lor (Z.lor (Z.lor (wrap (Z.shiftl b3 24)) (Z.shiftl b2 16)) (Z.shiftl b1 8)) b0
  = ((b3 * 256 + b2) * 256 + b1) * 256 + b0.
Proof.
  intros H3 H2 H1 H0. unfold wrap.
  rewrite !Z.shiftl_mul_pow2 by lia.
  rewrite Z.mod_small by lia.
  rewrite (lor_add_low (b3 * 2 ^ 24) b3 24 (b2 * 2 ^ 16)) by lia.
  rewrite (lor_add_low (b3 * 2 ^ 24 + b2 * 2 ^ 16) (b3 * 2 ^ 8 + b2) 16
             (b1 * 2 ^ 8)) by lia.
  rewrite (lor_add_low _ ((b3 * 2 ^ 8 + b2) * 2 ^ 8 + b1) 8 b0) by lia.
  lia.
Qed.

Lemma lor_bound32 (a b : Z) :
  0 <= a < 2 ^ 32 -> 0 <= b < 2 ^ 32 -> 0 <= Z.lor a b < 2 ^ 32.
Proof.
  intros Ha Hb.
  assert (Hnn : 0 <= Z.lor a b) by (apply Z.lor_nonneg; lia).
  split; [exact Hnn |].
  destruct (Z.eq_dec (Z.lor a b) 0) as [E | E]; [rewrite E; reflexivity |].
  apply Z.log2_lt_pow2; [lia |].
  rewrite Z.log2_lor by lia.
  apply Z.max_lub_lt.
  - destruct (Z.eq_dec a 0) as [-> | Hnz]; [cbn; lia |].
    apply Z.log2_lt_pow2; lia.
  - destruct (Z.eq_dec b 0) as [-> | Hnz]; [cbn; lia |].
    apply Z.log2_lt_pow2; lia.
Qed.

Lemma wrap_range (z : Z) : 0 <= wrap z < 2 ^ 32.
Proof. unfold wrap. apply Z.mod_pos_bound. reflexivity. Qed.

Lemma z2b_shiftl8 (n : Z) : z2b (Z.shiftl n 8) = x00.
Proof.
  unfold z2b. rewrite Z.shiftl_mul_pow2 by lia.
  change (2 ^ 8) with 256. rewrite Z.mod_mul by lia. reflexivity.
Qed.

Lemma z2b_low_byte (hi : Z) (lo : byte) : z2b (hi * 256 + b2z lo) = lo.
Proof.
  unfold z2b. rewrite Z.add_comm, Z.mod_add by lia.
  rewrite Z.mod_small by apply b2z_range.
  unfold b2z. rewrite N2Z.id, Byte.of_to_N. reflexivity.
Qed.

Lemma dec_small (p n : Z) : 0 <= n <= p -> p < 2 ^ 32 -> dec p n = p - n.
Proof. intros H1 H2. unfold dec, wrap. apply Z.mod_small. lia. Qed.

Lemma be_value_acc (bs : list byte) (acc : Z) :
  fold_left (fun a b => a * 256 + b2z b) bs acc
  = acc * 256 ^ Z.of_nat (length bs) + be_value bs.
Proof.
  unfold be_value. revert acc.
  induction bs as [| b bs IH] using rev_ind; intros acc.
  - simpl. lia.
  - rewrite !fold_left_app. cbn [fold_left].
    rewrite IH, length_app, Nat2Z.inj_add. cbn [length].
    change (Z.of_nat 1) with 1. rewrite Z.pow_add_r by lia.
    change (256 ^ 1) with 256. lia.
Qed.

Lemma be_value_bound (bs : list byte) :
  0 <= be_value bs < 256 ^ Z.of_nat (length bs).
Proof.
  unfold be_value.
  induction bs as [| b bs IH] using rev_ind.
  - simpl. lia.
  - rewrite fold_left_app, length_app, Nat2Z.inj_add. cbn [fold_left length].
    change (Z.of_nat 1) with 1. rewrite Z.pow_add_r by lia.
    change (256 ^ 1) with 256. pose proof (b2z_range b). lia.
Qed.

Lemma land3_cases (c : Z) :
  0 <= c -> Z.land c 3 = 0 \/ Z.land c 3 = 1 \/ Z.land c 3 = 2 \/ Z.land c 3 = 3.
Proof.
  intros Hc.
  assert (E : Z.land c 3 = c mod 4) by (apply (Z.land_ones c 2); lia).
  rewrite E. pose proof (Z.mod_pos_bound c 4 ltac:(lia)). lia.
Qed.

(** ** Sequencing *)

Lemma bind_done {A B : Type} (m : M A) (k : A -> M B) (s s' : IOBUF) (a : A) :
  m s = Done a s' -> bind m k s = k a s'.
Proof. intros H. unfold bind. rewrite H. reflexivity. Qed.

Lemma bind_fault {A B : Type} (m : M A) (k : A -> M B) (s : IOBUF) (f : fault) :
  m s = Fault f -> bind m k s = Fault f.
Proof. intros H. unfold bind. rewrite H. reflexivity. Qed.

Lemma bind_assoc {A B C : Type} (m : M A) (f : A -> M B) (g : B -> M C)
  (s : IOBUF) :
  bind (bind m f) g s = bind m (fun x => bind (f x) g) s.
Proof. unfold bind. destruct (m s); reflexivity. Qed.

Lemma bind_ret_l {A B : Type} (a : A) (k : A -> M B) (s : IOBUF) :
  bind (ret a) k s = k a s.
Proof. reflexivity. Qed.

Lemma bind_inv {A B : Type} (m : M A) (k : A -> M B) (s s' : IOBUF) (b : B) :
  bind m k s = Done b s' ->
  exists a s1, m s = Done a s1 /\ k a s1 = Done b s'.
Proof.
  unfold bind. destruct (m s) as [a s1 | f]; [| discriminate].
  intros H. exists a, s1. split; [reflexivity | exact H].
Qed.

(** Run the first action of a sequence, given what it returns. *)
Ltac mrun H :=
  rewrite ?bind_assoc; rewrite (bind_done _ _ _ _ _ H); cbv beta iota;
  rewrite ?bind_ret_l; cbv beta iota.

Lemma Done_pair_plain {A B : Type} (a a' : A) (b b' : B) (rest : list byte)
  (pos pos' : Z) :
  a = a' -> b = b' -> pos = pos' ->
  Done (a, b) (plain rest pos) = Done (a', b') (plain rest pos').
Proof. intros -> -> ->. reflexivity. Qed.

(** ** The byte source in plain mode *)

Lemma iobuf_get_plain_cons (b : byte) (r : list byte) (pos : Z) :
  iobuf_get (plain (b :: r) pos) = Done (b2z b) (plain r (pos + 1)).
Proof. reflexivity. Qed.

Lemma iobuf_get_plain_nil (pos : Z) :
  iobuf_get (plain [] pos) = Done (-1) (plain [] pos).
Proof. reflexivity. Qed.

Lemma iobuf_get_noeof_plain_cons (b : byte) (r : list byte) (pos : Z) :
  iobuf_get_noeof (plain (b :: r) pos) = Done (b2z b) (plain r (pos + 1)).
Proof.
  unfold iobuf_get_noeof, iobuf_get_raw, plain; simpl.
  rewrite b2z_not_eof. reflexivity.
Qed.

Lemma iobuf_get_noeof_plain_nil (pos : Z) :
  iobuf_get_noeof (plain [] pos) = Fault EndOfInput.
Proof. reflexivity. Qed.

Ltac plain_step :=
  first
    [ rewrite (bind_done _ _ _ _ _ (iobuf_get_noeof_plain_cons _ _ _))
    | rewrite (bind_done _ _ _ _ _ (iobuf_get_plain_cons _ _ _))
    | rewrite (bind_done _ _ _ _ _ (iobuf_get_plain_nil _)) ];
  rewrite ?b2z_not_eof, ?z2b_b2z.

Lemma read_bytes_plain (bs rest : list byte) (pos : Z) :
  read_bytes (length bs) (plain (bs ++ rest) pos)
  = Done bs (plain rest (pos + Z.of_nat (length bs))).
Proof.
  revert pos. induction bs as [| b bs IH]; intros pos.
  - simpl. unfold ret. rewrite Z.add_0_r. reflexivity.
  - cbn [length read_bytes app]. plain_step.
    rewrite (bind_done _ _ _ _ _ (IH _)). unfold ret.
    f_equal. f_equal. lia.
Qed.

Lemma get_n_plain (bs rest : list byte) (pos : Z) :
  get_n (length bs) (plain (bs ++ rest) pos)
  = Done tt (plain rest (pos + Z.of_nat (length bs))).
Proof.
  revert pos. induction bs as [| b bs IH]; intros pos.
  - simpl. unfold ret. rewrite Z.add_0_r. reflexivity.
  - cbn [length get_n app]. plain_step. rewrite IH.
    f_equal. f_equal. lia.
Qed.

Lemma skip_rest_plain (bs rest : list byte) (pos : Z) :
  skip_rest (Z.of_nat (length bs)) (plain (bs ++ rest) pos)
  = Done tt (plain rest (pos + Z.of_nat (length bs))).
Proof.
  unfold skip_rest, bind, iobuf_in_block_mode. cbn [io_mode plain].
  rewrite Nat2Z.id. apply get_n_plain.
Qed.

Lemma leave_plain {A : Type} (rc : Z) (a : A) (bs rest : list byte) (pos : Z) :
  leave rc (Z.of_nat (length bs)) a (plain (bs ++ rest) pos)
  = Done (rc, a) (plain rest (pos + Z.of_nat (length bs))).
Proof.
  unfold leave. rewrite (bind_done _ _ _ _ _ (skip_rest_plain bs rest pos)).
  reflexivity.
Qed.

Lemma leave_plain_gen {A : Type} (rc : Z) (a : A) (bs rest all : list byte)
  (pos p : Z) :
  all = bs ++ rest -> p = Z.of_nat (length bs) ->
  leave rc p a (plain all pos) = Done (rc, a) (plain rest (pos + p)).
Proof. intros -> ->. apply leave_plain. Qed.

Lemma read_16_plain (b1 b0 : byte) (rest : list byte) (pos : Z) :
  read_16 (plain (b1 :: b0 :: rest) pos)
  = Done (b2z b1 * 256 + b2z b0) (plain rest (pos + 1 + 1)).
Proof.
  unfold read_16. do 2 plain_step. unfold ret, wrap16.
  pose proof (b2z_range b1). pose proof (b2z_range b0).
  rewrite Z.shiftl_mul_pow2 by lia. change (2 ^ 8) with 256.
  rewrite Z.mod_small by lia.
  rewrite (lor_add_low (b2z b1 * 256) (b2z b1) 8 (b2z b0)) by lia.
  reflexivity.
Qed.

Lemma read_32_plain (b3 b2 b1 b0 : byte) (rest : list byte) (pos : Z) :
  read_32 (plain (b3 :: b2 :: b1 :: b0 :: rest) pos)
  = Done (be_value [b3; b2; b1; b0]) (plain rest (pos + 4)).
Proof.
  unfold read_32. do 4 plain_step. unfold ret.
  rewrite be32_lor by apply b2z_range.
  unfold be_value. cbn [fold_left]. f_equal. f_equal. lia.
Qed.

Lemma read_upto_plain (bs rest : list byte) :
  forall (pos p : Z),
    Z.of_nat (length bs) <= p < 2 ^ 32 ->
    read_upto (length bs) p (plain (bs ++ rest) pos)
    = Done (bs, p - Z.of_nat (length bs))
           (plain rest (pos + Z.of_nat (length bs))).
Proof.
  induction bs as [| b bs IH]; intros pos p Hp.
  - cbn. unfold ret. f_equal; [f_equal; lia | f_equal; lia].
  - cbn [length] in Hp. cbn [length read_upto app].
    replace (p =? 0) with false by (symmetry; apply Z.eqb_neq; lia).
    plain_step. rewrite dec_small by lia.
    rewrite (bind_done _ _ _ _ _ (IH (pos + 1) (p - 1) ltac:(lia))).
    unfold ret. f_equal; [f_equal; lia | f_equal; lia].
Qed.

Lemma read_len_plain (bs : list byte) :
  forall (acc : Z) (hdr tail : list byte) (pos : Z),
    0 <= acc ->
    acc * 256 ^ Z.of_nat (length bs) + be_value bs < 2 ^ 32 ->
    read_len (length bs) acc hdr (plain (bs ++ tail) pos)
    = Done (acc * 256 ^ Z.of_nat (length bs) + be_value bs, hdr ++ bs)
           (plain tail (pos + Z.of_nat (length bs))).
Proof.
  induction bs as [| b bs IH]; intros acc hdr tail pos Hacc Hfit.
  - cbn. unfold ret. rewrite app_nil_r. f_equal; [f_equal; lia | f_equal; lia].
  - cbn [length] in Hfit. cbn [length read_len app]. plain_step.
    pose proof (b2z_range b) as Hb.
    pose proof (be_value_bound bs) as Hbs.
    assert (Hcons : be_value (b :: bs)
                    = b2z b * 256 ^ Z.of_nat (length bs) + be_value bs).
    { unfold be_value at 1. cbn [fold_left]. rewrite be_value_acc. lia. }
    rewrite Hcons in Hfit |- *.
    rewrite Nat2Z.inj_succ, Z.pow_succ_r in Hfit |- * by lia.
    assert (Hpow : 0 < 256 ^ Z.of_nat (length bs)) by (apply Z.pow_pos_nonneg; lia).
    assert (Hsmall : acc * 256 < 2 ^ 32) by nia.
    assert (Hstep : Z.lor (wrap (Z.shiftl acc 8)) (b2z b) = acc * 256 + b2z b).
    { unfold wrap. rewrite Z.shiftl_mul_pow2 by lia. change (2 ^ 8) with 256.
      rewrite Z.mod_small by lia.
      rewrite <- lor_shiftl8 by assumption.
      rewrite Z.shiftl_mul_pow2 by lia. reflexivity. }
    rewrite Hstep, IH by nia.
    f_equal; [f_equal; [lia | rewrite <- app_assoc; reflexivity] | f_equal; lia].
Qed.

Lemma fill8_full (bs : list byte) : length bs = 8%nat -> fill8 bs = bs.
Proof.
  intros H. unfold fill8. rewrite firstn_app, H.
  change (firstn (8 - 8) zero8) with (@nil byte).
  rewrite app_nil_r, <- H. apply firstn_all.
Qed.

Lemma split_at (n : nat) (l : list byte) :
  (n <= length l)%nat ->
  l = firstn n l ++ skipn n l /\ length (firstn n l) = n
  /\ length (skipn n l) = (length l - n)%nat.
Proof.
  intros H. split; [symmetry; apply firstn_skipn |].
  split; [apply firstn_length_le; assumption | apply length_skipn].
Qed.

Lemma iobuf_read_loop_exact (a : list byte) :
  forall (rest : list byte) (pos : Z) (m : iomode),
    m = Plain \/ m = Block ->
    iobuf_read_loop (length a) (mkIOBUF (a ++ rest) pos m)
    = (a, mkIOBUF rest (pos + Z.of_nat (length a)) m).
Proof.
  induction a as [| b a IH]; intros rest pos m Hm.
  - cbn. rewrite Z.add_0_r. reflexivity.
  - cbn [length iobuf_read_loop app].
    assert (Hget : iobuf_get_raw (mkIOBUF (b :: a ++ rest) pos m)
                   = (b2z b, mkIOBUF (a ++ rest) (pos + 1) m))
      by (destruct Hm as [-> | ->]; reflexivity).
    rewrite Hget, b2z_not_eof, IH, z2b_b2z by assumption.
    f_equal. f_equal. lia.
Qed.

Lemma iobuf_read_loop_short (a : list byte) :
  forall (n : nat) (pos : Z) (m : iomode),
    m = Plain \/ m = Block ->
    (length a < n)%nat ->
    iobuf_read_loop n (mkIOBUF a pos m)
    = (a, mkIOBUF [] (pos + Z.of_nat (length a)) Plain).
Proof.
  induction a as [| b a IH]; intros n pos m Hm Hn.
  - destruct n as [| n]; [inversion Hn |].
    cbn [iobuf_read_loop length]. rewrite Z.add_0_r.
    destruct Hm as [-> | ->]; reflexivity.
  - destruct n as [| n]; [inversion Hn |].
    cbn [length] in Hn. cbn [length iobuf_read_loop].
    assert (Hget : iobuf_get_raw (mkIOBUF (b :: a) pos m)
                   = (b2z b, mkIOBUF a (pos + 1) m))
      by (destruct Hm as [-> | ->]; reflexivity).
    rewrite Hget, b2z_not_eof, IH, z2b_b2z by (assumption || lia).
    f_equal. f_equal. lia.
Qed.

Lemma iobuf_read_exact (a rest : list byte) (pos : Z) (m : iomode) :
  m = Plain \/ m = Block ->
  a <> [] ->
  iobuf_read (Z.of_nat (length a)) (mkIOBUF (a ++ rest) pos m)
  = Done (Z.of_nat (length a), a)
         (mkIOBUF rest (pos + Z.of_nat (length a)) m).
Proof.
  intros Hm Ha. unfold iobuf_read.
  rewrite Nat2Z.id, iobuf_read_loop_exact by assumption.
  destruct a; [contradiction | reflexivity].
Qed.

Lemma iobuf_write_unbounded (bs buf : list byte) :
  iobuf_write (mkSINK bs None) buf = (0, mkSINK (bs ++ buf) None).
Proof. reflexivity. Qed.

(** ** The header decoder *)

Lemma read_header_eof (s s' : IOBUF) :
  iobuf_get_raw s = (-1, s') -> read_header s = Done HdrEof s'.
Proof.
  intros H. unfold read_header, bind, iobuf_get. rewrite H. reflexivity.
Qed.

Lemma read_header_bad_ctb (s s' : IOBUF) (c : Z) :
  iobuf_get_raw s = (c, s') -> c <> -1 -> Z.land c 0x80 = 0 ->
  read_header s = Done (HdrError G10ERR_INVALID_PACKET) s'.
Proof.
  intros H Hc Hbit. unfold read_header, bind, iobuf_get. rewrite H.
  apply Z.eqb_neq in Hc. rewrite Hc, Hbit. reflexivity.
Qed.

Lemma read_len_plain_ok (k : nat) :
  forall (acc : Z) (hdr bs : list byte) (pos l : Z) (hdr' : list byte) (s' : IOBUF),
    read_len k acc hdr (plain bs pos) = Done (l, hdr') s' ->
    0 <= acc < 2 ^ 32 -> hdr <> [] ->
    0 <= l < 2 ^ 32 /\ hdr' <> [].
Proof.
  induction k as [| k IH]; intros acc hdr bs pos l hdr' s' H Hacc Hne.
  - cbn in H. injection H as <- <- _. auto.
  - cbn [read_len] in H. destruct bs as [| b bs].
    + rewrite (bind_fault _ _ _ _ (iobuf_get_noeof_plain_nil pos)) in H.
      discriminate.
    + revert H. plain_step. intros H.
      apply IH in H; [exact H | |].
      * apply lor_bound32; [apply wrap_range |].
        pose proof (b2z_range b). lia.
      * destruct hdr; [contradiction | discriminate].
Qed.

Lemma read_header_plain_ok (bs : list byte) (pos pkttype pktlen : Z)
  (hdr : list byte) (pgp3 : bool) (s' : IOBUF) :
  read_header (plain bs pos) = Done (HdrOk pkttype pktlen hdr pgp3) s' ->
  0 <= pktlen < 2 ^ 32 /\ hdr <> [].
Proof.
  destruct bs as [| ctb bs]; [discriminate |].
  unfold read_header. plain_step.
  destruct (Z.land (b2z ctb) 128 =? 0); [discriminate |].
  destruct (negb (Z.land (b2z ctb) 64 =? 0)).
  - destruct bs as [| c bs]; [discriminate |].
    plain_step. pose proof (b2z_range c) as Hc.
    destruct (b2z c <? 192) eqn:E1.
    { intros [= <- <- <- <- <-]. split; [lia | discriminate]. }
    destruct (b2z c <? 224) eqn:E2.
    { destruct bs as [| d bs]; [discriminate |].
      plain_step. intros [= <- <- <- <- <-].
      split; [apply wrap_range | discriminate]. }
    destruct (b2z c <? 255) eqn:E3.
    { destruct bs as [| b3 bs]; [discriminate |]. plain_step.
      destruct bs as [| b2 bs]; [discriminate |]. plain_step.
      destruct bs as [| b1 bs]; [discriminate |]. plain_step.
      destruct bs as [| b0 bs]; [discriminate |]. plain_step.
      unfold ret. rewrite be32_lor by apply b2z_range.
      intros [= <- <- <- <- <-].
      split; [| discriminate].
      pose proof (b2z_range b3). pose proof (b2z_range b2).
      pose proof (b2z_range b1). pose proof (b2z_range b0). lia. }
    cbv [bind iobuf_set_partial_block_mode ret].
    intros [= <- <- <- <- <-]. split; [lia | discriminate].
  - destruct ((if Z.land (b2z ctb) 3 =? 3 then 0
               else Z.shiftl 1 (Z.land (b2z ctb) 3)) =? 0).
    + destruct (negb (Z.land (Z.shiftr (b2z ctb) 2) 15 =? PKT_COMPRESSED));
        cbv [bind iobuf_set_block_mode ret];
        intros [= <- <- <- <- <-]; (split; [lia | discriminate]).
    + intros H. apply bind_inv in H.
      destruct H as ([l h] & s1 & Hr & H). injection H as <- <- <- <- <-.
      apply read_len_plain_ok in Hr; [exact Hr | lia | discriminate].
Qed.

(** What the decoder does with a first length byte of 255, on every
    stream: no further byte is read, the source is put into partial mode
    with chunk size 0 and pktlen is 0. *)
Lemma new_header_255 (ctb : byte) (rest : list byte) (pos : Z) :
  Z.land (b2z ctb) 0x80 <> 0 ->
  Z.land (b2z ctb) 0x40 <> 0 ->
  read_header (plain (ctb :: xff :: rest) pos)
  = Done (HdrOk (Z.land (b2z ctb) 0x3f) 0 [ctb; xff] true)
         (mkIOBUF rest (pos + 1 + 1) (Partial 0 false)).
Proof.
  intros H80 H40. apply Z.eqb_neq in H80, H40.
  unfold read_header. plain_step. rewrite H80, H40. cbn [negb].
  plain_step. reflexivity.
Qed.

(** What the decoder does with a first length byte in 224..254 when four
    more bytes follow: it reads them as a big-endian length and stays in
    plain mode. *)
Lemma new_header_224_254 (ctb c b3 b2 b1 b0 : byte) (rest : list byte) (pos : Z) :
  Z.land (b2z ctb) 0x80 <> 0 ->
  Z.land (b2z ctb) 0x40 <> 0 ->
  224 <= b2z c <= 254 ->
  read_header (plain (ctb :: c :: b3 :: b2 :: b1 :: b0 :: rest) pos)
  = Done (HdrOk (Z.land (b2z ctb) 0x3f) (be_value [b3; b2; b1; b0])
            [ctb; c; b3; b2; b1; b0] true)
         (plain rest (pos + 1 + 1 + 1 + 1 + 1 + 1)).
Proof.
  intros H80 H40 Hc. apply Z.eqb_neq in H80, H40.
  unfold read_header. plain_step. rewrite H80, H40. cbn [negb].
  plain_step.
  replace (b2z c <? 192) with false by (symmetry; apply Z.ltb_ge; lia).
  replace (b2z c <? 224) with false by (symmetry; apply Z.ltb_ge; lia).
  replace (b2z c <? 255) with true by (symmetry; apply Z.ltb_lt; lia).
  do 4 plain_step. unfold ret.
  rewrite be32_lor by apply b2z_range.
  unfold be_value. cbn [fold_left app]. reflexivity.
Qed.

(** The two short new-format lengths. *)
Lemma new_header_one_byte (ctb c : byte) (rest : list byte) (pos : Z) :
  Z.land (b2z ctb) 0x80 <> 0 ->
  Z.land (b2z ctb) 0x40 <> 0 ->
  b2z c < 192 ->
  read_header (plain (ctb :: c :: rest) pos)
  = Done (HdrOk (Z.land (b2z ctb) 0x3f) (b2z c) [ctb; c] true)
         (plain rest (pos + 1 + 1)).
Proof.
  intros H80 H40 Hc. apply Z.eqb_neq in H80, H40.
  unfold read_header. plain_step. rewrite H80, H40. cbn [negb].
  plain_step.
  replace (b2z c <? 192) with true by (symmetry; apply Z.ltb_lt; lia).
  reflexivity.
Qed.

Lemma new_header_two_bytes (ctb c d : byte) (rest : list byte) (pos : Z) :
  Z.land (b2z ctb) 0x80 <> 0 ->
  Z.land (b2z ctb) 0x40 <> 0 ->
  192 <= b2z c < 224 ->
  read_header (plain (ctb :: c :: d :: rest) pos)
  = Done (HdrOk (Z.land (b2z ctb) 0x3f) ((b2z c - 192) * 256 + b2z d + 192)
            [ctb; c; d] true)
         (plain rest (pos + 1 + 1 + 1)).
Proof.
  intros H80 H40 Hc. apply Z.eqb_neq in H80, H40.
  unfold read_header. plain_step. rewrite H80, H40. cbn [negb].
  plain_step.
  replace (b2z c <? 192) with false by (symmetry; apply Z.ltb_ge; lia).
  replace (b2z c <? 224) with true by (symmetry; apply Z.ltb_lt; lia).
  plain_step. unfold ret, wrap.
  pose proof (b2z_range d).
  rewrite Z.mod_small by lia.
  rewrite Z.add_assoc. reflexivity.
Qed.

(** The legacy header without a length field. *)
Lemma legacy_header_indeterminate (ctb : byte) (rest : list byte) (pos : Z) :
  Z.land (b2z ctb) 0x80 <> 0 ->
  Z.land (b2z ctb) 0x40 = 0 ->
  Z.land (b2z ctb) 3 = 3 ->
  read_header (plain (ctb :: rest) pos)
  = Done (HdrOk (Z.land (Z.shiftr (b2z ctb) 2) 0xf) 0 [ctb] false)
         (mkIOBUF rest (pos + 1)
            (if Z.land (Z.shiftr (b2z ctb) 2) 0xf =? PKT_COMPRESSED
             then Plain else Block)).
Proof.
  intros H80 H40 H3. apply Z.eqb_neq in H80.
  unfold read_header. plain_step. rewrite H80, H40, H3.
  cbn [Z.eqb negb].
  destruct (Z.land (Z.shiftr (b2z ctb) 2) 15 =? PKT_COMPRESSED); reflexivity.
Qed.

(** The legacy header with a length field of 1, 2 or 4 bytes. *)
Lemma legacy_header_definite (ctb : byte) (lenfield tail : list byte) (pos : Z) :
  Z.land (b2z ctb) 0x80 <> 0 ->
  Z.land (b2z ctb) 0x40 = 0 ->
  Z.land (b2z ctb) 3 <> 3 ->
  Z.of_nat (length lenfield) = Z.shiftl 1 (Z.land (b2z ctb) 3) ->
  read_header (plain (ctb :: lenfield ++ tail) pos)
  = Done (HdrOk (Z.land (Z.shiftr (b2z ctb) 2) 0xf) (be_value lenfield)
            (ctb :: lenfield) false)
         (plain tail (pos + 1 + Z.of_nat (length lenfield))).
Proof.
  intros H80 H40 H3 Hlen. apply Z.eqb_neq in H80.
  pose proof (b2z_range ctb) as Hc.
  assert (Hl : (if Z.land (b2z ctb) 3 =? 3 then 0
                else Z.shiftl 1 (Z.land (b2z ctb) 3))
               = Z.of_nat (length lenfield)).
  { rewrite Hlen. apply Z.eqb_neq in H3. rewrite H3. reflexivity. }
  assert (Hsize : Z.of_nat (length lenfield) = 1
                  \/ Z.of_nat (length lenfield) = 2
                  \/ Z.of_nat (length lenfield) = 4).
  { rewrite Hlen.
    destruct (land3_cases (b2z ctb) ltac:(lia)) as [E | [E | [E | E]]];
      try contradiction; rewrite E; cbn; auto. }
  assert (Hnz : (Z.of_nat (length lenfield) =? 0) = false)
    by (apply Z.eqb_neq; lia).
  pose proof (be_value_bound lenfield) as Hbnd.
  assert (Hfit : 0 * 256 ^ Z.of_nat (length lenfield) + be_value lenfield < 2 ^ 32).
  { destruct Hsize as [E | [E | E]]; rewrite E in *; cbn in *; lia. }
  unfold read_header. plain_step. rewrite H80, H40.
  change (negb (0 =? 0)) with false. cbv iota.
  rewrite Hl, Hnz, Nat2Z.id.
  rewrite (bind_done _ _ _ _ _
             (read_len_plain lenfield 0 [ctb] tail (pos + 1) ltac:(lia) Hfit)).
  unfold ret. cbn [app]. rewrite Z.mul_0_l, Z.add_0_l. reflexivity.
Qed.

(** ** C1: the new-format length bytes 224..255 *)

(** C1.  On the five-byte-length user id packet the decoder reads no
    length after the byte 255: it leaves 00 00 00 05 in the stream, enters
    partial mode with chunk size 0 and reports pktlen 0.  On the
    partial-body packet of scenario S8 (first length byte 0xE2) it does
    not enter partial mode: it takes the next four bytes as a big-endian
    length. *)
Theorem new_format_255_and_partial_swapped :
  read_header (iobuf_open hello_five_byte_length)
  = Done (HdrOk PKT_USER_ID 0 [xcd; xff] true)
         (mkIOBUF [x00; x00; x00; x05; x48; x65; x6c; x6c; x6f] 2
            (Partial 0 false))
  /\ read_header (iobuf_open partial_plaintext)
     = Done (HdrOk PKT_PLAINTEXT (be_value [x61; x62; x63; x64])
               [xcb; xe2; x61; x62; x63; x64] true)
            (plain [x00] 6).
Proof. split; vm_compute; reflexivity. Qed.

(** ** C2: subpacket lengths of two bytes *)

Lemma byte_at_range (buf : list byte) (i : Z) : 0 <= byte_at buf i < 256.
Proof.
  unfold byte_at. destruct (i <? 0); [lia | apply b2z_range].
Qed.

Lemma subpkt_length_progress (buf : list byte) (p buflen n p' buflen' : Z) :
  subpkt_length buf p buflen = Some (n, p', buflen') ->
  0 <= n /\ buflen' <= buflen - 1.
Proof.
  unfold subpkt_length. pose proof (byte_at_range buf p) as Hb.
  destruct (byte_at buf p =? 255).
  - destruct (buflen - 1 <? 4); [discriminate |].
    match goal with |- context [wrap ?z] => pose proof (wrap_range z) as Hw end.
    intros H. injection H as Hn _ Hl. split; [rewrite <- Hn; exact (proj1 Hw) | lia].
  - destruct (Z.leb_spec 192 (byte_at buf p)) as [Hge | Hlt].
    + destruct (buflen - 1 <? 2); [discriminate |].
      rewrite Z.shiftl_mul_pow2 by lia.
      intros [= <- <- <-]. split; [| lia].
      pose proof (byte_at_range buf (p + 1)). lia.
    + intros [= <- <- <-]. lia.
Qed.

(** The scan always ends: every round takes at least one byte off
    [buflen]. *)
Lemma subpkt_scan_ends (fuel : nat) :
  forall (buf : list byte) (reqtype p buflen : Z),
    0 <= buflen < Z.of_nat fuel ->
    subpkt_scan fuel buf reqtype p buflen <> SubOutOfFuel.
Proof.
  induction fuel as [| f IH]; intros buf reqtype p buflen Hb; [lia |].
  cbn [subpkt_scan].
  destruct (buflen =? 0); [discriminate |].
  destruct (subpkt_length buf p buflen) as [[[n p'] buflen'] |] eqn:El;
    [| discriminate].
  apply subpkt_length_progress in El.
  destruct (Z.ltb_spec buflen' n); [discriminate |].
  assert (Hnext : 0 <= buflen' - n < Z.of_nat f) by lia.
  destruct (reqtype <? 0); [apply IH; exact Hnext |].
  match goal with |- context [if ?c then _ else _] => destruct c end;
    [| apply IH; exact Hnext].
  unfold subpkt_found.
  repeat match goal with
         | |- context [if ?c then _ else _] => destruct c
         end; discriminate.
Qed.

Lemma parse_sig_subpkt_ends (buffer : option (list byte)) (reqtype : Z) :
  parse_sig_subpkt buffer reqtype <> SubOutOfFuel.
Proof.
  destruct buffer as [buf |]; [| discriminate].
  unfold parse_sig_subpkt. apply subpkt_scan_ends.
  pose proof (byte_at_range buf 0). pose proof (byte_at_range buf 1).
  assert (0 <= Z.lor (Z.shiftl (byte_at buf 0) 8) (byte_at buf 1)).
  { apply Z.lor_nonneg. split; [apply Z.shiftl_nonneg |]; lia. }
  lia.
Qed.

Lemma subpkt_length_two_bytes (buf : list byte) (p buflen : Z) :
  192 <= byte_at buf p <= 254 ->
  3 <= buflen ->
  subpkt_length buf p buflen
  = Some ((byte_at buf p - 192) * 256 + byte_at buf (p + 1) + 192,
          p + 1, buflen - 1 - 1).
Proof.
  intros Hb Hlen. unfold subpkt_length.
  replace (byte_at buf p =? 255) with false by (symmetry; apply Z.eqb_neq; lia).
  replace (192 <=? byte_at buf p) with true by (symmetry; apply Z.leb_le; lia).
  replace (buflen - 1 <? 2) with false by (symmetry; apply Z.ltb_ge; lia).
  rewrite Z.shiftl_mul_pow2 by lia. reflexivity.
Qed.

(** C2.  In the area that holds one issuer subpacket with the two-byte
    length C0 02, the length is decoded as 194, but the pointer is left on
    the second length byte: the byte examined as the type is 0x02, not the
    type byte 0x10 that follows the length field.  A request for the
    issuer finds nothing, and a request for the creation time is answered
    with a pointer to the issuer's type byte. *)
Theorem two_byte_length_type_byte :
  subpkt_length issuer_area_two_byte_length 2 196 = Some (194, 3, 194)
  /\ byte_at issuer_area_two_byte_length 3 = 2
  /\ byte_at issuer_area_two_byte_length 4 = SIGSUBPKT_ISSUER
  /\ parse_sig_subpkt (Some issuer_area_two_byte_length) SIGSUBPKT_ISSUER
     = SubNull
  /\ parse_sig_subpkt (Some issuer_area_two_byte_length) SIGSUBPKT_SIG_CREATED
     = SubFound 4 193.
Proof. repeat split; vm_compute; reflexivity. Qed.

(** ** C3: the stored subpacket areas *)

(** What is stored for a subpacket area of every length n in 1..10000
    that is wholly in the stream: the first byte is 0, the second is n mod
    256, and the area follows. *)
Lemma read_subpkt_area_stored (hi lo : byte) (area rest : list byte)
  (pos pktlen : Z) :
  1 <= b2z hi * 256 + b2z lo <= 10000 ->
  Z.of_nat (length area) = b2z hi * 256 + b2z lo ->
  read_subpkt_area pktlen (plain (hi :: lo :: area ++ rest) pos)
  = Done (inr (Some (x00 :: lo :: area),
               dec (dec pktlen 2) (b2z hi * 256 + b2z lo)))
         (plain rest (pos + 1 + 1 + Z.of_nat (length area))).
Proof.
  intros Hn Hlen. unfold read_subpkt_area.
  mrun (read_16_plain hi lo (area ++ rest) pos).
  replace (10000 <? b2z hi * 256 + b2z lo) with false
    by (symmetry; apply Z.ltb_ge; lia).
  replace (b2z hi * 256 + b2z lo =? 0) with false
    by (symmetry; apply Z.eqb_neq; lia).
  cbn [negb]. rewrite <- Hlen.
  assert (Hne : area <> [])
    by (intros E; rewrite E in Hlen; cbn in Hlen; lia).
  unfold plain at 1.
  mrun (iobuf_read_exact area rest (pos + 1 + 1) Plain (or_introl eq_refl) Hne).
  rewrite Z.eqb_refl. cbn [negb]. unfold ret.
  rewrite z2b_shiftl8, Hlen, z2b_low_byte. reflexivity.
Qed.

(** C3.  A version 4 signature with a hashed area of 256 bytes is parsed
    with return code 0, and the stored buffer starts with 00 00 where the
    big-endian length is 01 00; the area bytes follow verbatim.  The
    creation time of the area (0x5F000000) is then not found. *)
Theorem hashed_area_length_prefix :
  exists sig : PKT_signature,
    parse_packet false init_packet (iobuf_open sig_v4_hashed_256)
    = Done (0, mkPACKET PKT_SIGNATURE (Signature sig)) (plain [] 272)
    /\ sig_hashed_data sig = Some (x00 :: x00 :: hashed_area_256)
    /\ z2b (Z.shiftr 256 8) = x01
    /\ z2b (256 mod 256) = x00
    /\ sig_timestamp sig = 0.
Proof.
  eexists. split; [vm_compute; reflexivity |].
  repeat split; vm_compute; reflexivity.
Qed.

(** ** C4: the protection IV of secret keys *)

(** The ElGamal and DSA branches: protection byte 0 marks the record
    unprotected and no further byte is read. *)
Lemma read_protection_zero (fake_hash : Z -> Z) (cert : PKT_secret_cert)
  (rest : list byte) (pos pktlen : Z) :
  read_protection fake_hash cert pktlen (plain (x00 :: rest) pos)
  = Done (inr (set_sc_is_protected 0 (set_protect_algo 0 cert), dec pktlen 1))
         (plain rest (pos + 1)).
Proof. reflexivity. Qed.

(** The ElGamal and DSA branches: a protection byte other than 0 and 255
    marks the record protected and the eight bytes that follow are stored
    as the IV. *)
Lemma read_protection_legacy (fake_hash : Z -> Z) (cert : PKT_secret_cert)
  (algo : byte) (iv rest : list byte) (pos pktlen : Z) :
  b2z algo <> 0 -> b2z algo <> 255 ->
  length iv = 8%nat ->
  9 <= pktlen < 2 ^ 32 ->
  exists cert' : PKT_secret_cert,
    read_protection fake_hash cert pktlen (plain (algo :: iv ++ rest) pos)
    = Done (inr (cert', pktlen - 9)) (plain rest (pos + 1 + 8))
    /\ sc_is_protected cert' = 1
    /\ protect_iv (sc_protect cert') = iv.
Proof.
  intros H0 H255 Hiv Hp. apply Z.eqb_neq in H0, H255.
  eexists. unfold read_protection.
  plain_step. rewrite H0, H255. cbn [negb].
  rewrite bind_ret_l. cbv beta iota.
  rewrite (dec_small pktlen 1) by lia.
  replace (pktlen - 1 <? 8) with false by (symmetry; apply Z.ltb_ge; lia).
  rewrite <- Hiv.
  mrun (read_upto_plain iv rest (pos + 1) (pktlen - 1) ltac:(lia)).
  unfold ret. rewrite fill8_full by assumption. rewrite Hiv.
  change (Z.of_nat 8) with 8.
  replace (pktlen - 1 - 8) with (pktlen - 9) by lia.
  split; [reflexivity | split; reflexivity].
Qed.

(** The RSA branch: a nonzero protection byte marks the record protected
    and the eight bytes that follow are read, but they reach the IV field
    only for [CIPHER_ALGO_BLOWFISH160]. *)
Lemma read_protection_rsa_nonzero (cert : PKT_secret_cert) (algo : byte)
  (iv rest : list byte) (pos pktlen : Z) :
  b2z algo <> 0 ->
  length iv = 8%nat ->
  9 <= pktlen < 2 ^ 32 ->
  exists cert' : PKT_secret_cert,
    read_protection_rsa cert pktlen (plain (algo :: iv ++ rest) pos)
    = Done (cert', pktlen - 9) (plain rest (pos + 1 + 8))
    /\ sc_is_protected cert' = 1
    /\ protect_iv (sc_protect cert')
       = (if b2z algo =? CIPHER_ALGO_BLOWFISH160 then iv
          else protect_iv (sc_protect cert)).
Proof.
  intros H0 Hiv Hp. apply Z.eqb_neq in H0.
  unfold read_protection_rsa.
  destruct (b2z algo =? CIPHER_ALGO_BLOWFISH160) eqn:Eb; eexists.
  all: plain_step; rewrite H0; cbn [negb].
  all: rewrite (dec_small pktlen 1) by lia.
  all: rewrite <- Hiv.
  all: mrun (read_upto_plain iv rest (pos + 1) (pktlen - 1) ltac:(lia)).
  all: rewrite Eb; unfold ret.
  all: rewrite ?fill8_full by assumption.
  all: rewrite Hiv; change (Z.of_nat 8) with 8.
  all: replace (pktlen - 1 - 8) with (pktlen - 9) by lia.
  all: split; [reflexivity | split; reflexivity].
Qed.

(** C4.  An RSA secret key with protection byte 01 is marked protected and
    its eight IV bytes are read from the stream, but the IV field of the
    record stays cleared; the ElGamal branch stores the same IV bytes. *)
Theorem rsa_protection_iv_not_stored :
  (exists sc : PKT_secret_cert,
     parse_packet false init_packet (iobuf_open rsa_secret_key_protected)
     = Done (0, mkPACKET PKT_SECRET_CERT (Secret_cert sc)) (plain [] 39)
     /\ sc_is_protected sc = 1
     /\ protect_algo (sc_protect sc) = 1
     /\ protect_iv (sc_protect sc) = zero8)
  /\
  (exists sc : PKT_secret_cert,
     parse_packet false init_packet (iobuf_open elg_secret_key_protected)
     = Done (0, mkPACKET PKT_SECRET_CERT (Secret_cert sc)) (plain [] 33)
     /\ sc_is_protected sc = 1
     /\ protect_iv (sc_protect sc) = iv_bytes).
Proof.
  split; eexists; (split; [vm_compute; reflexivity |]);
    repeat split; vm_compute; reflexivity.
Qed.

(** ** C5: ring trust packets *)

(** Whatever the stream holds, the [PKT_RING_TRUST] case of the switch
    never hands back 0: [rc] keeps its initial value. *)
Lemma dispatch_ring_trust_rc (list_mode : bool) (pktlen : Z) (hdr : list byte)
  (packet filled : PACKET) (s s' : IOBUF) (rc : Z) :
  dispatch list_mode PKT_RING_TRUST pktlen hdr packet s = Done (rc, filled) s' ->
  rc = G10ERR_UNKNOWN_PACKET.
Proof.
  unfold dispatch. cbn [PKT_RING_TRUST Z.eqb Pos.eqb orb PKT_PUBLIC_CERT
    PKT_PUBKEY_SUBCERT PKT_SECRET_CERT PKT_SECKEY_SUBCERT PKT_SYMKEY_ENC
    PKT_PUBKEY_ENC PKT_SIGNATURE PKT_ONEPASS_SIG PKT_USER_ID PKT_OLD_COMMENT
    PKT_COMMENT].
  intros H. apply bind_inv in H. destruct H as (u & s1 & _ & H).
  injection H as <- _ _. reflexivity.
Qed.

(** C5.  On a ring trust packet of one body byte [parse_packet] returns
    [G10ERR_UNKNOWN_PACKET], which is not 0; on one of two body bytes it
    also stops after the first body byte, so the stream is not at the next
    packet. *)
Theorem ring_trust_return_code :
  parse_packet false init_packet (iobuf_open trust_packet)
  = Done (G10ERR_UNKNOWN_PACKET, mkPACKET PKT_RING_TRUST Generic_NULL)
         (plain [] 3)
  /\ G10ERR_UNKNOWN_PACKET <> 0
  /\ parse_packet false init_packet (iobuf_open trust_packet_then_hello)
     = Done (G10ERR_UNKNOWN_PACKET, mkPACKET PKT_RING_TRUST Generic_NULL)
            (plain (x00 :: hello_legacy) 3).
Proof.
  split; [vm_compute; reflexivity |].
  split; [discriminate | vm_compute; reflexivity].
Qed.

(** ** C6: what parse_symkeyenc accepts *)

Lemma symkeyenc_minlen_cases (mode minlen : Z) :
  symkeyenc_minlen mode = Some minlen ->
  (mode = 0 /\ minlen = 0) \/ (mode = 1 /\ minlen = 8) \/ (mode = 4 /\ minlen = 12).
Proof.
  unfold symkeyenc_minlen.
  destruct (Z.eqb_spec mode 0); [intros [= <-]; auto |].
  destruct (Z.eqb_spec mode 1); [intros [= <-]; auto |].
  destruct (Z.eqb_spec mode 4); [intros [= <-]; auto | discriminate].
Qed.

Lemma symkeyenc_fill_plain
  (version cipher_algo mode hash_algo minlen : Z) (tail rest : list byte) (pos : Z) :
  symkeyenc_minlen mode = Some minlen ->
  minlen <= Z.of_nat (length tail) < 2 ^ 32 ->
  symkeyenc_fill version cipher_algo mode hash_algo minlen
    (Z.of_nat (length tail)) (plain (tail ++ rest) pos)
  = Done (mkSymkeyEnc version cipher_algo
            (mkS2K mode hash_algo
               (if (mode =? 1) || (mode =? 4) then firstn 8 tail else zero8)
               (if mode =? 4 then be_value (firstn 4 (skipn 8 tail)) else 0))
            (Z.of_nat (length tail) - minlen)
            (skipn (Z.to_nat minlen) tail), 0)
         (plain rest (pos + Z.of_nat (length tail))).
Proof.
  intros Hmin Hlen.
  destruct (symkeyenc_minlen_cases _ _ Hmin) as [[-> ->] | [[-> ->] | [-> ->]]];
    unfold symkeyenc_fill; cbn [Z.eqb orb Pos.eqb].
  - rewrite !bind_ret_l. cbv beta iota.
    rewrite Z.sub_0_r, Nat2Z.id.
    mrun (read_upto_plain tail rest pos (Z.of_nat (length tail)) ltac:(lia)).
    unfold ret. apply Done_pair_plain; [reflexivity | lia | lia].
  - destruct (split_at 8 tail ltac:(lia)) as (Esplit & Ha & Hb).
    set (a := firstn 8 tail) in *. set (b := skipn 8 tail) in *.
    assert (Z.of_nat (length tail) = 8 + Z.of_nat (length b)) as El by lia.
    rewrite Esplit at 2. rewrite <- app_assoc.
    rewrite <- Ha at 1.
    mrun (read_upto_plain a (b ++ rest) pos (Z.of_nat (length tail)) ltac:(lia)).
    rewrite fill8_full by assumption. rewrite Ha.
    replace (Z.to_nat (Z.of_nat (length tail) - 8)) with (length b) by lia.
    replace (Z.of_nat (length tail) - Z.of_nat 8) with (Z.of_nat (length b)) by lia.
    mrun (read_upto_plain b rest (pos + Z.of_nat 8) (Z.of_nat (length b))
            ltac:(lia)).
    unfold ret. apply Done_pair_plain; [reflexivity | lia | lia].
  - destruct (split_at 8 tail ltac:(lia)) as (Esplit & Ha & Hb).
    set (a := firstn 8 tail) in *. set (b := skipn 8 tail) in *.
    destruct (split_at 4 b ltac:(lia)) as (Esplit2 & Hc & Hd).
    assert (Ed : skipn 4 b = skipn 12 tail)
      by (unfold b; rewrite skipn_skipn; reflexivity).
    set (c := firstn 4 b) in *. set (d := skipn 4 b) in *.
    assert (Z.of_nat (length tail) = 12 + Z.of_nat (length d)) as El by lia.
    rewrite Esplit at 2. rewrite <- app_assoc.
    rewrite <- Ha at 1.
    mrun (read_upto_plain a (b ++ rest) pos (Z.of_nat (length tail)) ltac:(lia)).
    rewrite fill8_full by assumption. rewrite Ha.
    rewrite Esplit2, <- app_assoc.
    destruct c as [| c3 [| c2 [| c1 [| c0 [| ? ?]]]]]; try discriminate Hc.
    cbn [app].
    mrun (read_32_plain c3 c2 c1 c0 (d ++ rest) (pos + Z.of_nat 8)).
    rewrite dec_small by lia.
    replace (Z.to_nat (Z.of_nat (length tail) - 12)) with (length d) by lia.
    replace (Z.of_nat (length tail) - Z.of_nat 8 - 4)
      with (Z.of_nat (length d)) by lia.
    mrun (read_upto_plain d rest (pos + Z.of_nat 8 + 4) (Z.of_nat (length d))
            ltac:(lia)).
    unfold ret. change (Z.to_nat 12) with 12%nat. rewrite <- Ed.
    apply Done_pair_plain; [reflexivity | lia | lia].
Qed.

Lemma symkeyenc_short_body (pkttype : Z) (body rest : list byte) (pos : Z)
  (packet : PACKET) :
  (length body < 4)%nat ->
  parse_symkeyenc pkttype (Z.of_nat (length body)) packet
    (plain (body ++ rest) pos)
  = Done (0, packet) (plain rest (pos + Z.of_nat (length body))).
Proof.
  intros H. unfold parse_symkeyenc.
  replace (Z.of_nat (length body) <? 4) with true
    by (symmetry; apply Z.ltb_lt; lia).
  apply leave_plain.
Qed.

(** C6, as amended.  On every symkey-enc body that is wholly in the
    stream, [parse_symkeyenc] returns 0 with the body consumed, and builds a
    record exactly when the packet length is within 4..201 (the check
    against 200 comes after the version byte has been counted off), the
    version byte is 4, the S2K mode is 0, 1 or 4 and at least 0, 8 or 12
    bytes follow the four fixed bytes; the session key is then all that
    follows the S2K fields. *)
Theorem symkeyenc_accepts_up_to_201 : symkeyenc_claim 201.
Proof.
  intros pkttype body rest pos packet Hlen.
  destruct body as [| v [| c [| m [| h tail]]]];
    try (rewrite symkeyenc_short_body by (cbn; lia); reflexivity).
  cbn [symkeyenc_expected].
  set (body := v :: c :: m :: h :: tail) in *.
  set (L := Z.of_nat (length tail)).
  assert (HL : Z.of_nat (length body) = L + 4) by (subst body L; cbn [length]; lia).
  assert (HL0 : 0 <= L) by (subst L; lia).
  rewrite HL in *. subst body. cbn [app].
  unfold parse_symkeyenc.
  replace (L + 4 <? 4) with false by (symmetry; apply Z.ltb_ge; lia).
  plain_step. rewrite (dec_small (L + 4) 1) by lia.
  destruct (Z.eqb_spec (b2z v) 4) as [Ev | Ev]; cbn [negb].
  2: { rewrite andb_false_r.
       rewrite (leave_plain_gen 0 packet (c :: m :: h :: tail) rest
                  (c :: m :: h :: tail ++ rest) (pos + 1) (L + 4 - 1) eq_refl)
         by (subst L; cbn [length]; lia).
       apply Done_pair_plain; [reflexivity | reflexivity | lia]. }
  rewrite andb_true_r.
  destruct (Z.ltb_spec 200 (L + 4 - 1)) as [Hbig | Hfit].
  { replace (L + 4 <=? 201) with false by (symmetry; apply Z.leb_gt; lia).
    rewrite (leave_plain_gen 0 packet (c :: m :: h :: tail) rest
               (c :: m :: h :: tail ++ rest) (pos + 1) (L + 4 - 1) eq_refl)
      by (subst L; cbn [length]; lia).
    apply Done_pair_plain; [reflexivity | reflexivity | lia]. }
  replace (L + 4 <=? 201) with true by (symmetry; apply Z.leb_le; lia).
  do 3 plain_step.
  rewrite (dec_small (L + 4 - 1) 1), (dec_small (L + 4 - 1 - 1) 1),
    (dec_small (L + 4 - 1 - 1 - 1) 1) by lia.
  replace (L + 4 - 1 - 1 - 1 - 1) with L by lia.
  destruct (symkeyenc_minlen (b2z m)) as [minlen |] eqn:Emin.
  2: { subst L. rewrite leave_plain.
       apply Done_pair_plain; [reflexivity | reflexivity | lia]. }
  destruct (Z.ltb_spec L minlen) as [Hshort | Hok].
  { replace (minlen <=? L) with false by (symmetry; apply Z.leb_gt; lia).
    subst L. rewrite leave_plain.
    apply Done_pair_plain; [reflexivity | reflexivity | lia]. }
  replace (minlen <=? L) with true by (symmetry; apply Z.leb_le; lia).
  subst L.
  mrun (symkeyenc_fill_plain (b2z v) (b2z c) (b2z m) (b2z h) minlen tail rest
          (pos + 1 + 1 + 1 + 1) Emin ltac:(lia)).
  cbn [Z.eqb negb].
  change 0 with (Z.of_nat (@length byte [])) at 1.
  rewrite (leave_plain 0 _ [] rest). rewrite Ev.
  apply Done_pair_plain; [reflexivity | reflexivity | cbn [length]; lia].
Qed.

Lemma symkeyenc_accepts_up_to_201_witness :
  parse_symkeyenc PKT_SYMKEY_ENC 5 init_packet
    (plain ([x04; x07; x00; x02; xee] ++ hello_legacy) 0)
  = Done (0, symkeyenc_expected 201 [x04; x07; x00; x02; xee] init_packet)
         (plain hello_legacy 5).
Proof.
  apply (symkeyenc_accepts_up_to_201 PKT_SYMKEY_ENC [x04; x07; x00; x02; xee]
           hello_legacy 0 init_packet).
  vm_compute. reflexivity.
Defined.

(** The claim with the limit 200 fails on a body of 201 bytes: the record
    is built. *)
Lemma symkeyenc_limit_200_fails : ~ symkeyenc_claim 200.
Proof.
  intros H.
  specialize (H PKT_SYMKEY_ENC symkeyenc_body_201 [] 0 init_packet
                ltac:(vm_compute; reflexivity)).
  vm_compute in H. discriminate H.
Qed.

(** ** C7: the legacy header *)

(** C7.  For a legacy header byte (bit 0x80 set, bit 0x40 clear) the packet
    type is (ctb >> 2) & 0xF.  When (ctb & 3) == 3 the length field is
    empty, pktlen is 0 and the source goes to block mode unless the type is
    compressed; otherwise the field has 1 << (ctb & 3) bytes (1, 2 or 4)
    and pktlen is their big-endian value. *)
Theorem legacy_header_decoding
  (ctb : byte) (rest : list byte) (pos : Z) :
  Z.land (b2z ctb) 0x80 <> 0 ->
  Z.land (b2z ctb) 0x40 = 0 ->
  let pkttype := Z.land (Z.shiftr (b2z ctb) 2) 0xf in
  (Z.land (b2z ctb) 3 = 3 ->
   read_header (plain (ctb :: rest) pos)
   = Done (HdrOk pkttype 0 [ctb] false)
          (mkIOBUF rest (pos + 1)
             (if pkttype =? PKT_COMPRESSED then Plain else Block)))
  /\
  (Z.land (b2z ctb) 3 <> 3 ->
   In (Z.shiftl 1 (Z.land (b2z ctb) 3)) [1; 2; 4]
   /\ forall lenfield tail : list byte,
       rest = lenfield ++ tail ->
       Z.of_nat (length lenfield) = Z.shiftl 1 (Z.land (b2z ctb) 3) ->
       read_header (plain (ctb :: rest) pos)
       = Done (HdrOk pkttype (be_value lenfield) (ctb :: lenfield) false)
              (plain tail (pos + 1 + Z.of_nat (length lenfield)))).
Proof.
  intros H80 H40 pkttype. split.
  - intros H3. apply legacy_header_indeterminate; assumption.
  - intros H3. split.
    + pose proof (b2z_range ctb) as Hc.
      destruct (land3_cases (b2z ctb) ltac:(lia)) as [E | [E | [E | E]]];
        try contradiction; rewrite E; cbn; auto.
    + intros lenfield tail -> Hlen.
      apply legacy_header_definite; assumption.
Qed.

Lemma legacy_header_decoding_witness :
  read_header (plain hello_legacy 0)
  = Done (HdrOk 13 5 [xb4; x05] false) (plain [x48; x65; x6c; x6c; x6f] 2)
  /\ read_header (plain [xa7; x01; x02] 0)
     = Done (HdrOk 9 0 [xa7] false) (mkIOBUF [x01; x02] 1 Block).
Proof.
  split.
  - destruct (legacy_header_decoding xb4 [x05; x48; x65; x6c; x6c; x6f] 0
                ltac:(vm_compute; discriminate) ltac:(reflexivity)) as [_ H].
    destruct (H ltac:(vm_compute; discriminate)) as [_ H2].
    exact (H2 [x05] [x48; x65; x6c; x6c; x6f] eq_refl eq_refl).
  - destruct (legacy_header_decoding xa7 [x01; x02] 0
                ltac:(vm_compute; discriminate) ltac:(reflexivity)) as [H _].
    exact (H eq_refl).
Defined.

(** ** C8: end of stream and a header byte without the high bit *)

(** C8.  When [iobuf_get] answers -1 for the first header byte, [parse]
    returns -1, a value that is none of the error codes; when the first
    byte has bit 0x80 clear, [parse] returns the positive
    [G10ERR_INVALID_PACKET]; in both cases the packet is handed back
    untouched, its body pointer still null, and [*skip] is 0. *)
Theorem parse_end_of_stream_and_bad_ctb
  (list_mode : bool) (packet : PACKET) (reqtype : Z) (want_retpos : bool)
  (out : option SINK) (do_skip : bool) (s s' : IOBUF) (c : Z) :
  pkt packet = Generic_NULL ->
  iobuf_get_raw s = (c, s') ->
  let retpos := if want_retpos then Some (io_pos s) else None in
  (c = -1 ->
   parse list_mode packet reqtype want_retpos out do_skip s
   = Done (mkParsed (-1) false packet retpos out) s'
   /\ ~ In (-1) error_codes)
  /\
  (c <> -1 -> Z.land c 0x80 = 0 ->
   parse list_mode packet reqtype want_retpos out do_skip s
   = Done (mkParsed G10ERR_INVALID_PACKET false packet retpos out) s'
   /\ 0 < G10ERR_INVALID_PACKET).
Proof.
  intros Hnull Hget retpos.
  split.
  - intros ->. split.
    + unfold parse. rewrite Hnull.
      destruct want_retpos; cbv [bind iobuf_tell ret];
        rewrite (read_header_eof _ _ Hget); reflexivity.
    + unfold error_codes, G10ERR_UNKNOWN_PACKET, G10ERR_INVALID_PACKET,
        G10ERR_READ_FILE, G10ERR_WRITE_FILE. simpl. lia.
  - intros Hc Hbit. split.
    + unfold parse. rewrite Hnull.
      destruct want_retpos; cbv [bind iobuf_tell ret];
        rewrite (read_header_bad_ctb _ _ _ Hget Hc Hbit); reflexivity.
    + reflexivity.
Qed.

Lemma parse_end_of_stream_and_bad_ctb_witness :
  parse false init_packet 0 false None false (iobuf_open [])
  = Done (mkParsed (-1) false init_packet None None) (iobuf_open [])
  /\ parse false init_packet 0 false None false (iobuf_open [x34; x05])
     = Done (mkParsed G10ERR_INVALID_PACKET false init_packet None None)
            (plain [x05] 1).
Proof.
  split.
  - apply (parse_end_of_stream_and_bad_ctb false init_packet 0 false None false
             (iobuf_open []) (iobuf_open []) (-1));
      [reflexivity | reflexivity | reflexivity].
  - apply (parse_end_of_stream_and_bad_ctb false init_packet 0 false None false
             (iobuf_open [x34; x05]) (plain [x05] 1) 52);
      [reflexivity | reflexivity | discriminate | reflexivity].
Defined.

(** ** C9: copying a stream and parsing the copy *)

Lemma copy_definite_plain (fuel : nat) :
  forall (body rest out : list byte) (pos : Z),
    (length body < fuel)%nat ->
    Z.of_nat (length body) < 2 ^ 32 ->
    copy_definite fuel (Z.of_nat (length body)) (mkSINK out None)
      (plain (body ++ rest) pos)
    = Done (0, mkSINK (out ++ body) None)
           (plain rest (pos + Z.of_nat (length body))).
Proof.
  induction fuel as [| f IH]; intros body rest out pos Hf Hr; [inversion Hf |].
  cbn [copy_definite].
  destruct body as [| b0 body0].
  - cbn. unfold ret. rewrite app_nil_r, Z.add_0_r. reflexivity.
  - set (body := b0 :: body0) in *.
    assert (Hlen : (1 <= length body)%nat) by (subst body; cbn; lia).
    replace (Z.of_nat (length body) =? 0) with false
      by (symmetry; apply Z.eqb_neq; lia).
    set (n := Nat.min 100 (length body)).
    destruct (split_at n body ltac:(lia)) as (Esplit & Ha & Hb).
    set (a := firstn n body) in *. set (b := skipn n body) in *.
    assert (Hn : (if 100 <? Z.of_nat (length body) then 100
                  else Z.of_nat (length body)) = Z.of_nat (length a)).
    { rewrite Ha. subst n. destruct (Z.ltb_spec 100 (Z.of_nat (length body))); lia. }
    rewrite Hn.
    assert (Hane : a <> []) by (intros E; rewrite E in Ha; cbn in Ha; lia).
    assert (E2 : body ++ rest = a ++ b ++ rest)
      by (rewrite app_assoc, <- Esplit; reflexivity).
    rewrite E2. unfold plain at 1.
    mrun (iobuf_read_exact a (b ++ rest) pos Plain (or_introl eq_refl) Hane).
    replace (Z.of_nat (length a) =? -1) with false
      by (symmetry; apply Z.eqb_neq; lia).
    rewrite iobuf_write_unbounded. cbn [Z.eqb negb].
    assert (Hd : dec (Z.of_nat (length body)) (Z.of_nat (length a))
                 = Z.of_nat (length b))
      by (rewrite dec_small; lia).
    rewrite Hd.
    fold (plain (b ++ rest) (pos + Z.of_nat (length a))).
    rewrite IH by lia.
    rewrite <- app_assoc, <- Esplit.
    f_equal. unfold plain. f_equal. lia.
Qed.

Lemma copy_to_eof_all (fuel : nat) :
  forall (body out : list byte) (pos : Z) (m : iomode),
    m = Plain \/ m = Block ->
    (length body < fuel)%nat ->
    copy_to_eof fuel (mkSINK out None) (mkIOBUF body pos m)
    = Done (0, mkSINK (out ++ body) None)
           (mkIOBUF [] (pos + Z.of_nat (length body)) Plain).
Proof.
  induction fuel as [| f IH]; intros body out pos m Hm Hf; [inversion Hf |].
  cbn [copy_to_eof].
  destruct (Nat.leb_spec 100 (length body)) as [Hbig | Hsmall].
  - destruct (split_at 100 body Hbig) as (Esplit & Ha & Hb).
    set (a := firstn 100 body) in *. set (b := skipn 100 body) in *.
    assert (Hane : a <> []) by (intros E; rewrite E in Ha; cbn in Ha; lia).
    replace (mkIOBUF body pos m) with (mkIOBUF (a ++ b) pos m)
      by (rewrite <- Esplit; reflexivity).
    replace 100 with (Z.of_nat (length a)) at 1 by (rewrite Ha; reflexivity).
    mrun (iobuf_read_exact a b pos m Hm Hane).
    replace (Z.of_nat (length a) =? -1) with false
      by (symmetry; apply Z.eqb_neq; lia).
    rewrite iobuf_write_unbounded. cbn [Z.eqb negb].
    rewrite IH by (assumption || lia).
    rewrite <- app_assoc, <- Esplit.
    f_equal. f_equal. lia.
  - unfold bind at 1, iobuf_read.
    rewrite (iobuf_read_loop_short body (Z.to_nat 100) pos m Hm)
      by (change (Z.to_nat 100) with 100%nat; lia).
    destruct body as [| b0 body0].
    + cbn. unfold ret. rewrite app_nil_r, Z.add_0_r. reflexivity.
    + set (body := b0 :: body0) in *.
      assert (1 <= length body)%nat by (subst body; cbn; lia).
      cbv beta iota.
      replace (Z.of_nat (length body) =? -1) with false
        by (symmetry; apply Z.eqb_neq; lia).
      rewrite iobuf_write_unbounded. cbn [Z.eqb negb].
      rewrite (IH [] (out ++ body) _ Plain) by (auto || (cbn; lia)).
      rewrite app_nil_r. cbn [length]. rewrite Z.add_0_r. reflexivity.
Qed.

Lemma known_type_nonzero (t : Z) : In t known_types -> (t =? 0) = false.
Proof.
  unfold known_types. cbn [In]. intros H.
  repeat (destruct H as [<- | H]; [reflexivity |]). contradiction.
Qed.

Lemma parse_at_eof (list_mode : bool) (out : option SINK) (pos : Z) :
  parse list_mode init_packet 0 false out false (plain [] pos)
  = Done (mkParsed (-1) false init_packet None out) (plain [] pos).
Proof. reflexivity. Qed.

Lemma parse_copy_mode (list_mode : bool) (s s1 s2 : IOBUF)
  (pkttype pktlen : Z) (hdr out : list byte) (pgp3 : bool) (rc : Z) (o2 : SINK) :
  read_header s = Done (HdrOk pkttype pktlen hdr pgp3) s1 ->
  (pkttype =? 0) = false ->
  copy_packet (mkSINK (out ++ hdr) None) pkttype pktlen s1 = Done (rc, o2) s2 ->
  parse list_mode init_packet 0 false (Some (mkSINK out None)) false s
  = Done (mkParsed rc false init_packet None (Some o2)) s2.
Proof.
  intros Hhdr Ht Hcopy. unfold parse. cbn [pkt init_packet].
  rewrite bind_ret_l. mrun Hhdr. rewrite Ht, iobuf_write_unbounded.
  cbn [Z.eqb]. mrun Hcopy. reflexivity.
Qed.

Lemma copy_loop_well_framed (list_mode : bool) (pos : Z) (bs : list byte) :
  well_framed pos bs ->
  forall (fuel : nat) (out : list byte),
    (length bs < fuel)%nat ->
    exists s' : IOBUF,
      copy_loop list_mode fuel (mkSINK out None) (plain bs pos)
      = Done (-1, mkSINK (out ++ bs) None) s'.
Proof.
  induction 1 as [pos
                 | pos hdr body rest pkttype pktlen pgp3 Hhdr Hknown Hlen Hdef Hrest IH
                 | pos hdr body pkttype pktlen pgp3 m Hhdr Hknown Hmode];
    intros fuel out Hfuel.
  - destruct fuel as [| f]; [inversion Hfuel |].
    exists (plain [] pos). cbn [copy_loop].
    mrun (parse_at_eof list_mode (Some (mkSINK out None)) pos).
    rewrite app_nil_r. reflexivity.
  - destruct fuel as [| f]; [inversion Hfuel |].
    destruct (read_header_plain_ok _ _ _ _ _ _ _ Hhdr) as [Hrange Hne].
    assert (Hh : (1 <= length hdr)%nat)
      by (destruct hdr; [contradiction | cbn; lia]).
    rewrite !length_app in Hfuel.
    destruct (IH f (out ++ hdr ++ body) ltac:(lia)) as [s' Hs'].
    exists s'. cbn [copy_loop].
    assert (Hcopy : copy_packet (mkSINK (out ++ hdr) None) pkttype pktlen
                      (plain (body ++ rest) (pos + Z.of_nat (length hdr)))
                    = Done (0, mkSINK ((out ++ hdr) ++ body) None)
                           (plain rest (pos + Z.of_nat (length hdr)
                                        + Z.of_nat (length body)))).
    { unfold copy_packet, bind, iobuf_in_block_mode. cbn [io_mode plain io_data].
      assert (Hc : (pktlen =? 0) && (pkttype =? PKT_COMPRESSED) = false).
      { destruct (Z.eqb_spec pktlen 0) as [E | E]; [| reflexivity].
        apply Z.eqb_neq. auto. }
      rewrite Hc, <- Hlen.
      apply copy_definite_plain;
        [unfold plain; cbn [io_data]; rewrite length_app; lia | lia]. }
    mrun (parse_copy_mode list_mode _ _ _ _ _ _ out _ _ _ Hhdr
            (known_type_nonzero _ Hknown) Hcopy).
    cbn [p_rc p_out Z.eqb].
    rewrite Hlen, <- app_assoc, Hs', !app_assoc. reflexivity.
  - destruct fuel as [| f]; [inversion Hfuel |].
    destruct (read_header_plain_ok _ _ _ _ _ _ _ Hhdr) as [Hrange Hne].
    assert (Hh : (1 <= length hdr)%nat)
      by (destruct hdr; [contradiction | cbn; lia]).
    rewrite length_app in Hfuel.
    destruct f as [| f]; [lia |].
    exists (plain [] (pos + Z.of_nat (length hdr) + Z.of_nat (length body))).
    cbn [copy_loop].
    assert (Hcopy : copy_packet (mkSINK (out ++ hdr) None) pkttype pktlen
                      (mkIOBUF body (pos + Z.of_nat (length hdr)) m)
                    = Done (0, mkSINK ((out ++ hdr) ++ body) None)
                           (plain [] (pos + Z.of_nat (length hdr)
                                      + Z.of_nat (length body)))).
    { unfold copy_packet, bind, iobuf_in_block_mode. cbn [io_mode io_data].
      destruct Hmode as [-> | (-> & -> & ->)].
      - apply copy_to_eof_all; [auto | cbn [io_data]; lia].
      - cbn [Z.eqb andb Pos.eqb PKT_COMPRESSED].
        apply copy_to_eof_all; [auto | cbn [io_data]; lia]. }
    mrun (parse_copy_mode list_mode _ _ _ _ _ _ out _ _ _ Hhdr
            (known_type_nonzero _ Hknown) Hcopy).
    cbn [p_rc p_out Z.eqb].
    mrun (parse_at_eof list_mode (Some (mkSINK ((out ++ hdr) ++ body) None))
            (pos + Z.of_nat (length hdr) + Z.of_nat (length body))).
    rewrite <- app_assoc. reflexivity.
Qed.

(** On every stream that the header decoder frames as packets of definite
    length or running to the end of the stream, with known nonzero type
    tags, [copy_all_packets] runs to the end of the stream, the sink
    receives the stream byte for byte, and parsing the copy yields what
    parsing the input yields. *)
Lemma copy_all_packets_identity (list_mode : bool) (bs : list byte) :
  well_framed 0 bs ->
  exists (inp' : IOBUF) (out : SINK),
    copy_all_packets list_mode sink_empty (iobuf_open bs) = Done (-1, out) inp'
    /\ sink_bytes out = bs
    /\ parse_stream list_mode (iobuf_open (sink_bytes out))
       = parse_stream list_mode (iobuf_open bs).
Proof.
  intros Hwf.
  destruct (copy_loop_well_framed list_mode 0 bs Hwf (S (length bs)) []
              (Nat.lt_succ_diag_r _)) as [s' Hs'].
  exists s', (mkSINK bs None).
  split; [exact Hs' | split; reflexivity].
Qed.

(** Packets with a new-format length of one or two bytes, with a legacy
    length of 1, 2 or 4 bytes, or with the legacy indeterminate length are
    framed by the decoder as they are written. *)
Lemma well_framed_new_one_byte (ctb c : byte) (body rest : list byte) (pos : Z) :
  Z.land (b2z ctb) 0x80 <> 0 ->
  Z.land (b2z ctb) 0x40 <> 0 ->
  b2z c < 192 ->
  In (Z.land (b2z ctb) 0x3f) known_types ->
  Z.of_nat (length body) = b2z c ->
  (b2z c = 0 -> Z.land (b2z ctb) 0x3f <> PKT_COMPRESSED) ->
  well_framed (pos + 2 + b2z c) rest ->
  well_framed pos (ctb :: c :: body ++ rest).
Proof.
  intros H80 H40 Hc Hknown Hlen Hz Hrest.
  apply (wf_definite pos [ctb; c] body rest (Z.land (b2z ctb) 0x3f) (b2z c) true);
    [| assumption | assumption | assumption | exact Hrest].
  cbn [app length]. rewrite new_header_one_byte by assumption.
  f_equal. unfold plain. f_equal. lia.
Qed.

Lemma well_framed_new_two_bytes (ctb c d : byte) (body rest : list byte)
  (pos : Z) :
  Z.land (b2z ctb) 0x80 <> 0 ->
  Z.land (b2z ctb) 0x40 <> 0 ->
  192 <= b2z c < 224 ->
  In (Z.land (b2z ctb) 0x3f) known_types ->
  Z.of_nat (length body) = (b2z c - 192) * 256 + b2z d + 192 ->
  well_framed (pos + 3 + ((b2z c - 192) * 256 + b2z d + 192)) rest ->
  well_framed pos (ctb :: c :: d :: body ++ rest).
Proof.
  intros H80 H40 Hc Hknown Hlen Hrest.
  pose proof (b2z_range d).
  apply (wf_definite pos [ctb; c; d] body rest (Z.land (b2z ctb) 0x3f)
           ((b2z c - 192) * 256 + b2z d + 192) true);
    [| assumption | assumption | lia | exact Hrest].
  cbn [app length]. rewrite new_header_two_bytes by assumption.
  f_equal. unfold plain. f_equal. lia.
Qed.

Lemma well_framed_legacy_definite (ctb : byte) (lenfield body rest : list byte)
  (pos : Z) :
  Z.land (b2z ctb) 0x80 <> 0 ->
  Z.land (b2z ctb) 0x40 = 0 ->
  Z.land (b2z ctb) 3 <> 3 ->
  Z.of_nat (length lenfield) = Z.shiftl 1 (Z.land (b2z ctb) 3) ->
  In (Z.land (Z.shiftr (b2z ctb) 2) 0xf) known_types ->
  Z.of_nat (length body) = be_value lenfield ->
  (be_value lenfield = 0 ->
   Z.land (Z.shiftr (b2z ctb) 2) 0xf <> PKT_COMPRESSED) ->
  well_framed (pos + Z.of_nat (length (ctb :: lenfield)) + be_value lenfield)
    rest ->
  well_framed pos (ctb :: lenfield ++ body ++ rest).
Proof.
  intros H80 H40 H3 Hl Hknown Hlen Hz Hrest.
  apply (wf_definite pos (ctb :: lenfield) body rest
           (Z.land (Z.shiftr (b2z ctb) 2) 0xf) (be_value lenfield) false);
    [| assumption | assumption | assumption | exact Hrest].
  cbn [app]. rewrite legacy_header_definite by assumption.
  f_equal. unfold plain. f_equal. cbn [length]. lia.
Qed.

Lemma well_framed_legacy_indeterminate (ctb : byte) (body : list byte) (pos : Z) :
  Z.land (b2z ctb) 0x80 <> 0 ->
  Z.land (b2z ctb) 0x40 = 0 ->
  Z.land (b2z ctb) 3 = 3 ->
  In (Z.land (Z.shiftr (b2z ctb) 2) 0xf) known_types ->
  well_framed pos (ctb :: body).
Proof.
  intros H80 H40 H3 Hknown.
  apply (wf_to_eof pos [ctb] body (Z.land (Z.shiftr (b2z ctb) 2) 0xf) 0 false
           (if Z.land (Z.shiftr (b2z ctb) 2) 0xf =? PKT_COMPRESSED
            then Plain else Block));
    [| assumption |].
  - cbn [app length]. rewrite legacy_header_indeterminate by assumption.
    reflexivity.
  - destruct (Z.eqb_spec (Z.land (Z.shiftr (b2z ctb) 2) 0xf) PKT_COMPRESSED);
      [right; auto | left; reflexivity].
Qed.

Lemma three_packets_well_framed : well_framed 0 three_packets.
Proof.
  apply (wf_definite 0 [xb4; x05] [x48; x65; x6c; x6c; x6f]
           (world_new ++ compressed_to_eof) PKT_USER_ID 5 false);
    [reflexivity | cbn; tauto | reflexivity | discriminate |].
  apply (wf_definite 7 [xcd; x05] [x77; x6f; x72; x6c; x64]
           compressed_to_eof PKT_USER_ID 5 true);
    [reflexivity | cbn; tauto | reflexivity | discriminate |].
  apply (wf_to_eof 14 [xa3] [x01; x78; x9c; x03; x00] PKT_COMPRESSED 0 false Plain);
    [reflexivity | cbn; tauto | right; auto].
Qed.

Lemma three_packets_copied :
  copy_all_packets false sink_empty (iobuf_open three_packets)
  = Done (-1, mkSINK three_packets None) (plain [] 20).
Proof. vm_compute. reflexivity. Qed.

Lemma onepass_one_byte_length_well_framed :
  well_framed 0 onepass_one_byte_length.
Proof.
  rewrite <- (app_nil_r onepass_one_byte_length).
  unfold onepass_one_byte_length. rewrite <- app_assoc.
  apply (wf_definite 0 [xc4; x0d] onepass_body [] PKT_ONEPASS_SIG 13 true);
    [reflexivity | cbn; tauto | reflexivity | discriminate | apply wf_end].
Qed.

(** The user id packet with the length FF 00 B4 B4 05, whatever follows
    the first 180 bytes of its body.  The decoder takes the byte 255 for
    a partial body whose first chunk is empty.  In copy mode the two
    bytes CD FF are written, the byte 00 is taken for the closing chunk
    length, and the bytes B4 B4 that follow are read as the header of a
    legacy user id packet of 180 bytes, which is copied; the zero byte
    after it ends the copy with [G10ERR_INVALID_PACKET].  Read directly,
    the packet gives a user id without bytes, and the byte 00, taken for
    the closing chunk length by the next call, ends the stream. *)
Lemma long_user_id_copied (tail : list byte) :
  copy_all_packets false sink_empty
    (iobuf_open ([xcd; xff; x00; xb4; xb4; x05] ++ long_user_id_start ++ tail))
  = Done (G10ERR_INVALID_PACKET, mkSINK long_user_id_copy None) (plain tail 186).
Proof. vm_compute. reflexivity. Qed.

Lemma long_user_id_parsed (tail : list byte) :
  parse_stream false
    (iobuf_open ([xcd; xff; x00; xb4; xb4; x05] ++ long_user_id_start ++ tail))
  = Done ([mkPACKET PKT_USER_ID (User_id (mkUserId 0 []))], -1)
         (plain ([xb4; xb4; x05] ++ long_user_id_start ++ tail) 3).
Proof. vm_compute. reflexivity. Qed.

(** In the copy the byte B4 is the closing chunk length of the first
    packet, and the bytes B4 05 after it are the header of a user id
    "Hello". *)
Lemma long_user_id_copy_parsed :
  parse_stream false (iobuf_open long_user_id_copy)
  = Done ([mkPACKET PKT_USER_ID (User_id (mkUserId 0 []));
           mkPACKET PKT_USER_ID
             (User_id (mkUserId 5 [x48; x65; x6c; x6c; x6f]))],
          G10ERR_INVALID_PACKET)
         (mkIOBUF (repeat x00 173) 11 (Partial 172 true)).
Proof. vm_compute. reflexivity. Qed.

Lemma long_user_id_body_length :
  Z.of_nat (length long_user_id_body) = 0x00B4B405.
Proof.
  unfold long_user_id_body, long_user_id_rest, long_user_id_start.
  rewrite !length_app, !repeat_length, !Nat2Z.inj_add.
  rewrite Z2Nat.id by lia. cbn [length]. lia.
Qed.

(** C9.  A packet whose length is written in the five-byte form is not
    copied, and the copy of a stream can parse to other packets than the
    stream.  For the user id packet CD FF 00 B4 B4 05 with its body of
    0x00B4B405 bytes [copy_all_packets] writes 184 bytes and stops with
    [G10ERR_INVALID_PACKET]; parsing the packet yields one user id
    without bytes, parsing the copy yields that user id and a user id
    "Hello".  For the one-pass signature packet C4 FF 00 00 00 0D of 13
    body bytes the copy is cut to the two bytes C4 FF, and here both
    sides parse to the same packets.  The same packet with a one-byte
    length is copied exactly. *)
Theorem copy_of_five_byte_length_packet :
  Z.of_nat (length long_user_id_body) = 0x00B4B405
  /\ copy_all_packets false sink_empty (iobuf_open long_user_id)
     = Done (G10ERR_INVALID_PACKET, mkSINK long_user_id_copy None)
            (plain long_user_id_rest 186)
  /\ packet_records (parse_stream false (iobuf_open long_user_id))
     = [mkPACKET PKT_USER_ID (User_id (mkUserId 0 []))]
  /\ packet_records (parse_stream false (iobuf_open long_user_id_copy))
     = [mkPACKET PKT_USER_ID (User_id (mkUserId 0 []));
        mkPACKET PKT_USER_ID (User_id (mkUserId 5 [x48; x65; x6c; x6c; x6f]))]
  /\ copy_all_packets false sink_empty (iobuf_open onepass_five_byte_length)
     = Done (G10ERR_INVALID_PACKET, mkSINK [xc4; xff] None)
            (plain ([x00; x0d] ++ onepass_body) 4)
  /\ packet_records (parse_stream false (iobuf_open [xc4; xff]))
     = packet_records (parse_stream false (iobuf_open onepass_five_byte_length))
  /\ copy_all_packets false sink_empty (iobuf_open onepass_one_byte_length)
     = Done (-1, mkSINK onepass_one_byte_length None) (plain [] 15).
Proof.
  split; [exact long_user_id_body_length |].
  split; [unfold long_user_id, long_user_id_body;
          apply (long_user_id_copied long_user_id_rest) |].
  split; [unfold long_user_id, long_user_id_body;
          rewrite (long_user_id_parsed long_user_id_rest); reflexivity |].
  split; [rewrite long_user_id_copy_parsed; reflexivity |].
  split; [vm_compute; reflexivity |].
  split; vm_compute; reflexivity.
Qed.

(** ** C10: the counter at the assertion of parse_symkeyenc *)

Lemma read_upto_counter (k : nat) :
  forall (p : Z) (s s' : IOBUF) (bs : list byte) (p' : Z),
    0 <= p < 2 ^ 32 ->
    read_upto k p s = Done (bs, p') s' ->
    p' = p - Z.min (Z.of_nat k) p.
Proof.
  induction k as [| k IH]; intros p s s' bs p' Hp H.
  - cbn in H. injection H as _ <- _. lia.
  - cbn [read_upto] in H.
    destruct (Z.eqb_spec p 0) as [-> | Hnz].
    + injection H as _ <- _. lia.
    + apply bind_inv in H. destruct H as (c & s1 & _ & H).
      apply bind_inv in H. destruct H as ([bs1 p1] & s2 & Hrec & H).
      injection H as _ <- _.
      rewrite dec_small in Hrec by lia.
      apply IH in Hrec; lia.
Qed.

Lemma symkeyenc_fill_counter
  (version cipher_algo s2kmode hash_algo minlen pktlen : Z)
  (s s' : IOBUF) (k : PKT_symkey_enc) (p : Z) :
  symkeyenc_minlen s2kmode = Some minlen ->
  minlen <= pktlen < 2 ^ 32 ->
  symkeyenc_fill version cipher_algo s2kmode hash_algo minlen pktlen s
  = Done (k, p) s' ->
  p = 0.
Proof.
  intros Hmin Hlen H.
  destruct (symkeyenc_minlen_cases _ _ Hmin) as [[-> ->] | [[-> ->] | [-> ->]]];
    unfold symkeyenc_fill in H; cbn [Z.eqb orb Pos.eqb] in H.
  - rewrite !bind_ret_l in H. cbv beta iota in H.
    apply bind_inv in H. destruct H as ([bs p1] & s1 & Hr & H).
    injection H as _ <- _.
    apply read_upto_counter in Hr; lia.
  - rewrite bind_assoc in H.
    apply bind_inv in H. destruct H as ([bs0 p0] & s0 & Hr0 & H).
    rewrite !bind_ret_l in H. cbv beta iota in H.
    apply bind_inv in H. destruct H as ([bs p1] & s1 & Hr & H).
    injection H as _ <- _.
    apply read_upto_counter in Hr0; [| lia].
    change (Z.of_nat 8) with 8 in Hr0.
    apply read_upto_counter in Hr; lia.
  - rewrite bind_assoc in H.
    apply bind_inv in H. destruct H as ([bs0 p0] & s0 & Hr0 & H).
    rewrite !bind_ret_l in H. cbv beta iota in H.
    rewrite bind_assoc in H.
    apply bind_inv in H. destruct H as (cnt & s1 & _ & H).
    rewrite !bind_ret_l in H. cbv beta iota in H.
    apply bind_inv in H. destruct H as ([bs p1] & s2 & Hr & H).
    injection H as _ <- _.
    apply read_upto_counter in Hr0; [| lia].
    change (Z.of_nat 8) with 8 in Hr0.
    rewrite dec_small in Hr by lia.
    apply read_upto_counter in Hr; lia.
Qed.

Lemma never_asserts_bind {A B : Type} (m : M A) (k : A -> M B) :
  never_asserts m -> (forall a, never_asserts (k a)) -> never_asserts (bind m k).
Proof.
  intros Hm Hk s. unfold bind. specialize (Hm s).
  destruct (m s) as [a s1 | f]; [apply Hk |].
  intros [= ->]. apply Hm. reflexivity.
Qed.

Lemma never_asserts_ret {A : Type} (a : A) : never_asserts (ret a).
Proof. intros s. discriminate. Qed.

Lemma never_asserts_get : never_asserts iobuf_get.
Proof. intros s. unfold iobuf_get. destruct (iobuf_get_raw s). discriminate. Qed.

Lemma never_asserts_get_noeof : never_asserts iobuf_get_noeof.
Proof.
  intros s. unfold iobuf_get_noeof. destruct (iobuf_get_raw s) as [c s1].
  destruct (c =? -1); discriminate.
Qed.

Lemma never_asserts_read_upto (k : nat) (p : Z) : never_asserts (read_upto k p).
Proof.
  revert p. induction k as [| k IH]; intros p; cbn [read_upto].
  - apply never_asserts_ret.
  - destruct (p =? 0); [apply never_asserts_ret |].
    apply never_asserts_bind; [apply never_asserts_get_noeof | intros c].
    apply never_asserts_bind; [apply IH | intros [bs q]; apply never_asserts_ret].
Qed.

Lemma never_asserts_read_32 : never_asserts read_32.
Proof.
  unfold read_32.
  repeat (apply never_asserts_bind; [apply never_asserts_get_noeof | intros ?]).
  apply never_asserts_ret.
Qed.

Lemma never_asserts_drain (fuel : nat) : never_asserts (drain fuel).
Proof.
  induction fuel as [| f IH]; cbn [drain].
  - intros s. discriminate.
  - apply never_asserts_bind; [apply never_asserts_get | intros c].
    destruct (c =? -1); [apply never_asserts_ret | apply IH].
Qed.

Lemma never_asserts_get_n (n : nat) : never_asserts (get_n n).
Proof.
  induction n as [| n IH]; cbn [get_n].
  - apply never_asserts_ret.
  - apply never_asserts_bind; [apply never_asserts_get | intros _; apply IH].
Qed.

Lemma never_asserts_skip_rest (pktlen : Z) : never_asserts (skip_rest pktlen).
Proof.
  unfold skip_rest. apply never_asserts_bind.
  - intros s. discriminate.
  - intros [|]; [intros s; apply never_asserts_drain | apply never_asserts_get_n].
Qed.

Lemma never_asserts_leave {A : Type} (rc pktlen : Z) (a : A) :
  never_asserts (leave rc pktlen a).
Proof.
  unfold leave. apply never_asserts_bind;
    [apply never_asserts_skip_rest | intros _; apply never_asserts_ret].
Qed.

Lemma never_asserts_symkeyenc_fill
  (version cipher_algo s2kmode hash_algo minlen pktlen : Z) :
  never_asserts
    (symkeyenc_fill version cipher_algo s2kmode hash_algo minlen pktlen).
Proof.
  unfold symkeyenc_fill.
  apply never_asserts_bind.
  { destruct ((s2kmode =? 1) || (s2kmode =? 4)); [| apply never_asserts_ret].
    apply never_asserts_bind; [apply never_asserts_read_upto |].
    intros [bs q]. apply never_asserts_ret. }
  intros [salt q]. apply never_asserts_bind.
  { destruct (s2kmode =? 4); [| apply never_asserts_ret].
    apply never_asserts_bind; [apply never_asserts_read_32 |].
    intros c. apply never_asserts_ret. }
  intros [count q']. apply never_asserts_bind; [apply never_asserts_read_upto |].
  intros [seskey q'']. apply never_asserts_ret.
Qed.

Lemma parse_symkeyenc_never_asserts (pkttype pktlen : Z) (packet : PACKET)
  (s : IOBUF) :
  0 <= pktlen < 2 ^ 32 ->
  parse_symkeyenc pkttype pktlen packet s <> Fault AssertFailed.
Proof.
  intros Hp. unfold parse_symkeyenc.
  destruct (Z.ltb_spec pktlen 4) as [Hs | Hs]; [apply never_asserts_leave |].
  revert s. apply never_asserts_bind; [apply never_asserts_get_noeof |].
  intros version. rewrite (dec_small pktlen 1) by lia.
  destruct (negb (version =? 4)); [apply never_asserts_leave |].
  destruct (Z.ltb_spec 200 (pktlen - 1)) as [Hb | Hb];
    [apply never_asserts_leave |].
  apply never_asserts_bind; [apply never_asserts_get_noeof | intros cipher_algo].
  apply never_asserts_bind; [apply never_asserts_get_noeof | intros s2kmode].
  apply never_asserts_bind; [apply never_asserts_get_noeof | intros hash_algo].
  rewrite (dec_small (pktlen - 1) 1), (dec_small (pktlen - 1 - 1) 1),
    (dec_small (pktlen - 1 - 1 - 1) 1) by lia.
  destruct (symkeyenc_minlen s2kmode) as [minlen |] eqn:Emin;
    [| apply never_asserts_leave].
  destruct (Z.ltb_spec (pktlen - 1 - 1 - 1 - 1) minlen) as [Hm | Hm];
    [apply never_asserts_leave |].
  intros s. unfold bind.
  destruct (symkeyenc_fill version cipher_algo s2kmode hash_algo minlen
              (pktlen - 1 - 1 - 1 - 1) s) as [[k p] s1 | f] eqn:Efill.
  - apply symkeyenc_fill_counter in Efill; [| assumption | lia].
    subst p. cbn [Z.eqb negb]. apply never_asserts_leave.
  - intros [= ->]. exact (never_asserts_symkeyenc_fill _ _ _ _ _ _ s Efill).
Qed.

(** C10.  Once the guards of [parse_symkeyenc] have passed (the S2K mode
    is 0, 1 or 4, the remaining length is at most 200 and at least the
    mode's minimum), the counter is 0 after the optional salt, the optional
    count and the session key are read, whatever the stream holds; when the
    bytes are in the stream the read completes with the counter at 0.
    Hence no call of [parse_symkeyenc] stops on its assertion. *)
Theorem symkeyenc_counter_zero_at_assert :
  (forall version cipher_algo s2kmode hash_algo minlen pktlen : Z,
      symkeyenc_minlen s2kmode = Some minlen ->
      minlen <= pktlen <= 200 ->
      (forall (s s' : IOBUF) (k : PKT_symkey_enc) (p : Z),
          symkeyenc_fill version cipher_algo s2kmode hash_algo minlen pktlen s
          = Done (k, p) s' -> p = 0)
      /\
      (forall (tail rest : list byte) (pos : Z),
          Z.of_nat (length tail) = pktlen ->
          exists k : PKT_symkey_enc,
            symkeyenc_fill version cipher_algo s2kmode hash_algo minlen pktlen
              (plain (tail ++ rest) pos)
            = Done (k, 0) (plain rest (pos + pktlen))))
  /\
  (forall (pkttype pktlen : Z) (packet : PACKET) (s : IOBUF),
      0 <= pktlen < 2 ^ 32 ->
      parse_symkeyenc pkttype pktlen packet s <> Fault AssertFailed).
Proof.
  split.
  - intros version cipher_algo s2kmode hash_algo minlen pktlen Hmin Hlen.
    split.
    + intros s s' k p H.
      apply (symkeyenc_fill_counter _ _ _ _ _ _ _ _ _ _ Hmin) in H; [exact H | lia].
    + intros tail rest pos <-. eexists.
      apply symkeyenc_fill_plain; [exact Hmin | lia].
  - intros pkttype pktlen packet s Hp.
    apply parse_symkeyenc_never_asserts. exact Hp.
Qed.

Lemma symkeyenc_counter_zero_at_assert_witness :
  (exists k : PKT_symkey_enc,
      symkeyenc_fill 4 7 1 2 8 9
        (plain ([x01; x02; x03; x04; x05; x06; x07; x08; xee] ++ hello_legacy) 4)
      = Done (k, 0) (plain hello_legacy (4 + 9)))
  /\ parse_symkeyenc PKT_SYMKEY_ENC 201 init_packet (iobuf_open symkeyenc_body_201)
     <> Fault AssertFailed.
Proof.
  split.
  - apply (proj1 symkeyenc_counter_zero_at_assert 4 7 1 2 8 9 eq_refl
             ltac:(lia)).
    reflexivity.
  - apply (proj2 symkeyenc_counter_zero_at_assert). lia.
Defined.
(** * Properties of common/mbox-util.c *)

(** ** Characters *)

Lemma byte_eqb_eq (a b : byte) : Byte.eqb a b = true <-> a = b.
Proof. split; [apply Byte.byte_dec_bl | apply Byte.byte_dec_lb]. Qed.

Lemma byte_eqb_refl (a : byte) : Byte.eqb a a = true.
Proof. apply byte_eqb_eq. reflexivity. Qed.

Lemma byte_eqb_neq (a b : byte) : Byte.eqb a b = false <-> a <> b.
Proof.
  rewrite <- byte_eqb_eq. destruct (Byte.eqb a b); split; congruence.
Qed.

Lemma z2b_char_val (b : byte) : z2b (char_val b) = b.
Proof. destruct b; reflexivity. Qed.

Lemma char_val_inj (a b : byte) : char_val a = char_val b -> a = b.
Proof.
  intros H. rewrite <- (z2b_char_val a), <- (z2b_char_val b), H. reflexivity.
Qed.

Lemma char_val_eqb (a b : byte) : (char_val a =? char_val b) = Byte.eqb a b.
Proof.
  destruct (Byte.eqb a b) eqn:E.
  - apply byte_eqb_eq in E. subst. apply Z.eqb_refl.
  - apply Z.eqb_neq. intros H. apply char_val_inj in H.
    apply byte_eqb_neq in E. contradiction.
Qed.

Lemma byte_eqb_sym (a b : byte) : Byte.eqb a b = Byte.eqb b a.
Proof.
  destruct (Byte.eqb b a) eqn:E.
  - apply byte_eqb_eq in E. subst. apply byte_eqb_refl.
  - apply byte_eqb_neq. apply byte_eqb_neq in E. congruence.
Qed.

Lemma char_at_eqb (s : list byte) (i : nat) (b : byte) :
  (char_at s i =? char_val b) = Byte.eqb (nth i s x00) b.
Proof. apply char_val_eqb. Qed.

(** ** Strings held by buffers *)

Lemma cstr_no_nul (s : list byte) : ~ In x00 (cstr s).
Proof.
  induction s as [| b r IH]; cbn [cstr]; [tauto |].
  destruct (Byte.eqb b x00) eqn:E; cbn [In]; [tauto |].
  apply byte_eqb_neq in E. intros [H | H]; [congruence | contradiction].
Qed.

Lemma cstr_id (s : list byte) : ~ In x00 s -> cstr s = s.
Proof.
  induction s as [| b r IH]; cbn [cstr In]; intros H; [reflexivity |].
  replace (Byte.eqb b x00) with false
    by (symmetry; apply byte_eqb_neq; intros ->; tauto).
  rewrite IH by tauto. reflexivity.
Qed.

Lemma strlen_cstr (s : list byte) : strlen s = length (cstr s).
Proof.
  induction s as [| b r IH]; cbn [strlen cstr]; [reflexivity |].
  destruct (Byte.eqb b x00); cbn [length]; congruence.
Qed.

Lemma nth_cstr (s : list byte) :
  forall i : nat, nth i (cstr s) x00 = if (i <? strlen s)%nat then nth i s x00 else x00.
Proof.
  induction s as [| b r IH]; intros i; cbn [cstr strlen].
  - destruct i; reflexivity.
  - destruct (Byte.eqb b x00) eqn:E.
    + destruct i; reflexivity.
    + destruct i as [| i]; [reflexivity |]. cbn [nth]. rewrite IH. reflexivity.
Qed.

Lemma nth_strlen (s : list byte) : nth (strlen s) s x00 = x00.
Proof.
  induction s as [| b r IH]; cbn [strlen]; [reflexivity |].
  destruct (Byte.eqb b x00) eqn:E; [apply byte_eqb_eq in E; exact E | exact IH].
Qed.

Lemma string_count_chr_nonneg (s : list byte) (c : Z) : 0 <= string_count_chr s c.
Proof.
  induction s as [| b r IH]; cbn [string_count_chr]; [lia |].
  destruct (Byte.eqb b x00); [lia |]. destruct (char_val b =? c); lia.
Qed.

Lemma string_count_chr_zero (s : list byte) (b : byte) :
  string_count_chr s (char_val b) = 0 -> ~ In b (cstr s).
Proof.
  induction s as [| a r IH]; cbn [string_count_chr cstr]; [tauto |].
  destruct (Byte.eqb a x00); [tauto |].
  rewrite char_val_eqb. pose proof (string_count_chr_nonneg r (char_val b)).
  destruct (Byte.eqb a b) eqn:E; [lia |].
  intros H0 [Hin | Hin]; [apply byte_eqb_neq in E; contradiction |].
  apply IH; [lia | exact Hin].
Qed.

Lemma string_count_chr_one (s : list byte) (b : byte) :
  string_count_chr s (char_val b) = 1 ->
  exists l d : list byte,
    cstr s = l ++ b :: d /\ ~ In b l /\ ~ In b d.
Proof.
  induction s as [| a r IH]; cbn [string_count_chr cstr]; [discriminate |].
  destruct (Byte.eqb a x00); [discriminate |].
  rewrite char_val_eqb.
  destruct (Byte.eqb a b) eqn:E; intros H.
  - apply byte_eqb_eq in E. subst a. exists [], (cstr r).
    split; [reflexivity | split; [tauto |]].
    apply string_count_chr_zero. lia.
  - destruct (IH ltac:(lia)) as (l & d & El & Hl & Hd).
    exists (a :: l), d. rewrite El. split; [reflexivity | split; [| exact Hd]].
    apply byte_eqb_neq in E. intros [Hin | Hin]; [contradiction | tauto].
Qed.

(** ** is_valid_mailbox *)

Lemma is_valid_mailbox_inv (name : list byte) :
  is_valid_mailbox (Some name) = true <->
  (char_at name 0 =? 0) = false
  /\ has_invalid_email_chars name = false
  /\ string_count_chr name at_sign = 1
  /\ (char_at name 0 =? at_sign) = false
  /\ (char_at name (strlen name - 1) =? at_sign) = false
  /\ (char_at name (strlen name - 1) =? dot) = false
  /\ strstr name dotdot = None.
Proof.
  unfold is_valid_mailbox. rewrite negb_true_iff, !orb_false_iff, negb_false_iff.
  rewrite Z.eqb_eq.
  assert (Hf : forall p, found p = false <-> p = None)
    by (intros [n |]; cbn; split; congruence).
  rewrite Hf. tauto.
Qed.

Lemma ctrl_char_refused (b : byte) :
  Byte.eqb b x00 = false ->
  (Z.land (char_val b) 0x80 =? 0) = true ->
  (char_val b <=? 0x20) = true ->
  (char_val b =? at_sign) = false
  /\ found (strchr valid_chars (char_val b)) = false
  /\ found (strchr special_chars (char_val b)) = false.
Proof.
  destruct b; vm_compute; intros H1 H2 H3; try discriminate;
    repeat split; reflexivity.
Qed.

Lemma invalid_chars_cover_ctrl (s : list byte) :
  forall at_seen : bool,
    has_invalid_email_chars_loop at_seen s = false ->
    string_has_ctrl_or_space s = false.
Proof.
  induction s as [| b r IH]; intros a H; [reflexivity |].
  cbn [has_invalid_email_chars_loop string_has_ctrl_or_space] in *.
  destruct (Byte.eqb b x00) eqn:E0; [reflexivity |].
  destruct (Z.land (char_val b) 128 =? 0) eqn:Eh; cbn [negb andb] in *;
    [| eauto].
  destruct (char_val b <=? 32) eqn:Ec.
  - destruct (ctrl_char_refused b E0 Eh Ec) as (Ha & Hv & Hs).
    rewrite Ha, Hv, Hs in H. destruct a; discriminate.
  - destruct (char_val b =? at_sign); [eauto |].
    repeat match type of H with
           | (if ?c then _ else _) = _ => destruct c
           end; try discriminate; eauto.
Qed.



Lemma nth_app_here (l d : list byte) (b : byte) : nth (length l) (l ++ b :: d) x00 = b.
Proof. rewrite nth_middle. reflexivity. Qed.

(** X2.  A name that [is_valid_mailbox] accepts is a local part, one at-sign
    and a domain, both not empty and without a further at-sign. *)
Theorem valid_mailbox_shape (name : list byte) :
  is_valid_mailbox (Some name) = true ->
  exists local domain : list byte,
    cstr name = local ++ "@"%byte :: domain
    /\ local <> [] /\ domain <> []
    /\ ~ In "@"%byte local /\ ~ In "@"%byte domain.
Proof.
  intros H. apply is_valid_mailbox_inv in H.
  destruct H as (_ & _ & Hcount & Hfirst & Hlast & _ & _).
  destruct (string_count_chr_one name "@"%byte Hcount) as (l & d & E & Hl & Hd).
  exists l, d. split; [exact E |].
  unfold at_sign in Hfirst, Hlast. rewrite char_at_eqb in Hfirst, Hlast.
  assert (Hlen : strlen name = (length l + S (length d))%nat)
    by (rewrite strlen_cstr, E, length_app; reflexivity).
  split; [| split; [| tauto]].
  - intros ->. cbn [app] in E.
    pose proof (nth_cstr name 0) as Hn. rewrite E, Hlen in Hn. cbn in Hn.
    rewrite <- Hn in Hfirst. discriminate.
  - intros ->. cbn [length] in Hlen.
    assert (Hi : (strlen name - 1)%nat = length l) by lia.
    rewrite Hi in Hlast.
    pose proof (nth_cstr name (length l)) as Hn.
    rewrite E, nth_app_here in Hn.
    replace (length l <? strlen name)%nat with true in Hn
      by (symmetry; apply Nat.ltb_lt; lia).
    rewrite <- Hn in Hlast. discriminate.
Qed.

Lemma valid_mailbox_shape_witness :
  exists local domain : list byte,
    cstr heine_mailbox = local ++ "@"%byte :: domain
    /\ local <> [] /\ domain <> []
    /\ ~ In "@"%byte local /\ ~ In "@"%byte domain.
Proof.
  apply (valid_mailbox_shape heine_mailbox). reflexivity.
Defined.

(** ** Lower case *)

Lemma tolower_nul (b : byte) : Byte.eqb (ascii_tolower b) x00 = Byte.eqb b x00.
Proof. destruct b; reflexivity. Qed.

Lemma tolower_eqb_at (b : byte) :
  Byte.eqb (ascii_tolower b) "@"%byte = Byte.eqb b "@"%byte.
Proof. destruct b; reflexivity. Qed.

Lemma tolower_eqb_dot (b : byte) :
  Byte.eqb (ascii_tolower b) "."%byte = Byte.eqb b "."%byte.
Proof. destruct b; reflexivity. Qed.

Lemma tolower_eqb_lt (b : byte) :
  Byte.eqb (ascii_tolower b) "<"%byte = Byte.eqb b "<"%byte.
Proof. destruct b; reflexivity. Qed.

Lemma tolower_high (b : byte) :
  (Z.land (char_val (ascii_tolower b)) 128 =? 0)
  = (Z.land (char_val b) 128 =? 0).
Proof. destruct b; reflexivity. Qed.

Lemma tolower_ctrl (b : byte) :
  (char_val (ascii_tolower b) <=? 32) = (char_val b <=? 32).
Proof. destruct b; reflexivity. Qed.

Lemma tolower_valid (b : byte) :
  found (strchr valid_chars (char_val (ascii_tolower b)))
  = found (strchr valid_chars (char_val b)).
Proof. destruct b; reflexivity. Qed.

Lemma tolower_special (b : byte) :
  found (strchr special_chars (char_val (ascii_tolower b)))
  = found (strchr special_chars (char_val b)).
Proof. destruct b; reflexivity. Qed.

Lemma tolower_idem (b : byte) : ascii_tolower (ascii_tolower b) = ascii_tolower b.
Proof. destruct b; reflexivity. Qed.

Lemma strlwr_nul_head (b : byte) (r : list byte) :
  Byte.eqb b x00 = true -> ascii_strlwr (b :: r) = b :: r.
Proof. intros E. cbn [ascii_strlwr]. rewrite E. reflexivity. Qed.

Lemma strlwr_cons (b : byte) (r : list byte) :
  Byte.eqb b x00 = false ->
  ascii_strlwr (b :: r) = ascii_tolower b :: ascii_strlwr r.
Proof. intros E. cbn [ascii_strlwr]. rewrite E. reflexivity. Qed.

Lemma strlwr_idem (s : list byte) : ascii_strlwr (ascii_strlwr s) = ascii_strlwr s.
Proof.
  induction s as [| b r IH]; [reflexivity |].
  destruct (Byte.eqb b x00) eqn:E.
  - rewrite !(strlwr_nul_head b r E). reflexivity.
  - rewrite (strlwr_cons b r E), strlwr_cons by (rewrite tolower_nul; exact E).
    rewrite tolower_idem, IH. reflexivity.
Qed.

Lemma strlwr_strlen (s : list byte) : strlen (ascii_strlwr s) = strlen s.
Proof.
  induction s as [| b r IH]; [reflexivity |].
  destruct (Byte.eqb b x00) eqn:E.
  - rewrite (strlwr_nul_head b r E). reflexivity.
  - rewrite (strlwr_cons b r E). cbn [strlen]. rewrite tolower_nul, E, IH.
    reflexivity.
Qed.

Lemma strlwr_nth (s : list byte) :
  forall i : nat,
    (i <= strlen s)%nat ->
    nth i (ascii_strlwr s) x00 = ascii_tolower (nth i s x00).
Proof.
  induction s as [| b r IH]; intros i Hi.
  - destruct i; reflexivity.
  - cbn [strlen] in Hi. destruct (Byte.eqb b x00) eqn:E.
    + rewrite (strlwr_nul_head b r E).
      assert (i = 0%nat) by lia. subst i. cbn [nth].
      apply byte_eqb_eq in E. subst b. reflexivity.
    + rewrite (strlwr_cons b r E). destruct i as [| i]; [reflexivity |].
      cbn [nth]. apply IH. lia.
Qed.

Lemma strlwr_count (s : list byte) (b : byte) :
  (forall a, Byte.eqb (ascii_tolower a) b = Byte.eqb a b) ->
  string_count_chr (ascii_strlwr s) (char_val b) = string_count_chr s (char_val b).
Proof.
  intros Hb. induction s as [| a r IH]; [reflexivity |].
  destruct (Byte.eqb a x00) eqn:E.
  - rewrite (strlwr_nul_head a r E). reflexivity.
  - rewrite (strlwr_cons a r E). cbn [string_count_chr].
    rewrite tolower_nul, E, !char_val_eqb, Hb, IH. reflexivity.
Qed.

Lemma strlwr_ctrl (s : list byte) :
  string_has_ctrl_or_space (ascii_strlwr s) = string_has_ctrl_or_space s.
Proof.
  induction s as [| a r IH]; [reflexivity |].
  destruct (Byte.eqb a x00) eqn:E.
  - rewrite (strlwr_nul_head a r E). reflexivity.
  - rewrite (strlwr_cons a r E). cbn [string_has_ctrl_or_space].
    rewrite tolower_nul, E, tolower_high, tolower_ctrl, IH. reflexivity.
Qed.

Lemma strlwr_invalid (s : list byte) :
  forall at_seen : bool,
    has_invalid_email_chars_loop at_seen (ascii_strlwr s)
    = has_invalid_email_chars_loop at_seen s.
Proof.
  induction s as [| a r IH]; intros at_seen; [reflexivity |].
  destruct (Byte.eqb a x00) eqn:E.
  - rewrite (strlwr_nul_head a r E). reflexivity.
  - rewrite (strlwr_cons a r E). cbn [has_invalid_email_chars_loop].
    unfold at_sign.
    rewrite tolower_nul, E, tolower_high, !char_val_eqb, tolower_eqb_at,
      tolower_valid, tolower_special, !IH.
    reflexivity.
Qed.

Lemma strlwr_strchr (s : list byte) (b : byte) :
  (forall a, Byte.eqb (ascii_tolower a) b = Byte.eqb a b) ->
  strchr (ascii_strlwr s) (char_val b) = strchr s (char_val b).
Proof.
  intros Hb. induction s as [| a r IH]; [reflexivity |].
  destruct (Byte.eqb a x00) eqn:E.
  - rewrite (strlwr_nul_head a r E). reflexivity.
  - rewrite (strlwr_cons a r E). cbn [strchr].
    rewrite z2b_char_val, Hb, tolower_nul, E, IH. reflexivity.
Qed.

Lemma starts_with_dotdot (s : list byte) :
  starts_with dotdot s
  = match s with
    | a :: b :: _ => Byte.eqb a "."%byte && Byte.eqb b "."%byte
    | _ => false
    end.
Proof.
  destruct s as [| a [| b r]]; cbn; rewrite ?andb_true_r, ?andb_false_r;
    reflexivity.
Qed.

Lemma strlwr_starts_with_dotdot (s : list byte) :
  starts_with dotdot (ascii_strlwr s) = starts_with dotdot s.
Proof.
  rewrite !starts_with_dotdot.
  destruct s as [| a r]; [reflexivity |].
  destruct (Byte.eqb a x00) eqn:E.
  - rewrite (strlwr_nul_head a r E). reflexivity.
  - rewrite (strlwr_cons a r E). destruct r as [| b r]; [reflexivity |].
    destruct (Byte.eqb b x00) eqn:E2.
    + rewrite (strlwr_nul_head b r E2), tolower_eqb_dot. reflexivity.
    + rewrite (strlwr_cons b r E2), !tolower_eqb_dot. reflexivity.
Qed.

Lemma strlwr_strstr_dotdot (s : list byte) :
  strstr (ascii_strlwr s) dotdot = strstr s dotdot.
Proof.
  induction s as [| a r IH]; [reflexivity |].
  destruct (Byte.eqb a x00) eqn:E.
  - rewrite (strlwr_nul_head a r E). reflexivity.
  - pose proof (strlwr_starts_with_dotdot (a :: r)) as Hs.
    rewrite (strlwr_cons a r E) in Hs |- *.
    cbn [strstr]. rewrite Hs, tolower_nul, E, IH. reflexivity.
Qed.

Lemma strchr_some_lt (s : list byte) (b : byte) :
  b <> x00 ->
  forall i : nat, strchr s (char_val b) = Some i -> (i < strlen s)%nat.
Proof.
  intros Hb. induction s as [| a r IH]; intros i; cbn [strchr strlen];
    rewrite z2b_char_val.
  - replace (Byte.eqb x00 b) with false
      by (symmetry; apply byte_eqb_neq; congruence).
    discriminate.
  - destruct (Byte.eqb a b) eqn:E.
    + apply byte_eqb_eq in E. subst a.
      replace (Byte.eqb b x00) with false by (symmetry; apply byte_eqb_neq; exact Hb).
      intros [= <-]. lia.
    + destruct (Byte.eqb a x00); [discriminate |].
      destruct (strchr r (char_val b)) as [j |] eqn:Ej; [| discriminate].
      intros [= <-]. specialize (IH j eq_refl). lia.
Qed.

Lemma strlwr_skipn (s : list byte) :
  forall i : nat,
    (i <= strlen s)%nat ->
    skipn i (ascii_strlwr s) = ascii_strlwr (skipn i s).
Proof.
  induction s as [| a r IH]; intros i Hi.
  - destruct i; reflexivity.
  - destruct i as [| i]; [reflexivity |].
    cbn [strlen] in Hi. destruct (Byte.eqb a x00) eqn:E; [lia |].
    rewrite (strlwr_cons a r E). cbn [skipn]. apply IH. lia.
Qed.

Lemma strlwr_dotdot_after_at (s : list byte) :
  has_dotdot_after_at (ascii_strlwr s) = has_dotdot_after_at s.
Proof.
  unfold has_dotdot_after_at, at_sign.
  rewrite (strlwr_strchr s "@"%byte tolower_eqb_at).
  destruct (strchr s (char_val "@"%byte)) as [i |] eqn:Ei; [| reflexivity].
  apply strchr_some_lt in Ei; [| discriminate].
  rewrite strlwr_skipn by lia. rewrite strlwr_strstr_dotdot. reflexivity.
Qed.

Lemma char_at_strlwr (s : list byte) (i : nat) (b : byte) :
  (forall a, Byte.eqb (ascii_tolower a) b = Byte.eqb a b) ->
  (i <= strlen s)%nat ->
  (char_at (ascii_strlwr s) i =? char_val b) = (char_at s i =? char_val b).
Proof.
  intros Hb Hi. rewrite !char_at_eqb, strlwr_nth, Hb by exact Hi. reflexivity.
Qed.

Lemma is_valid_mailbox_strlwr (name : list byte) :
  is_valid_mailbox (Some (ascii_strlwr name)) = is_valid_mailbox (Some name).
Proof.
  unfold is_valid_mailbox, has_invalid_email_chars.
  rewrite strlwr_invalid, strlwr_strlen, strlwr_strstr_dotdot.
  unfold at_sign, dot.
  rewrite (strlwr_count name "@"%byte tolower_eqb_at).
  change 0 with (char_val x00).
  rewrite !(char_at_strlwr name 0 _ tolower_nul) by lia.
  rewrite !(char_at_strlwr name 0 _ tolower_eqb_at) by lia.
  rewrite !(char_at_strlwr name _ _ tolower_eqb_at) by lia.
  rewrite !(char_at_strlwr name _ _ tolower_eqb_dot) by lia.
  reflexivity.
Qed.

(** X3.  [is_valid_mailbox] does not depend on the case of the ASCII
    letters: a name and its lower-case form are accepted alike. *)
Theorem is_valid_mailbox_ascii_strlwr (name : list byte) :
  is_valid_mailbox (Some (ascii_strlwr name)) = is_valid_mailbox (Some name).
Proof. apply is_valid_mailbox_strlwr. Qed.

(** ** The string of a buffer and the buffer *)

Lemma cstr_cons_nul (b : byte) (r : list byte) :
  Byte.eqb b x00 = true -> cstr (b :: r) = [].
Proof. intros E. cbn [cstr]. rewrite E. reflexivity. Qed.

Lemma cstr_cons (b : byte) (r : list byte) :
  Byte.eqb b x00 = false -> cstr (b :: r) = b :: cstr r.
Proof. intros E. cbn [cstr]. rewrite E. reflexivity. Qed.

Lemma cstr_count (s : list byte) (c : Z) :
  string_count_chr (cstr s) c = string_count_chr s c.
Proof.
  induction s as [| a r IH]; [reflexivity |].
  destruct (Byte.eqb a x00) eqn:E.
  - rewrite (cstr_cons_nul a r E). cbn [string_count_chr]. rewrite E. reflexivity.
  - rewrite (cstr_cons a r E). cbn [string_count_chr]. rewrite E, IH. reflexivity.
Qed.

Lemma cstr_ctrl (s : list byte) :
  string_has_ctrl_or_space (cstr s) = string_has_ctrl_or_space s.
Proof.
  induction s as [| a r IH]; [reflexivity |].
  destruct (Byte.eqb a x00) eqn:E.
  - rewrite (cstr_cons_nul a r E). cbn [string_has_ctrl_or_space]. rewrite E.
    reflexivity.
  - rewrite (cstr_cons a r E). cbn [string_has_ctrl_or_space]. rewrite E, IH.
    reflexivity.
Qed.

Lemma cstr_invalid (s : list byte) :
  forall at_seen : bool,
    has_invalid_email_chars_loop at_seen (cstr s)
    = has_invalid_email_chars_loop at_seen s.
Proof.
  induction s as [| a r IH]; intros at_seen; [reflexivity |].
  destruct (Byte.eqb a x00) eqn:E.
  - rewrite (cstr_cons_nul a r E). cbn [has_invalid_email_chars_loop].
    rewrite E. reflexivity.
  - rewrite (cstr_cons a r E). cbn [has_invalid_email_chars_loop].
    rewrite E, !IH. reflexivity.
Qed.

Lemma cstr_strlen (s : list byte) : strlen (cstr s) = strlen s.
Proof.
  rewrite !strlen_cstr, (cstr_id (cstr s)) by apply cstr_no_nul. reflexivity.
Qed.

Lemma cstr_nth (s : list byte) (i : nat) :
  (i <= strlen s)%nat -> nth i (cstr s) x00 = nth i s x00.
Proof.
  intros Hi. rewrite nth_cstr.
  destruct (Nat.ltb_spec i (strlen s)); [reflexivity |].
  assert (i = strlen s) by lia. subst i. symmetry. apply nth_strlen.
Qed.

Lemma cstr_strchr (s : list byte) (c : Z) :
  strchr (cstr s) c = strchr s c.
Proof.
  induction s as [| a r IH]; [reflexivity |].
  destruct (Byte.eqb a x00) eqn:E.
  - rewrite (cstr_cons_nul a r E). cbn [strchr]. rewrite E.
    apply byte_eqb_eq in E. subst a.
    destruct (Byte.eqb x00 (z2b c)); reflexivity.
  - rewrite (cstr_cons a r E). cbn [strchr]. rewrite E, IH. reflexivity.
Qed.

Lemma cstr_starts_with_dotdot (s : list byte) :
  starts_with dotdot (cstr s) = starts_with dotdot s.
Proof.
  rewrite !starts_with_dotdot.
  destruct s as [| a r]; [reflexivity |].
  destruct (Byte.eqb a x00) eqn:E.
  - rewrite (cstr_cons_nul a r E). apply byte_eqb_eq in E. subst a.
    destruct r; reflexivity.
  - rewrite (cstr_cons a r E). destruct r as [| b r].
    + reflexivity.
    + destruct (Byte.eqb b x00) eqn:E2.
      * rewrite (cstr_cons_nul b r E2). apply byte_eqb_eq in E2. subst b.
        rewrite andb_false_r. reflexivity.
      * rewrite (cstr_cons b r E2). reflexivity.
Qed.

Lemma cstr_strstr_dotdot (s : list byte) :
  strstr (cstr s) dotdot = strstr s dotdot.
Proof.
  induction s as [| a r IH]; [reflexivity |].
  pose proof (cstr_starts_with_dotdot (a :: r)) as Hs.
  destruct (Byte.eqb a x00) eqn:E.
  - rewrite (cstr_cons_nul a r E) in Hs |- *.
    cbn [strstr]. rewrite <- Hs, E. reflexivity.
  - rewrite (cstr_cons a r E) in Hs |- *.
    cbn [strstr]. rewrite Hs, E, IH. reflexivity.
Qed.

Lemma is_valid_mailbox_cstr (name : list byte) :
  is_valid_mailbox (Some (cstr name)) = is_valid_mailbox (Some name).
Proof.
  unfold is_valid_mailbox, has_invalid_email_chars, char_at.
  rewrite cstr_invalid, cstr_strlen, cstr_strstr_dotdot, cstr_count.
  rewrite !cstr_nth by lia. reflexivity.
Qed.

(** ** Offsets found by strchr and strstr *)

Lemma strchr_first (pre post : list byte) (b : byte) :
  ~ In b pre -> ~ In x00 pre ->
  strchr (pre ++ b :: post) (char_val b) = Some (length pre).
Proof.
  induction pre as [| a r IH]; cbn [app strchr length In]; intros Hb H0;
    rewrite z2b_char_val.
  - rewrite byte_eqb_refl. reflexivity.
  - replace (Byte.eqb a b) with false
      by (symmetry; apply byte_eqb_neq; intros ->; tauto).
    replace (Byte.eqb a x00) with false
      by (symmetry; apply byte_eqb_neq; intros ->; tauto).
    rewrite IH by tauto. reflexivity.
Qed.

Lemma strchr_some_split (s : list byte) (b : byte) :
  b <> x00 ->
  forall i : nat,
    strchr s (char_val b) = Some i ->
    s = firstn i s ++ b :: skipn (S i) s
    /\ length (firstn i s) = i
    /\ ~ In b (firstn i s) /\ ~ In x00 (firstn i s).
Proof.
  intros Hb. induction s as [| a r IH]; intros i; cbn [strchr];
    rewrite z2b_char_val.
  - replace (Byte.eqb x00 b) with false
      by (symmetry; apply byte_eqb_neq; congruence).
    discriminate.
  - destruct (Byte.eqb a b) eqn:E.
    + apply byte_eqb_eq in E. subst a. intros [= <-]. cbn. tauto.
    + destruct (Byte.eqb a x00) eqn:E0; [discriminate |].
      destruct (strchr r (char_val b)) as [j |] eqn:Ej; [| discriminate].
      intros [= <-]. destruct (IH j eq_refl) as (Hs & Hl & Hnb & Hn0).
      cbn [firstn skipn app length In].
      apply byte_eqb_neq in E, E0.
      split; [f_equal; exact Hs |].
      split; [f_equal; exact Hl |].
      split; intros [H | H]; congruence || tauto.
Qed.

Lemma strchr_none (s : list byte) (b : byte) :
  strchr s (char_val b) = None -> ~ In b (cstr s).
Proof.
  induction s as [| a r IH]; cbn [strchr cstr]; [tauto |].
  rewrite z2b_char_val.
  destruct (Byte.eqb a b) eqn:E; [discriminate |].
  destruct (Byte.eqb a x00); [tauto |].
  destruct (strchr r (char_val b)) eqn:Er; [discriminate |].
  intros _ [H | H]; [apply byte_eqb_neq in E; contradiction | tauto].
Qed.

Lemma strchr_absent (s : list byte) (b : byte) :
  b <> x00 -> ~ In b (cstr s) -> strchr s (char_val b) = None.
Proof.
  intros Hb. induction s as [| a r IH]; cbn [strchr cstr]; rewrite z2b_char_val.
  - replace (Byte.eqb x00 b) with false
      by (symmetry; apply byte_eqb_neq; congruence).
    reflexivity.
  - destruct (Byte.eqb a x00) eqn:E0.
    + apply byte_eqb_eq in E0. subst a.
      replace (Byte.eqb x00 b) with false
        by (symmetry; apply byte_eqb_neq; congruence).
      reflexivity.
    + cbn [In]. intros H.
      replace (Byte.eqb a b) with false
        by (symmetry; apply byte_eqb_neq; intros ->; tauto).
      rewrite IH by tauto. reflexivity.
Qed.

Lemma strstr_none_skipn (s needle : list byte) :
  forall k : nat,
    (k <= strlen s)%nat ->
    strstr s needle = None -> strstr (skipn k s) needle = None.
Proof.
  induction s as [| a r IH]; intros k Hk H.
  - destruct k; exact H.
  - destruct k as [| k]; [exact H |].
    cbn [strlen] in Hk. cbn [strstr] in H. cbn [skipn].
    destruct (starts_with needle (a :: r)); [discriminate |].
    destruct (Byte.eqb a x00); [lia |].
    destruct (strstr r needle) eqn:Er; [discriminate |].
    apply IH; [lia | reflexivity].
Qed.

Lemma strlen_id (s : list byte) : ~ In x00 s -> strlen s = length s.
Proof. intros H. rewrite strlen_cstr, cstr_id by exact H. reflexivity. Qed.

(** A name that [is_valid_mailbox] accepts passes the checks made on the
    text between angle brackets. *)
Lemma valid_mailbox_passes_bracket_checks (name : list byte) :
  is_valid_mailbox (Some name) = true ->
  bracket_text_refused name (strlen name) = false.
Proof.
  intros H. apply is_valid_mailbox_inv in H.
  destruct H as (_ & Hchars & Hcount & Hfirst & Hlast & Hdot & Hdd).
  pose proof (invalid_chars_cover_ctrl name false Hchars) as Hctrl.
  unfold bracket_text_refused.
  rewrite Hcount, Hfirst, Hlast, Hdot, Hctrl. cbn [Z.eqb Pos.eqb negb orb].
  unfold has_dotdot_after_at.
  destruct (strchr name at_sign) as [i |] eqn:Ei; [| reflexivity].
  apply strchr_some_lt in Ei; [| discriminate].
  rewrite strstr_none_skipn by (lia || assumption). reflexivity.
Qed.

Lemma bracket_refused_strlwr (t : list byte) :
  bracket_text_refused (ascii_strlwr t) (strlen t)
  = bracket_text_refused t (strlen t).
Proof.
  unfold bracket_text_refused, at_sign, dot.
  rewrite (strlwr_count t "@"%byte tolower_eqb_at), strlwr_ctrl.
  fold at_sign. rewrite strlwr_dotdot_after_at. unfold at_sign.
  rewrite !(char_at_strlwr t _ _ tolower_eqb_at) by lia.
  rewrite !(char_at_strlwr t _ _ tolower_eqb_dot) by lia.
  reflexivity.
Qed.

Lemma bracket_refused_inv (t : list byte) (len : nat) :
  bracket_text_refused t len = false ->
  string_count_chr t at_sign = 1
  /\ char_at t 0 <> at_sign
  /\ char_at t (len - 1) <> at_sign
  /\ char_at t (len - 1) <> dot
  /\ string_has_ctrl_or_space t = false
  /\ has_dotdot_after_at t = false.
Proof.
  unfold bracket_text_refused.
  rewrite !orb_false_iff, negb_false_iff, !Z.eqb_eq, !Z.eqb_neq. tauto.
Qed.

(** X4.  Whatever [mailbox_from_userid] returns has passed the basic
    checks and is in lower case: it holds exactly one at-sign, which is
    neither its first nor its last character, it does not end in a dot,
    [string_has_ctrl_or_space] finds nothing in it (no space and no
    control character up to 0x1f; the character 0x7f is not looked for
    and can be part of a result taken from angle brackets) and no two
    dots in a row follow the at-sign; [errno] is not assigned. *)
Theorem mailbox_from_userid_result_checked
  (have_core : bool) (userid r : list byte) (e : option Z) :
  mailbox_from_userid have_core userid = (Some r, e) ->
  e = None
  /\ string_count_chr r at_sign = 1
  /\ char_at r 0 <> at_sign
  /\ char_at r (strlen r - 1) <> at_sign
  /\ char_at r (strlen r - 1) <> dot
  /\ string_has_ctrl_or_space r = false
  /\ has_dotdot_after_at r = false
  /\ ascii_strlwr r = r.
Proof.
  unfold mailbox_from_userid.
  assert (Hmain : forall t : list byte,
             bracket_text_refused t (strlen t) = false ->
             (Some r, e) = (option_map ascii_strlwr (Some t), @None Z) ->
             e = None
             /\ string_count_chr r at_sign = 1
             /\ char_at r 0 <> at_sign
             /\ char_at r (strlen r - 1) <> at_sign
             /\ char_at r (strlen r - 1) <> dot
             /\ string_has_ctrl_or_space r = false
             /\ has_dotdot_after_at r = false
             /\ ascii_strlwr r = r).
  { intros t Ht [= -> ->]. split; [reflexivity |].
    rewrite <- bracket_refused_strlwr, <- strlwr_strlen in Ht.
    apply bracket_refused_inv in Ht.
    rewrite strlwr_idem. tauto. }
  destruct (strchr userid (char_val "<"%byte)) as [i |] eqn:Ei.
  - destruct (strchr (skipn (S i) userid) (char_val ">"%byte)) as [len |] eqn:El;
      [| discriminate].
    destruct (0 <? len)%nat; [| discriminate].
    destruct have_core; [| discriminate].
    destruct (bracket_text_refused _ len) eqn:Er; [discriminate |].
    intros H. apply (Hmain (firstn len (skipn (S i) userid))); [| symmetry; exact H].
    apply strchr_some_split in El; [| discriminate].
    destruct El as (_ & Hlen & _ & Hn0).
    rewrite strlen_id, Hlen by exact Hn0. exact Er.
  - destruct (is_valid_mailbox (Some userid)) eqn:Ev; [| discriminate].
    destruct have_core; [| discriminate].
    intros H. apply (Hmain (cstr userid)); [| symmetry; exact H].
    apply valid_mailbox_passes_bracket_checks.
    rewrite is_valid_mailbox_cstr. exact Ev.
Qed.

Lemma mailbox_from_userid_result_checked_witness :
  @None Z = None
  /\ string_count_chr heine_mailbox_lower at_sign = 1
  /\ char_at heine_mailbox_lower 0 <> at_sign
  /\ char_at heine_mailbox_lower (strlen heine_mailbox_lower - 1) <> at_sign
  /\ char_at heine_mailbox_lower (strlen heine_mailbox_lower - 1) <> dot
  /\ string_has_ctrl_or_space heine_mailbox_lower = false
  /\ has_dotdot_after_at heine_mailbox_lower = false
  /\ ascii_strlwr heine_mailbox_lower = heine_mailbox_lower.
Proof.
  apply (mailbox_from_userid_result_checked true
           (heine_name ++ "<"%byte :: heine_mailbox ++ ">"%byte :: heine_remark)
           heine_mailbox_lower None).
  reflexivity.
Defined.

(** A result taken from angle brackets can hold the character 0x7f. *)
Lemma mailbox_from_userid_keeps_0x7f :
  mailbox_from_userid true
    ("<"%byte :: "a"%byte :: x7f :: "@"%byte :: "b"%byte :: [">"%byte])
  = (Some ["a"%byte; x7f; "@"%byte; "b"%byte], None).
Proof. reflexivity. Qed.

(** ** The bracket form *)

Lemma mailbox_from_userid_bracket (have_core : bool) (pre x post : list byte) :
  ~ In "<"%byte pre -> ~ In x00 pre ->
  ~ In ">"%byte x -> ~ In x00 x ->
  mailbox_from_userid have_core (pre ++ "<"%byte :: x ++ ">"%byte :: post)
  = if (0 <? length x)%nat then
      if have_core then
        if bracket_text_refused x (length x) then (None, Some EINVAL)
        else (Some (ascii_strlwr x), None)
      else (None, None)
    else (None, Some EINVAL).
Proof.
  intros Hpre Hpre0 Hx Hx0. unfold mailbox_from_userid.
  rewrite (strchr_first pre _ "<"%byte Hpre Hpre0).
  replace (skipn (S (length pre)) (pre ++ "<"%byte :: x ++ ">"%byte :: post))
    with (x ++ ">"%byte :: post)
    by (rewrite (skipn_app (S (length pre))), skipn_all2 by lia;
        replace (S (length pre) - length pre)%nat with 1%nat by lia;
        reflexivity).
  rewrite (strchr_first x post ">"%byte Hx Hx0).
  rewrite firstn_app, firstn_all, Nat.sub_diag. cbn [firstn]. rewrite app_nil_r.
  destruct (0 <? length x)%nat; [| reflexivity].
  destruct have_core; [| reflexivity].
  destruct (bracket_text_refused x (length x)); reflexivity.
Qed.

(** X5.  Only the text between the first opening angle bracket and the
    closing bracket that follows it counts: what stands before and after
    does not change what [mailbox_from_userid] returns or assigns to
    [errno]. *)
Theorem mailbox_from_userid_ignores_outside
  (have_core : bool) (pre x post : list byte) :
  ~ In "<"%byte pre -> ~ In x00 pre ->
  ~ In ">"%byte x -> ~ In x00 x ->
  mailbox_from_userid have_core (pre ++ "<"%byte :: x ++ ">"%byte :: post)
  = mailbox_from_userid have_core ("<"%byte :: x ++ [">"%byte]).
Proof.
  intros Hpre Hpre0 Hx Hx0.
  rewrite (mailbox_from_userid_bracket have_core pre x post) by assumption.
  symmetry.
  apply (mailbox_from_userid_bracket have_core [] x []);
    [intros [] | intros [] | assumption | assumption].
Qed.

Lemma mailbox_from_userid_ignores_outside_witness :
  mailbox_from_userid true
    (heine_name ++ "<"%byte :: heine_mailbox ++ ">"%byte :: heine_remark)
  = mailbox_from_userid true ("<"%byte :: heine_mailbox ++ [">"%byte]).
Proof.
  apply (mailbox_from_userid_ignores_outside true heine_name heine_mailbox
           heine_remark);
    intros H; cbn in H;
    repeat (destruct H as [H | H]; [discriminate H |]); exact H.
Defined.

Lemma angle_char_refused (b : byte) :
  b = "<"%byte \/ b = ">"%byte ->
  Byte.eqb b x00 = false
  /\ (Z.land (char_val b) 0x80 =? 0) = true
  /\ (char_val b =? at_sign) = false
  /\ found (strchr valid_chars (char_val b)) = false
  /\ found (strchr special_chars (char_val b)) = false.
Proof. intros [-> | ->]; repeat split; reflexivity. Qed.

Lemma invalid_chars_cover_angle (s : list byte) (b : byte) :
  b = "<"%byte \/ b = ">"%byte ->
  forall at_seen : bool,
    has_invalid_email_chars_loop at_seen s = false -> ~ In b (cstr s).
Proof.
  intros Hb. induction s as [| a r IH]; intros at_seen H; [cbn; tauto |].
  cbn [has_invalid_email_chars_loop cstr] in *.
  destruct (Byte.eqb a x00) eqn:E0; [cbn; tauto |].
  cbn [In]. intros [-> | Hin].
  - destruct (angle_char_refused b Hb) as (_ & Hh & Ha & Hv & Hs).
    rewrite Hh, Ha, Hv, Hs in H. destruct at_seen; discriminate.
  - repeat match type of H with
           | (if ?c then _ else _) = _ => destruct c
           end; try discriminate; exact (IH _ H Hin).
Qed.

(** X6.  A mailbox that [is_valid_mailbox] accepts is returned in lower
    case both when it is the whole user id and when it stands between
    angle brackets after a name. *)
Theorem mailbox_from_userid_of_valid_mailbox
  (pre addr post : list byte) :
  is_valid_mailbox (Some addr) = true ->
  ~ In x00 addr ->
  ~ In "<"%byte pre -> ~ In x00 pre ->
  mailbox_from_userid true addr = (Some (ascii_strlwr addr), None)
  /\ mailbox_from_userid true (pre ++ "<"%byte :: addr ++ ">"%byte :: post)
     = (Some (ascii_strlwr addr), None).
Proof.
  intros Hv H0 Hpre Hpre0.
  pose proof (valid_mailbox_passes_bracket_checks addr Hv) as Hchk.
  rewrite strlen_id in Hchk by exact H0.
  pose proof Hv as Hinv. apply is_valid_mailbox_inv in Hinv.
  destruct Hinv as (Hne & Hchars & _).
  assert (Hlt : ~ In "<"%byte addr).
  { rewrite <- (cstr_id addr H0).
    exact (invalid_chars_cover_angle addr _ (or_introl eq_refl) false Hchars). }
  assert (Hgt : ~ In ">"%byte addr).
  { rewrite <- (cstr_id addr H0).
    exact (invalid_chars_cover_angle addr _ (or_intror eq_refl) false Hchars). }
  split.
  - unfold mailbox_from_userid.
    rewrite strchr_absent, Hv, cstr_id;
      [reflexivity | exact H0 | discriminate | rewrite cstr_id; assumption].
  - rewrite (mailbox_from_userid_bracket true pre addr post) by assumption.
    rewrite Hchk.
    destruct addr as [| a r]; [discriminate | reflexivity].
Qed.

Lemma mailbox_from_userid_of_valid_mailbox_witness :
  mailbox_from_userid true heine_mailbox
  = (Some (ascii_strlwr heine_mailbox), None)
  /\ mailbox_from_userid true
       (heine_name ++ "<"%byte :: heine_mailbox ++ ">"%byte :: heine_remark)
     = (Some (ascii_strlwr heine_mailbox), None).
Proof.
  apply (mailbox_from_userid_of_valid_mailbox heine_name heine_mailbox
           heine_remark);
    [reflexivity | | |];
    intros H; cbn in H;
    repeat (destruct H as [H | H]; [discriminate H |]); exact H.
Defined.

(** X7.  What [mailbox_from_userid] returns for a user id without an
    opening angle bracket is returned unchanged when it is passed
    again. *)
Theorem mailbox_from_userid_idempotent
  (have_core : bool) (userid r : list byte) (e : option Z) :
  strchr userid (char_val "<"%byte) = None ->
  mailbox_from_userid have_core userid = (Some r, e) ->
  mailbox_from_userid have_core r = (Some r, None).
Proof.
  intros Hlt. unfold mailbox_from_userid at 1. rewrite Hlt.
  destruct (is_valid_mailbox (Some userid)) eqn:Ev; [| discriminate].
  destruct have_core; [| discriminate].
  cbn [option_map]. intros [= <- <-].
  unfold mailbox_from_userid.
  rewrite (strlwr_strchr _ "<"%byte tolower_eqb_lt), cstr_strchr, Hlt.
  rewrite is_valid_mailbox_strlwr, is_valid_mailbox_cstr, Ev.
  cbn [option_map].
  assert (Hn : ~ In x00 (ascii_strlwr (cstr userid))).
  { pose proof (cstr_no_nul userid) as H0.
    induction (cstr userid) as [| a l IH]; [cbn; tauto |].
    cbn [In] in H0.
    rewrite strlwr_cons
      by (apply byte_eqb_neq; intros ->; tauto).
    cbn [In]. intros [H | H]; [| tauto].
    assert (E : Byte.eqb (ascii_tolower a) x00 = true)
      by (apply byte_eqb_eq; exact H).
    rewrite tolower_nul in E. apply byte_eqb_eq in E. subst a. tauto. }
  rewrite (cstr_id _ Hn), strlwr_idem. reflexivity.
Qed.

Lemma mailbox_from_userid_idempotent_witness :
  mailbox_from_userid true heine_mailbox_lower = (Some heine_mailbox_lower, None).
Proof.
  apply (mailbox_from_userid_idempotent true heine_mailbox heine_mailbox_lower
           None); reflexivity.
Defined.

Lemma high_bit_ascii (b : byte) :
  (Z.land (char_val b) 0x80 =? 0) = (b2z b <? 128).
Proof. destruct b; reflexivity. Qed.

Lemma non_ascii_not_nul (b : byte) : (b2z b <? 128) = false -> Byte.eqb b x00 = false.
Proof. destruct b; (reflexivity || discriminate). Qed.

Lemma invalid_chars_filter (s : list byte) :
  forall at_seen : bool,
    has_invalid_email_chars_loop at_seen (filter (fun b => b2z b <? 128) s)
    = has_invalid_email_chars_loop at_seen s.
Proof.
  induction s as [| a r IH]; intros at_seen; [reflexivity |].
  cbn [filter]. destruct (b2z a <? 128) eqn:Ea.
  - cbn [has_invalid_email_chars_loop]. rewrite !IH. reflexivity.
  - cbn [has_invalid_email_chars_loop].
    rewrite (non_ascii_not_nul a Ea), high_bit_ascii, Ea. cbn [negb].
    apply IH.
Qed.

(** X8.  [has_invalid_email_chars] looks at ASCII characters only: taking
    every byte above 0x7f out of a string does not change its answer. *)
Theorem has_invalid_email_chars_ignores_non_ascii (s : list byte) :
  has_invalid_email_chars (filter (fun b => b2z b <? 128) s)
  = has_invalid_email_chars s.
Proof. apply invalid_chars_filter. Qed.

(** * Further properties of g10/parse-packet.c *)

Lemma take_byte_remaining (s s' : IOBUF) (c : Z) :
  take_byte s = Some (c, s') -> remaining s = S (remaining s') /\ 0 <= c.
Proof.
  unfold take_byte, remaining. destruct (io_data s) as [| b r]; [discriminate |].
  intros [= <- <-]. cbn. split; [reflexivity | apply b2z_range].
Qed.

Lemma set_mode_remaining (m : iomode) (s : IOBUF) :
  remaining (set_mode m s) = remaining s.
Proof. reflexivity. Qed.

Lemma final_chunk_len_remaining (c : Z) (s s' : IOBUF) (n : Z) :
  final_chunk_len c s = Some (n, s') -> (remaining s' <= remaining s)%nat.
Proof.
  unfold final_chunk_len.
  destruct (c <? 192); [intros [= _ <-]; lia |].
  destruct (c <? 224).
  - destruct (take_byte s) as [[d s1] |] eqn:E1; [| discriminate].
    intros [= _ <-]. apply take_byte_remaining in E1. lia.
  - destruct (take_byte s) as [[b3 s1] |] eqn:E1; [| discriminate].
    destruct (take_byte s1) as [[b2 s2] |] eqn:E2; [| discriminate].
    destruct (take_byte s2) as [[b1 s3] |] eqn:E3; [| discriminate].
    destruct (take_byte s3) as [[b0 s4] |] eqn:E4; [| discriminate].
    intros [= _ <-].
    apply take_byte_remaining in E1, E2, E3, E4. lia.
Qed.

Lemma next_chunk_remaining (s s' : IOBUF) (n : Z) (l : bool) :
  next_chunk s = Some (n, l, s') -> (remaining s' < remaining s)%nat.
Proof.
  unfold next_chunk.
  destruct (take_byte s) as [[c s1] |] eqn:E1; [| discriminate].
  apply take_byte_remaining in E1.
  destruct ((224 <=? c) && (c <=? 254)); [intros [= _ _ <-]; lia |].
  destruct (final_chunk_len c s1) as [[k s2] |] eqn:E2; [| discriminate].
  intros [= _ _ <-]. apply final_chunk_len_remaining in E2. lia.
Qed.

(** Every byte [iobuf_get] hands out comes off the source. *)
Lemma iobuf_get_raw_remaining (s s' : IOBUF) (c : Z) :
  iobuf_get_raw s = (c, s') ->
  (remaining s' <= remaining s)%nat
  /\ (c <> -1 -> (remaining s' < remaining s)%nat).
Proof.
  unfold iobuf_get_raw. destruct (io_mode s) as [| | k last].
  - destruct (take_byte s) as [[d s1] |] eqn:E.
    + intros [= <- <-]. apply take_byte_remaining in E. lia.
    + intros [= <- <-]. lia.
  - destruct (take_byte s) as [[d s1] |] eqn:E.
    + intros [= <- <-]. apply take_byte_remaining in E. lia.
    + intros [= <- <-]. rewrite set_mode_remaining. lia.
  - destruct (0 <? k).
    + destruct (take_byte s) as [[d s1] |] eqn:E.
      * intros [= <- <-]. apply take_byte_remaining in E.
        rewrite set_mode_remaining. lia.
      * intros [= <- <-]. rewrite set_mode_remaining. lia.
    + destruct last; [intros [= <- <-]; rewrite set_mode_remaining; lia |].
      destruct (next_chunk s) as [[[n l] s1] |] eqn:En.
      * apply next_chunk_remaining in En.
        destruct (0 <? n).
        -- destruct (take_byte s1) as [[d s2] |] eqn:E.
           ++ intros [= <- <-]. apply take_byte_remaining in E.
              rewrite set_mode_remaining. lia.
           ++ intros [= <- <-]. rewrite set_mode_remaining. lia.
        -- intros [= <- <-]. rewrite set_mode_remaining. lia.
      * intros [= <- <-]. rewrite set_mode_remaining. lia.
Qed.

Ltac nofault :=
  let f := fresh "f" in
  let H := fresh "H" in
  intros f H; exfalso; revert H; discriminate.

Lemma tame_ret {A : Type} (a : A) : tame (ret a).
Proof.
  intros s. split; [nofault |]. intros a' s' [= _ <-]. lia.
Qed.

Lemma tame_bind_at {A B : Type} (m : M A) (k : A -> M B) (s : IOBUF) :
  tame_at m s ->
  (forall (a : A) (s1 : IOBUF), m s = Done a s1 -> tame_at (k a) s1) ->
  tame_at (bind m k) s.
Proof.
  intros [Hf Hd] Hk. unfold tame_at, bind.
  destruct (m s) as [a s1 | f].
  - destruct (Hk a s1 eq_refl) as [Hf1 Hd1]. split; [exact Hf1 |].
    intros b s' H. specialize (Hd a s1 eq_refl). specialize (Hd1 b s' H). lia.
  - split; [| discriminate]. intros f' [= <-]. apply Hf. reflexivity.
Qed.

Lemma tame_bind {A B : Type} (m : M A) (k : A -> M B) :
  tame m -> (forall a, tame (k a)) -> tame (bind m k).
Proof.
  intros Hm Hk s. apply tame_bind_at; [apply Hm | intros a s1 _; apply Hk].
Qed.

Lemma tame_raise {A : Type} : tame (@raise A EndOfInput).
Proof. intros s. split; [intros f [= <-]; reflexivity | discriminate]. Qed.

Lemma tame_get : tame iobuf_get.
Proof.
  intros s. unfold tame_at, iobuf_get.
  destruct (iobuf_get_raw s) as [c s1] eqn:E.
  split; [nofault |]. intros a s' [= _ <-].
  apply iobuf_get_raw_remaining in E. lia.
Qed.

Lemma tame_get_noeof : tame iobuf_get_noeof.
Proof.
  intros s. unfold tame_at, iobuf_get_noeof.
  destruct (iobuf_get_raw s) as [c s1] eqn:E.
  destruct (c =? -1); split; try nofault; try discriminate.
  - intros f [= <-]. reflexivity.
  - intros a s' [= _ <-]. apply iobuf_get_raw_remaining in E. lia.
Qed.

Lemma tame_state {A : Type} (f : IOBUF -> A) (g : IOBUF -> IOBUF) :
  (forall s, remaining (g s) = remaining s) ->
  tame (fun s => Done (f s) (g s)).
Proof.
  intros Hg s. split; [nofault |]. intros a s' [= _ <-]. rewrite Hg. lia.
Qed.

Lemma tame_tell : tame iobuf_tell.
Proof. apply (tame_state io_pos (fun s => s)). reflexivity. Qed.

Lemma tame_in_block_mode : tame iobuf_in_block_mode.
Proof.
  apply (tame_state (fun s => match io_mode s with Plain => false | _ => true end)
           (fun s => s)).
  reflexivity.
Qed.

Lemma tame_get_source : tame get_source.
Proof. apply (tame_state (fun s => s) (fun s => s)). reflexivity. Qed.

Lemma tame_set_block_mode (n : Z) : tame (iobuf_set_block_mode n).
Proof. apply (tame_state (fun _ => tt)). reflexivity. Qed.

Lemma tame_set_partial_block_mode (n : Z) : tame (iobuf_set_partial_block_mode n).
Proof. apply (tame_state (fun _ => tt)). reflexivity. Qed.

Lemma iobuf_read_loop_remaining (n : nat) :
  forall (s s' : IOBUF) (bs : list byte),
    iobuf_read_loop n s = (bs, s') ->
    (remaining s' + length bs <= remaining s)%nat.
Proof.
  induction n as [| n IH]; intros s s' bs; cbn [iobuf_read_loop].
  - intros [= <- <-]. cbn. lia.
  - destruct (iobuf_get_raw s) as [c s1] eqn:E.
    apply iobuf_get_raw_remaining in E.
    destruct (Z.eqb_spec c (-1)) as [-> | Hc].
    + intros [= <- <-]. cbn. lia.
    + destruct (iobuf_read_loop n s1) as [bs1 s2] eqn:E1.
      intros [= <- <-]. apply IH in E1. cbn [length]. lia.
Qed.

(** [iobuf_read] takes from the source at least the bytes it returns. *)
Lemma iobuf_read_remaining (n : Z) (s s' : IOBUF) (k : Z) (bs : list byte) :
  iobuf_read n s = Done (k, bs) s' ->
  (remaining s' + length bs <= remaining s)%nat
  /\ (k <> -1 -> 0 < n -> bs <> []).
Proof.
  unfold iobuf_read. destruct (iobuf_read_loop (Z.to_nat n) s) as [l s1] eqn:E.
  apply iobuf_read_loop_remaining in E.
  destruct l as [| b l].
  - intros [= <- <- <-]. split; [exact E |].
    destruct (Z.ltb_spec 0 n); [congruence | lia].
  - intros [= <- <- <-]. split; [exact E | discriminate].
Qed.

Lemma tame_read (n : Z) : tame (iobuf_read n).
Proof.
  intros s. split.
  - unfold iobuf_read. destruct (iobuf_read_loop (Z.to_nat n) s) as [[| b l] s1];
      discriminate.
  - intros [k bs] s' H. apply iobuf_read_remaining in H. lia.
Qed.

Create HintDb tame.

#[local] Hint Resolve tame_ret tame_get_noeof tame_get tame_tell
  tame_in_block_mode tame_get_source tame_set_block_mode
  tame_set_partial_block_mode tame_read : tame.

(** Take an action apart along its sequencing and its case distinctions;
    the actions already known to be tame are looked up. *)
Ltac tame_auto :=
  repeat first
    [ solve [auto 1 with tame nocore]
    | assumption
    | apply tame_raise
    | apply tame_bind; [| intros ?]
    | progress cbv zeta
    | match goal with
      | |- tame (if ?c then _ else _) => destruct c
      | |- tame (match ?x with _ => _ end) => destruct x
      end ].

Lemma tame_read_16 : tame read_16.
Proof. unfold read_16. tame_auto. Qed.

Lemma tame_read_32 : tame read_32.
Proof. unfold read_32. tame_auto. Qed.

#[local] Hint Resolve tame_read_16 tame_read_32 : tame.

Lemma tame_read_len (k : nat) :
  forall (pktlen : Z) (hdr : list byte), tame (read_len k pktlen hdr).
Proof.
  induction k as [| k IH]; intros pktlen hdr; cbn [read_len]; tame_auto.
Qed.

Lemma tame_read_bytes (n : nat) : tame (read_bytes n).
Proof. induction n as [| n IH]; cbn [read_bytes]; tame_auto. Qed.

Lemma tame_read_upto (k : nat) : forall pktlen : Z, tame (read_upto k pktlen).
Proof.
  induction k as [| k IH]; intros pktlen; cbn [read_upto]; tame_auto.
Qed.

Lemma tame_get_n (n : nat) : tame (get_n n).
Proof. induction n as [| n IH]; cbn [get_n]; tame_auto. Qed.

Lemma tame_mpi_read (nmax : Z) : tame (mpi_read nmax).
Proof. unfold mpi_read. tame_auto. Qed.

#[local] Hint Resolve tame_read_len tame_read_bytes tame_read_upto tame_get_n
  tame_mpi_read : tame.

(** The draining loop ends before its fuel does. *)
Lemma drain_ends (fuel : nat) :
  forall s : IOBUF,
    (remaining s < fuel)%nat -> tame_at (drain fuel) s.
Proof.
  induction fuel as [| f IH]; intros s Hf; [lia |].
  cbn [drain]. apply tame_bind_at; [apply tame_get |].
  intros c s1 Hget. unfold iobuf_get in Hget.
  destruct (iobuf_get_raw s) as [c0 s0] eqn:E. injection Hget as -> ->.
  apply iobuf_get_raw_remaining in E.
  destruct (Z.eqb_spec c (-1)) as [-> | Hc]; [apply tame_ret |].
  apply IH. lia.
Qed.

Lemma tame_drain_all : tame drain_all.
Proof. intros s. unfold drain_all. apply drain_ends. unfold remaining. lia. Qed.

#[local] Hint Resolve tame_drain_all : tame.

Lemma tame_skip_rest (pktlen : Z) : tame (skip_rest pktlen).
Proof. unfold skip_rest. tame_auto. Qed.

#[local] Hint Resolve tame_skip_rest : tame.

Lemma tame_skip_packet (list_mode : bool) (pkttype pktlen : Z) :
  tame (skip_packet list_mode pkttype pktlen).
Proof.
  unfold skip_packet. tame_auto.
Qed.

Lemma tame_leave {A : Type} (rc pktlen : Z) (a : A) : tame (leave rc pktlen a).
Proof. unfold leave. tame_auto. Qed.

#[local] Hint Resolve tame_skip_packet tame_leave : tame.

(** ** The subpacket scan *)

(** Asked for the creation time or the issuer, the scan does not reach
    [BUG()]: the type found is the type asked for. *)
Lemma subpkt_scan_no_bug (fuel : nat) :
  forall (buf : list byte) (reqtype p buflen : Z),
    reqtype = SIGSUBPKT_SIG_CREATED \/ reqtype = SIGSUBPKT_ISSUER ->
    subpkt_scan fuel buf reqtype p buflen <> SubBug.
Proof.
  induction fuel as [| f IH]; intros buf reqtype p buflen Hreq; [discriminate |].
  cbn [subpkt_scan].
  destruct (buflen =? 0); [discriminate |].
  destruct (subpkt_length buf p buflen) as [[[n p'] buflen'] |]; [| discriminate].
  destruct (buflen' <? n); [discriminate |].
  destruct (reqtype <? 0); [apply IH; exact Hreq |].
  match goal with
  | |- context [?t =? reqtype] => destruct (Z.eqb_spec t reqtype) as [E | E]
  end; [| apply IH; exact Hreq].
  rewrite E. unfold subpkt_found.
  destruct (buflen' <? wrap (n - 1)); [discriminate |].
  destruct Hreq as [-> | ->]; cbn [SIGSUBPKT_SIG_CREATED SIGSUBPKT_ISSUER Z.eqb Pos.eqb];
    match goal with
    | |- context [if ?c then _ else _] => destruct c
    end; discriminate.
Qed.

Lemma parse_sig_subpkt_no_bug (buffer : option (list byte)) (reqtype : Z) :
  reqtype = SIGSUBPKT_SIG_CREATED \/ reqtype = SIGSUBPKT_ISSUER ->
  parse_sig_subpkt buffer reqtype <> SubBug.
Proof.
  intros Hreq. destruct buffer as [buf |]; [| discriminate].
  apply subpkt_scan_no_bug. exact Hreq.
Qed.

(** ** The body parsers give no byte back and end *)

Lemma tame_extract_v4_info (sig : PKT_signature) : tame (extract_v4_info sig).
Proof.
  unfold extract_v4_info. apply tame_bind.
  - destruct (parse_sig_subpkt (sig_hashed_data sig) SIGSUBPKT_SIG_CREATED) eqn:E;
      tame_auto; exfalso.
    + exact (parse_sig_subpkt_no_bug _ _ (or_introl eq_refl) E).
    + exact (parse_sig_subpkt_ends _ _ E).
  - intros sig'.
    destruct (parse_sig_subpkt (sig_unhashed_data sig') SIGSUBPKT_ISSUER) eqn:E;
      tame_auto; exfalso.
    + exact (parse_sig_subpkt_no_bug _ _ (or_intror eq_refl) E).
    + exact (parse_sig_subpkt_ends _ _ E).
Qed.

#[local] Hint Resolve tame_extract_v4_info : tame.

Lemma tame_symkeyenc_fill
  (version cipher_algo s2kmode hash_algo minlen pktlen : Z) :
  tame (symkeyenc_fill version cipher_algo s2kmode hash_algo minlen pktlen).
Proof. unfold symkeyenc_fill. tame_auto. Qed.

(** The assertion of [parse_symkeyenc] is not reached with a failing
    counter, so the parser too stops only for the end of the input. *)
Lemma tame_parse_symkeyenc (pkttype pktlen : Z) (packet : PACKET) :
  0 <= pktlen < 2 ^ 32 ->
  tame (parse_symkeyenc pkttype pktlen packet).
Proof.
  intros Hp. unfold parse_symkeyenc.
  destruct (Z.ltb_spec pktlen 4) as [Hs | Hs]; [apply tame_leave |].
  apply tame_bind; [apply tame_get_noeof |].
  intros version. cbv zeta. rewrite (dec_small pktlen 1) by lia.
  destruct (negb (version =? 4)); [apply tame_leave |].
  destruct (Z.ltb_spec 200 (pktlen - 1)) as [Hb | Hb]; [apply tame_leave |].
  apply tame_bind; [apply tame_get_noeof | intros cipher_algo].
  apply tame_bind; [apply tame_get_noeof | intros s2kmode].
  apply tame_bind; [apply tame_get_noeof | intros hash_algo].
  rewrite (dec_small (pktlen - 1) 1), (dec_small (pktlen - 1 - 1) 1),
    (dec_small (pktlen - 1 - 1 - 1) 1) by lia.
  destruct (symkeyenc_minlen s2kmode) as [minlen |] eqn:Emin;
    [| apply tame_leave].
  destruct (Z.ltb_spec (pktlen - 1 - 1 - 1 - 1) minlen) as [Hm | Hm];
    [apply tame_leave |].
  intros s. apply tame_bind_at; [apply tame_symkeyenc_fill |].
  intros [k p] s1 Hfill.
  apply symkeyenc_fill_counter in Hfill; [| assumption | lia].
  subst p. cbn [Z.eqb negb]. apply tame_leave.
Qed.

Lemma tame_parse_pubkeyenc (pkttype pktlen : Z) (packet : PACKET) :
  tame (parse_pubkeyenc pkttype pktlen packet).
Proof. unfold parse_pubkeyenc. tame_auto. Qed.

Lemma tame_read_subpkt_area (pktlen : Z) : tame (read_subpkt_area pktlen).
Proof. unfold read_subpkt_area. tame_auto. Qed.

Lemma tame_read_sig_mpis (pktlen : Z) (sig : PKT_signature) :
  tame (read_sig_mpis pktlen sig).
Proof. unfold read_sig_mpis. tame_auto. Qed.

#[local] Hint Resolve tame_read_subpkt_area tame_read_sig_mpis : tame.

Lemma tame_signature_tail (is_v4 : bool) (pktlen : Z) (sig : PKT_signature) :
  tame (signature_tail is_v4 pktlen sig).
Proof. unfold signature_tail. tame_auto. Qed.

#[local] Hint Resolve tame_signature_tail : tame.

Lemma tame_parse_signature (pkttype pktlen : Z) (sig : PKT_signature) :
  tame (parse_signature pkttype pktlen sig).
Proof. unfold parse_signature. tame_auto. Qed.

Lemma tame_parse_onepass_sig (pkttype pktlen : Z) (ops : PKT_onepass_sig) :
  tame (parse_onepass_sig pkttype pktlen ops).
Proof. unfold parse_onepass_sig. tame_auto. Qed.

Lemma tame_read_explicit_s2k (cert : PKT_secret_cert) (pktlen : Z) :
  tame (read_explicit_s2k cert pktlen).
Proof. unfold read_explicit_s2k. tame_auto. Qed.

#[local] Hint Resolve tame_read_explicit_s2k : tame.

Lemma tame_read_protection (fake_hash : Z -> Z) (cert : PKT_secret_cert)
  (pktlen : Z) : tame (read_protection fake_hash cert pktlen).
Proof. unfold read_protection. tame_auto. Qed.

Lemma tame_read_protection_rsa (cert : PKT_secret_cert) (pktlen : Z) :
  tame (read_protection_rsa cert pktlen).
Proof. unfold read_protection_rsa. tame_auto. Qed.

#[local] Hint Resolve tame_read_protection tame_read_protection_rsa : tame.

Lemma tame_parse_certificate (list_mode : bool) (pkttype pktlen : Z)
  (hdr : list byte) (hdrlen : Z) (pkt : PACKET) :
  tame (parse_certificate list_mode pkttype pktlen hdr hdrlen pkt).
Proof. unfold parse_certificate. tame_auto. Qed.

Lemma tame_parse_user_id (pkttype pktlen : Z) (packet : PACKET) :
  tame (parse_user_id pkttype pktlen packet).
Proof. unfold parse_user_id. tame_auto. Qed.

Lemma tame_parse_comment (pkttype pktlen : Z) (packet : PACKET) :
  tame (parse_comment pkttype pktlen packet).
Proof. unfold parse_comment. tame_auto. Qed.

Lemma tame_parse_trust (pkttype pktlen : Z) : tame (parse_trust pkttype pktlen).
Proof. unfold parse_trust. tame_auto. Qed.

Lemma tame_read_name (k : nat) : forall pktlen : Z, tame (read_name k pktlen).
Proof. induction k as [| k IH]; intros pktlen; cbn [read_name]; tame_auto. Qed.

Lemma tame_read_name_eof (k : nat) : tame (read_name_eof k).
Proof. induction k as [| k IH]; cbn [read_name_eof]; tame_auto. Qed.

#[local] Hint Resolve tame_read_name tame_read_name_eof : tame.

Lemma tame_parse_plaintext (pkttype pktlen : Z) (pkt : PACKET) :
  tame (parse_plaintext pkttype pktlen pkt).
Proof. unfold parse_plaintext. tame_auto. Qed.

Lemma tame_parse_compressed (pkttype pktlen : Z) (pkt : PACKET) :
  tame (parse_compressed pkttype pktlen pkt).
Proof. unfold parse_compressed. tame_auto. Qed.

Lemma tame_parse_encrypted (pkttype pktlen : Z) (pkt : PACKET) :
  tame (parse_encrypted pkttype pktlen pkt).
Proof. unfold parse_encrypted. tame_auto. Qed.

#[local] Hint Resolve tame_parse_pubkeyenc
  tame_parse_signature tame_parse_onepass_sig tame_parse_certificate
  tame_parse_user_id tame_parse_comment tame_parse_trust tame_parse_plaintext
  tame_parse_compressed tame_parse_encrypted : tame.

Lemma tame_dispatch (list_mode : bool) (pkttype pktlen : Z) (hdr : list byte)
  (packet : PACKET) :
  0 <= pktlen < 2 ^ 32 ->
  tame (dispatch list_mode pkttype pktlen hdr packet).
Proof.
  intros Hp.
  pose proof (fun p => tame_parse_symkeyenc pkttype pktlen p Hp) as Hsym.
  unfold dispatch. tame_auto.
Qed.

Lemma tame_read_header : tame read_header.
Proof. unfold read_header. tame_auto. Qed.

(** ** The packet length the header decoder reports *)

Lemma iobuf_get_raw_range (s s' : IOBUF) (c : Z) :
  iobuf_get_raw s = (c, s') -> c = -1 \/ 0 <= c < 256.
Proof.
  assert (Ht : forall s0 c0 s1, take_byte s0 = Some (c0, s1) -> 0 <= c0 < 256).
  { intros s0 c0 s1. unfold take_byte. destruct (io_data s0); [discriminate |].
    intros [= <- _]. apply b2z_range. }
  unfold iobuf_get_raw.
  repeat match goal with
         | |- (match take_byte ?x with _ => _ end) = _ -> _ =>
             let E := fresh "E" in
             destruct (take_byte x) as [[? ?] |] eqn:E; [apply Ht in E |]
         | |- (match ?x with _ => _ end) = _ -> _ => destruct x
         | |- (if ?x then _ else _) = _ -> _ => destruct x
         end; intros [= <- _]; auto.
Qed.

Lemma get_noeof_range (s s' : IOBUF) (c : Z) :
  iobuf_get_noeof s = Done c s' -> 0 <= c < 256.
Proof.
  unfold iobuf_get_noeof. destruct (iobuf_get_raw s) as [d s1] eqn:E.
  apply iobuf_get_raw_range in E.
  destruct (Z.eqb_spec d (-1)); [discriminate |].
  intros [= <- _]. destruct E; [contradiction | assumption].
Qed.

Lemma get_range (s s' : IOBUF) (c : Z) :
  iobuf_get s = Done c s' -> c = -1 \/ 0 <= c < 256.
Proof.
  unfold iobuf_get. destruct (iobuf_get_raw s) as [d s1] eqn:E.
  apply iobuf_get_raw_range in E. intros [= <- _]. exact E.
Qed.

Lemma read_len_range (k : nat) :
  forall (acc : Z) (hdr : list byte) (s s' : IOBUF) (l : Z) (hdr' : list byte),
    read_len k acc hdr s = Done (l, hdr') s' ->
    0 <= acc < 2 ^ 32 -> 0 <= l < 2 ^ 32.
Proof.
  induction k as [| k IH]; intros acc hdr s s' l hdr' H Hacc.
  - cbn in H. injection H as <- _ _. exact Hacc.
  - cbn [read_len] in H. apply bind_inv in H. destruct H as (c & s1 & Hc & H).
    apply get_noeof_range in Hc. apply IH in H; [exact H |].
    apply lor_bound32; [apply wrap_range | lia].
Qed.

(** In every mode of the source, the length the decoder reports fits an
    [unsigned long], and the decoder has taken the header byte off the
    source. *)
Lemma read_header_ok (s s' : IOBUF) (pkttype pktlen : Z) (hdr : list byte)
  (pgp3 : bool) :
  read_header s = Done (HdrOk pkttype pktlen hdr pgp3) s' ->
  0 <= pktlen < 2 ^ 32 /\ (remaining s' < remaining s)%nat.
Proof.
  intros H. split.
  - revert H. unfold read_header. intros H.
    apply bind_inv in H. destruct H as (ctb & s1 & _ & H).
    destruct (ctb =? -1); [discriminate |].
    destruct (Z.land ctb 128 =? 0); [discriminate |].
    destruct (negb (Z.land ctb 64 =? 0)).
    + apply bind_inv in H. destruct H as (c & s2 & Hc & H).
      apply get_range in Hc.
      destruct (Z.eqb_spec c (-1)); [discriminate |].
      destruct (c <? 192); [injection H as _ <- _ _ _; lia |].
      destruct (c <? 224).
      { apply bind_inv in H. destruct H as (d & s3 & _ & H).
        destruct (d =? -1); [discriminate |].
        injection H as _ <- _ _ _. apply wrap_range. }
      destruct (c <? 255).
      { apply bind_inv in H. destruct H as (b3 & s3 & H3 & H).
        apply bind_inv in H. destruct H as (b2 & s4 & H2 & H).
        apply bind_inv in H. destruct H as (b1 & s5 & H1 & H).
        apply bind_inv in H. destruct H as (b0 & s6 & H0 & H).
        apply get_noeof_range in H3, H2, H1. apply get_range in H0.
        destruct (Z.eqb_spec b0 (-1)); [discriminate |].
        rewrite be32_lor in H by lia.
        injection H as _ <- _ _ _. lia. }
      apply bind_inv in H. destruct H as (u & s3 & _ & H).
      injection H as _ <- _ _ _. lia.
    + destruct ((if Z.land ctb 3 =? 3 then 0 else Z.shiftl 1 (Z.land ctb 3)) =? 0).
      * apply bind_inv in H. destruct H as (u & s3 & _ & H).
        injection H as _ <- _ _ _. lia.
      * apply bind_inv in H. destruct H as ([l h] & s3 & Hr & H).
        injection H as _ <- _ _ _.
        apply read_len_range in Hr; [exact Hr | lia].
  - revert H. unfold read_header. intros H.
    apply bind_inv in H. destruct H as (ctb & s1 & Hget & H).
    unfold iobuf_get in Hget. destruct (iobuf_get_raw s) as [c0 s0] eqn:E.
    injection Hget as -> ->. apply iobuf_get_raw_remaining in E.
    destruct (Z.eqb_spec ctb (-1)) as [-> | Hne]; [discriminate |].
    assert (Hrest : (remaining s' <= remaining s1)%nat); [| lia].
    revert H.
    match goal with
    | |- ?k s1 = _ -> _ =>
        assert (Hk : tame k); [| intros H; exact (proj2 (Hk s1) _ _ H)]
    end.
    tame_auto.
Qed.

(** ** The copy loops end *)

Lemma copy_to_eof_ends (fuel : nat) :
  forall (out : SINK) (s : IOBUF),
    (remaining s < fuel)%nat -> tame_at (copy_to_eof fuel out) s.
Proof.
  induction fuel as [| f IH]; intros out s Hf; [lia |].
  cbn [copy_to_eof]. apply tame_bind_at; [apply tame_read |].
  intros [n buf] s1 E.
  apply iobuf_read_remaining in E. destruct E as [Hle Hne].
  destruct (Z.eqb_spec n (-1)) as [-> | Hn]; [apply tame_ret |].
  specialize (Hne Hn ltac:(lia)).
  assert (Hbuf : (1 <= length buf)%nat)
    by (destruct buf; [contradiction | cbn; lia]).
  destruct (iobuf_write out buf) as [w out'].
  destruct (negb (w =? 0)); [apply tame_ret |].
  apply IH. lia.
Qed.

Lemma copy_definite_ends (fuel : nat) :
  forall (pktlen : Z) (out : SINK) (s : IOBUF),
    (remaining s < fuel)%nat ->
    0 <= pktlen ->
    tame_at (copy_definite fuel pktlen out) s.
Proof.
  induction fuel as [| f IH]; intros pktlen out s Hf Hp; [lia |].
  cbn [copy_definite].
  destruct (Z.eqb_spec pktlen 0) as [-> | Hnz]; [apply tame_ret |].
  set (n0 := if 100 <? pktlen then 100 else pktlen).
  assert (Hn0 : 0 < n0) by (subst n0; destruct (100 <? pktlen); lia).
  apply tame_bind_at; [apply tame_read |].
  intros [n buf] s1 E.
  apply iobuf_read_remaining in E. destruct E as [Hle Hne].
  destruct (Z.eqb_spec n (-1)) as [-> | Hn]; [apply tame_ret |].
  specialize (Hne Hn Hn0).
  assert (Hbuf : (1 <= length buf)%nat)
    by (destruct buf; [contradiction | cbn; lia]).
  destruct (iobuf_write out buf) as [w out'].
  destruct (negb (w =? 0)); [apply tame_ret |].
  apply IH; [lia | apply wrap_range].
Qed.

Lemma tame_copy_packet (out : SINK) (pkttype pktlen : Z) :
  0 <= pktlen -> tame (copy_packet out pkttype pktlen).
Proof.
  intros Hp s. unfold copy_packet.
  apply tame_bind_at; [apply tame_in_block_mode |].
  intros b s1 [= _ <-].
  destruct b; [apply copy_to_eof_ends; unfold remaining; lia |].
  destruct ((pktlen =? 0) && (pkttype =? PKT_COMPRESSED));
    [apply copy_to_eof_ends; unfold remaining; lia |].
  apply copy_definite_ends; [unfold remaining; lia | exact Hp].
Qed.

(** ** One call of parse *)

Lemma retpos_done (want_retpos : bool) (s : IOBUF) :
  (if want_retpos then p <- iobuf_tell ;; ret (Some p) else ret None) s
  = Done (if want_retpos then Some (io_pos s) else None) s.
Proof. destruct want_retpos; reflexivity. Qed.

(** What [parse] does after the header: copy, skip, or hand the body to
    its parser. *)
Lemma parse_after_header (list_mode : bool) (packet : PACKET) (reqtype : Z)
  (want_retpos : bool) (out : option SINK) (do_skip : bool) (s s1 : IOBUF)
  (pkttype pktlen : Z) (hdr : list byte) (pgp3 : bool) :
  pkt packet = Generic_NULL ->
  read_header s = Done (HdrOk pkttype pktlen hdr pgp3) s1 ->
  let retpos := if want_retpos then Some (io_pos s) else None in
  parse list_mode packet reqtype want_retpos out do_skip s
  = match (if pkttype =? 0 then None else out) with
    | Some o =>
        let (w, o) := iobuf_write o hdr in
        if w =? -1
        then ret (mkParsed G10ERR_WRITE_FILE false packet retpos (Some o))
        else
          '(rc, o) <- copy_packet o pkttype pktlen ;;
          ret (mkParsed rc false packet retpos (Some o))
    | None =>
        if do_skip || (pkttype =? 0)
           || (negb (reqtype =? 0) && negb (pkttype =? reqtype))
        then
          skip_packet list_mode pkttype pktlen ;;;
          ret (mkParsed 0 true packet retpos out)
        else
          '(rc, filled) <- dispatch list_mode pkttype pktlen hdr packet ;;
          ret (mkParsed rc false filled retpos out)
    end s1.
Proof.
  intros Hnull Hhdr retpos. unfold parse. rewrite Hnull.
  rewrite (bind_done _ _ _ _ _ (retpos_done want_retpos s)).
  rewrite (bind_done _ _ _ _ _ Hhdr). reflexivity.
Qed.

Lemma parse_no_header (list_mode : bool) (packet : PACKET) (reqtype : Z)
  (want_retpos : bool) (out : option SINK) (do_skip : bool) (s s1 : IOBUF)
  (h : header) (rc : Z) :
  pkt packet = Generic_NULL ->
  read_header s = Done h s1 ->
  h = HdrEof /\ rc = -1 \/ h = HdrError rc ->
  parse list_mode packet reqtype want_retpos out do_skip s
  = Done (mkParsed rc false packet
            (if want_retpos then Some (io_pos s) else None) out) s1.
Proof.
  intros Hnull Hhdr Hh. unfold parse. rewrite Hnull.
  rewrite (bind_done _ _ _ _ _ (retpos_done want_retpos s)).
  rewrite (bind_done _ _ _ _ _ Hhdr).
  destruct Hh as [[-> ->] | ->]; reflexivity.
Qed.

Lemma parse_header_fault (list_mode : bool) (packet : PACKET) (reqtype : Z)
  (want_retpos : bool) (out : option SINK) (do_skip : bool) (s : IOBUF)
  (f : fault) :
  pkt packet = Generic_NULL ->
  read_header s = Fault f ->
  parse list_mode packet reqtype want_retpos out do_skip s = Fault f.
Proof.
  intros Hnull Hhdr. unfold parse. rewrite Hnull.
  rewrite (bind_done _ _ _ _ _ (retpos_done want_retpos s)).
  rewrite (bind_fault _ _ _ _ Hhdr). reflexivity.
Qed.

Lemma read_header_error_code (s s1 : IOBUF) (rc : Z) :
  read_header s = Done (HdrError rc) s1 -> rc = G10ERR_INVALID_PACKET.
Proof.
  unfold read_header. intros H.
  repeat first
    [ discriminate
    | match type of H with
      | Done (HdrError _) _ = Done (HdrError _) _ => injection H as <- _
      | ret _ _ = _ => unfold ret in H
      | (if ?c then _ else _) _ = _ => destruct c
      | bind _ _ _ = _ =>
          let a := fresh "a" in let s2 := fresh "s" in let Ha := fresh "Ha" in
          apply bind_inv in H; destruct H as (a & s2 & Ha & H)
      | (let (_, _) := ?x in _) _ = _ => destruct x
      | (match ?x with _ => _ end) _ = _ => destruct x
      end ]; reflexivity.
Qed.

(** One call of [parse] on a packet whose body pointer is null stops
    early only for the end of the input and gives no byte back; when it
    asks for the packet to be skipped or returns 0 it has taken at least
    the header byte, and a skipped packet is handed back untouched. *)
Lemma parse_progress (list_mode : bool) (packet : PACKET) (reqtype : Z)
  (want_retpos : bool) (out : option SINK) (do_skip : bool) (s : IOBUF) :
  pkt packet = Generic_NULL ->
  (forall f : fault,
      parse list_mode packet reqtype want_retpos out do_skip s = Fault f ->
      f = EndOfInput)
  /\ forall (r : parsed) (s' : IOBUF),
       parse list_mode packet reqtype want_retpos out do_skip s = Done r s' ->
       (remaining s' <= remaining s)%nat
       /\ (p_skip r = true \/ p_rc r = 0 -> (remaining s' < remaining s)%nat)
       /\ (p_skip r = true -> p_pkt r = packet).
Proof.
  intros Hnull.
  destruct (read_header s) as [h s1 | f] eqn:Hhdr.
  - destruct h as [| rc | pkttype pktlen hdr pgp3].
    + rewrite (parse_no_header list_mode packet reqtype want_retpos out do_skip
                 s s1 HdrEof (-1) Hnull Hhdr (or_introl (conj eq_refl eq_refl))).
      split; [nofault |]. intros r s' [= <- <-]. cbn [p_skip p_rc p_pkt].
      pose proof (proj2 (tame_read_header s) _ _ Hhdr) as Hle.
      split; [exact Hle |]. split; [intros [E | E]; discriminate | reflexivity].
    + rewrite (parse_no_header list_mode packet reqtype want_retpos out do_skip
                 s s1 (HdrError rc) rc Hnull Hhdr (or_intror eq_refl)).
      split; [nofault |]. intros r s' [= <- <-]. cbn [p_skip p_rc p_pkt].
      pose proof (proj2 (tame_read_header s) _ _ Hhdr) as Hle.
      split; [exact Hle |].
      rewrite (read_header_error_code _ _ _ Hhdr).
      split; [intros [E | E]; discriminate | reflexivity].
    + rewrite (parse_after_header list_mode packet reqtype want_retpos out do_skip
                 s s1 pkttype pktlen hdr pgp3 Hnull Hhdr).
      destruct (read_header_ok _ _ _ _ _ _ Hhdr) as [Hlen Hlt].
      match goal with
      | |- (forall f, ?k s1 = _ -> _) /\ _ => assert (Hk : tame k)
      end.
      { destruct (if pkttype =? 0 then None else out) as [o |].
        - destruct (iobuf_write o hdr) as [w o'].
          destruct (w =? -1); [apply tame_ret |].
          apply tame_bind; [apply tame_copy_packet; lia |].
          intros [rc o2]. apply tame_ret.
        - pose proof (tame_dispatch list_mode pkttype pktlen hdr packet Hlen).
          tame_auto. }
      destruct (Hk s1) as [Hf Hd]. split; [exact Hf |].
      intros r s' H. specialize (Hd r s' H).
      split; [lia |]. split; [intros _; lia |].
      revert H.
      destruct (if pkttype =? 0 then None else out) as [o |].
      * destruct (iobuf_write o hdr) as [w o'].
        destruct (w =? -1); [intros [= <- _]; discriminate |].
        intros H. apply bind_inv in H. destruct H as ([rc o2] & s2 & _ & H).
        injection H as <- _. discriminate.
      * destruct (do_skip || (pkttype =? 0)
                  || negb (reqtype =? 0) && negb (pkttype =? reqtype)).
        -- intros H. apply bind_inv in H. destruct H as (u & s2 & _ & H).
           injection H as <- _. reflexivity.
        -- intros H. apply bind_inv in H. destruct H as ([rc p2] & s2 & _ & H).
           injection H as <- _. discriminate.
  - rewrite (parse_header_fault list_mode packet reqtype want_retpos out do_skip
               s f Hnull Hhdr).
    split; [| discriminate].
    intros f' [= <-]. exact (proj1 (tame_read_header s) _ Hhdr).
Qed.

(** ** The loops over packets end *)

Lemma parse_until_kept_tame (list_mode : bool) (reqtype : Z) (want_retpos : bool)
  (fuel : nat) :
  forall (packet : PACKET) (s : IOBUF),
    pkt packet = Generic_NULL ->
    (remaining s < fuel)%nat ->
    tame_at (parse_until_kept list_mode fuel packet reqtype want_retpos) s.
Proof.
  induction fuel as [| f IH]; intros packet s Hnull Hf; [lia |].
  cbn [parse_until_kept].
  destruct (parse_progress list_mode packet reqtype want_retpos None false s Hnull)
    as [Hno Hd].
  apply tame_bind_at; [split; [exact Hno | intros r s1 H; apply (Hd r s1 H)] |].
  intros r s1 H. destruct (Hd r s1 H) as (_ & Hlt & Hpkt).
  destruct (p_skip r) eqn:Es; [| apply tame_ret].
  apply IH; [rewrite Hpkt by reflexivity; exact Hnull |].
  specialize (Hlt (or_introl eq_refl)). lia.
Qed.

(** The loop of [parse_packet] and [search_packet] does the same with
    every fuel above the number of bytes left. *)
Lemma parse_until_kept_fuel (list_mode : bool) (reqtype : Z) (want_retpos : bool)
  (f1 : nat) :
  forall (f2 : nat) (packet : PACKET) (s : IOBUF),
    pkt packet = Generic_NULL ->
    (remaining s < f1)%nat -> (remaining s < f2)%nat ->
    parse_until_kept list_mode f1 packet reqtype want_retpos s
    = parse_until_kept list_mode f2 packet reqtype want_retpos s.
Proof.
  induction f1 as [| f1 IH]; intros f2 packet s Hnull H1 H2; [lia |].
  destruct f2 as [| f2]; [lia |].
  cbn [parse_until_kept]. unfold bind.
  destruct (parse_progress list_mode packet reqtype want_retpos None false s Hnull)
    as [_ Hd].
  destruct (parse list_mode packet reqtype want_retpos None false s)
    as [r s1 | e]; [| reflexivity].
  destruct (Hd r s1 eq_refl) as (_ & Hlt & Hpkt).
  destruct (p_skip r) eqn:Es; [| reflexivity].
  specialize (Hlt (or_introl eq_refl)).
  apply IH; [rewrite Hpkt by reflexivity; exact Hnull | lia | lia].
Qed.

Lemma tame_skip_some_packets (list_mode : bool) (n : nat) :
  tame (skip_some_packets list_mode n).
Proof.
  induction n as [| n IH]; [apply tame_ret |].
  cbn [skip_some_packets]. intros s.
  destruct (parse_progress list_mode init_packet 0 false None true s eq_refl)
    as [Hno Hd].
  apply tame_bind_at; [split; [exact Hno | intros r s1 H; apply (Hd r s1 H)] |].
  intros r s1 _. destruct (p_rc r =? 0); [apply IH | apply tame_ret].
Qed.

Lemma copy_loop_tame (list_mode : bool) (fuel : nat) :
  forall (out : SINK) (s : IOBUF),
    (remaining s < fuel)%nat -> tame_at (copy_loop list_mode fuel out) s.
Proof.
  induction fuel as [| f IH]; intros out s Hf; [lia |].
  cbn [copy_loop].
  destruct (parse_progress list_mode init_packet 0 false (Some out) false s eq_refl)
    as [Hno Hd].
  apply tame_bind_at; [split; [exact Hno | intros r s1 H; apply (Hd r s1 H)] |].
  intros r s1 H. destruct (Hd r s1 H) as (_ & Hlt & _).
  destruct (Z.eqb_spec (p_rc r) 0) as [E | E]; [| apply tame_ret].
  apply IH. specialize (Hlt (or_intror E)). lia.
Qed.

Lemma copy_some_loop_tame (list_mode : bool) (stopoff : Z) (fuel : nat) :
  forall (out : SINK) (s : IOBUF),
    (remaining s < fuel)%nat ->
    tame_at (copy_some_loop list_mode fuel out stopoff) s.
Proof.
  induction fuel as [| f IH]; intros out s Hf; [lia |].
  cbn [copy_some_loop].
  apply tame_bind_at; [apply tame_tell |].
  intros pos s0 [= _ <-].
  destruct (stopoff <=? pos); [apply tame_ret |].
  destruct (parse_progress list_mode init_packet 0 false (Some out) false s eq_refl)
    as [Hno Hd].
  apply tame_bind_at; [split; [exact Hno | intros r s1 H; apply (Hd r s1 H)] |].
  intros r s1 H. destruct (Hd r s1 H) as (_ & Hlt & _).
  destruct (Z.eqb_spec (p_rc r) 0) as [E | E]; [| apply tame_ret].
  apply IH. specialize (Hlt (or_intror E)). lia.
Qed.

Lemma tame_no_internal_fault {A : Type} (m : M A) (s : IOBUF) :
  tame_at m s -> no_internal_fault (m s).
Proof.
  intros [Hf _]. unfold no_internal_fault.
  repeat split; intros E; specialize (Hf _ E); discriminate.
Qed.

(** X9.  Reading packets stops early only for the end of the input.
    Whatever the source holds and whatever its mode, a call of
    [parse_packet], [search_packet] or [skip_some_packets] on a packet
    whose body pointer is null either returns, or ends in the fatal end of
    input of [iobuf_get_noeof]: no assertion fails, [BUG()] is not
    reached, and every loop ends (the fuel of the embedding is never used
    up), because each round that skips a packet has taken at least its
    header byte. *)
Theorem reading_stops_only_at_end_of_input (list_mode : bool) (packet : PACKET)
  (reqtype : Z) (want_retpos : bool) (n : nat) (s : IOBUF) :
  pkt packet = Generic_NULL ->
  no_internal_fault (parse_packet list_mode packet s)
  /\ no_internal_fault (search_packet list_mode packet reqtype want_retpos s)
  /\ no_internal_fault (skip_some_packets list_mode n s).
Proof.
  intros Hnull.
  assert (Hloop : forall req w,
             tame_at (parse_until_kept list_mode (S (length (io_data s)))
                        packet req w) s).
  { intros req w. apply parse_until_kept_tame; [exact Hnull |].
    unfold remaining. lia. }
  split; [| split].
  - unfold parse_packet.
    apply (tame_no_internal_fault
             (r <- parse_until_kept list_mode (S (length (io_data s)))
                     packet 0 false ;; ret (p_rc r, p_pkt r))).
    apply tame_bind_at; [apply Hloop | intros r s1 _; apply tame_ret].
  - unfold search_packet.
    apply (tame_no_internal_fault
             (r <- parse_until_kept list_mode (S (length (io_data s)))
                     packet reqtype want_retpos ;;
              ret (p_rc r, p_pkt r, p_retpos r))).
    apply tame_bind_at; [apply Hloop | intros r s1 _; apply tame_ret].
  - apply tame_no_internal_fault. apply tame_skip_some_packets.
Qed.

Lemma reading_stops_only_at_end_of_input_witness :
  no_internal_fault (parse_packet false init_packet (plain three_packets 0))
  /\ no_internal_fault
       (search_packet false init_packet PKT_SIGNATURE true (plain three_packets 0))
  /\ no_internal_fault (skip_some_packets false 5 (plain three_packets 0)).
Proof.
  apply (reading_stops_only_at_end_of_input false init_packet PKT_SIGNATURE true
           5 (plain three_packets 0)).
  reflexivity.
Defined.

(** X10.  Copying packets stops early only for the end of the input: on
    every source and every sink [copy_all_packets] and
    [copy_some_packets] either return or end in the fatal end of input of
    [iobuf_get_noeof].  A round that returns 0 has taken at least the
    header byte of a packet, and each round of the loops of [copy_packet]
    takes at least one byte or leaves the loop, so the loops end. *)
Theorem copying_stops_only_at_end_of_input (list_mode : bool) (out : SINK)
  (stopoff : Z) (s : IOBUF) :
  no_internal_fault (copy_all_packets list_mode out s)
  /\ no_internal_fault (copy_some_packets list_mode out stopoff s).
Proof.
  split.
  - apply (tame_no_internal_fault
             (copy_loop list_mode (S (length (io_data s))) out)).
    apply copy_loop_tame. unfold remaining. lia.
  - apply (tame_no_internal_fault
             (copy_some_loop list_mode (S (length (io_data s))) out stopoff)).
    apply copy_some_loop_tame. unfold remaining. lia.
Qed.

Lemma b2z_z2b (z : Z) : 0 <= z < 256 -> b2z (z2b z) = z.
Proof.
  intros Hz. unfold z2b. rewrite Z.mod_small by exact Hz.
  destruct (Byte.of_N (Z.to_N z)) as [b |] eqn:E.
  - apply Byte.to_of_N in E. unfold b2z. rewrite E. lia.
  - apply Byte.of_N_None_iff in E. lia.
Qed.

Lemma ctb_new_format (b : byte) :
  (192 <=? b2z b) = true ->
  Z.land (b2z b) 0x80 <> 0 /\ Z.land (b2z b) 0x40 <> 0
  /\ Z.land (b2z b) 0x3f = b2z b - 192.
Proof.
  destruct b; vm_compute; intros H; try discriminate H;
    repeat split; discriminate.
Qed.

Lemma new_packet_header (tag : Z) (body rest : list byte) (pos : Z) :
  small_packet (tag, body) ->
  read_header (plain (new_packet tag body ++ rest) pos)
  = Done (HdrOk tag (Z.of_nat (length body))
            [z2b (0xC0 + tag); z2b (Z.of_nat (length body))] true)
         (plain (body ++ rest) (pos + 2)).
Proof.
  intros [Ht Hb]. cbn [fst snd] in Ht, Hb. unfold new_packet. cbn [app].
  assert (Hc : b2z (z2b (0xC0 + tag)) = 192 + tag) by (apply b2z_z2b; lia).
  assert (Hl : b2z (z2b (Z.of_nat (length body))) = Z.of_nat (length body))
    by (apply b2z_z2b; lia).
  destruct (ctb_new_format (z2b (0xC0 + tag))) as (H80 & H40 & H3f).
  { rewrite Hc. apply Z.leb_le. lia. }
  rewrite new_header_one_byte by (assumption || lia).
  rewrite H3f, Hc, Hl. f_equal; [f_equal; lia | unfold plain; f_equal; lia].
Qed.

Lemma new_packet_length (tag : Z) (body : list byte) :
  Z.of_nat (length (new_packet tag body)) = 2 + Z.of_nat (length body).
Proof. unfold new_packet. cbn [length]. lia. Qed.

Lemma new_packets_cons (p : Z * list byte) (l : list (Z * list byte)) :
  new_packets (p :: l) = new_packet (fst p) (snd p) ++ new_packets l.
Proof. reflexivity. Qed.

Lemma new_packets_app (l1 l2 : list (Z * list byte)) :
  new_packets (l1 ++ l2) = new_packets l1 ++ new_packets l2.
Proof. unfold new_packets. apply flat_map_app. Qed.

(** ** One packet read off a plain source *)

Lemma skip_packet_plain (list_mode : bool) (pkttype : Z) (body rest : list byte)
  (pos : Z) :
  skip_packet list_mode pkttype (Z.of_nat (length body)) (plain (body ++ rest) pos)
  = Done tt (plain rest (pos + Z.of_nat (length body))).
Proof.
  unfold skip_packet.
  destruct (list_mode && negb (pkttype =? 0)); [| apply skip_rest_plain].
  unfold bind, iobuf_in_block_mode. cbn [io_mode plain].
  rewrite Nat2Z.id. apply get_n_plain.
Qed.

(** A round of [parse] that skips a packet of definite length. *)
Lemma parse_skips (list_mode : bool) (packet : PACKET) (reqtype : Z)
  (want_retpos : bool) (do_skip : bool) (all body rest : list byte)
  (pos pos' pkttype : Z) (hdr : list byte) (pgp3 : bool) :
  pkt packet = Generic_NULL ->
  read_header (plain all pos)
  = Done (HdrOk pkttype (Z.of_nat (length body)) hdr pgp3)
         (plain (body ++ rest) pos') ->
  do_skip = true \/ skipped_type reqtype pkttype ->
  parse list_mode packet reqtype want_retpos None do_skip (plain all pos)
  = Done (mkParsed 0 true packet (if want_retpos then Some pos else None) None)
         (plain rest (pos' + Z.of_nat (length body))).
Proof.
  intros Hnull Hhdr Hskip.
  rewrite (parse_after_header list_mode packet reqtype want_retpos None do_skip
             _ _ _ _ _ _ Hnull Hhdr).
  replace (if pkttype =? 0 then None else None) with (@None SINK)
    by (destruct (pkttype =? 0); reflexivity).
  replace (do_skip || (pkttype =? 0)
           || negb (reqtype =? 0) && negb (pkttype =? reqtype)) with true.
  - rewrite (bind_done _ _ _ _ _ (skip_packet_plain list_mode pkttype body rest pos')).
    reflexivity.
  - symmetry. destruct Hskip as [-> | [-> | [Hr Ht]]]; [reflexivity | |].
    + rewrite orb_true_r. reflexivity.
    + apply Z.eqb_neq in Hr, Ht. rewrite Hr, Ht. cbn. apply orb_true_r.
Qed.

(** A round of [parse] that hands the body to its parser. *)
Lemma parse_keeps (list_mode : bool) (packet filled : PACKET) (reqtype : Z)
  (want_retpos : bool) (s s1 s2 : IOBUF)
  (pkttype pktlen : Z) (hdr : list byte) (pgp3 : bool) (rc : Z) :
  pkt packet = Generic_NULL ->
  read_header s = Done (HdrOk pkttype pktlen hdr pgp3) s1 ->
  pkttype <> 0 ->
  reqtype = 0 \/ reqtype = pkttype ->
  dispatch list_mode pkttype pktlen hdr packet s1 = Done (rc, filled) s2 ->
  parse list_mode packet reqtype want_retpos None false s
  = Done (mkParsed rc false filled
            (if want_retpos then Some (io_pos s) else None) None) s2.
Proof.
  intros Hnull Hhdr Ht Hreq Hd.
  rewrite (parse_after_header list_mode packet reqtype want_retpos None false
             _ _ _ _ _ _ Hnull Hhdr).
  apply Z.eqb_neq in Ht. rewrite Ht.
  replace (negb (reqtype =? 0) && negb (pkttype =? reqtype)) with false.
  - cbn [orb]. rewrite (bind_done _ _ _ _ _ Hd). reflexivity.
  - symmetry. destruct Hreq as [-> | ->]; [reflexivity |].
    rewrite Z.eqb_refl. apply andb_false_r.
Qed.

Lemma parse_packet_keeps (list_mode : bool) (packet filled : PACKET)
  (s s1 s2 : IOBUF) (pkttype pktlen : Z) (hdr : list byte) (pgp3 : bool)
  (rc : Z) :
  pkt packet = Generic_NULL ->
  read_header s = Done (HdrOk pkttype pktlen hdr pgp3) s1 ->
  pkttype <> 0 ->
  dispatch list_mode pkttype pktlen hdr packet s1 = Done (rc, filled) s2 ->
  parse_packet list_mode packet s = Done (rc, filled) s2.
Proof.
  intros Hnull Hhdr Ht Hd. unfold parse_packet. cbn [parse_until_kept].
  rewrite bind_assoc.
  rewrite (bind_done _ _ _ _ _
             (parse_keeps list_mode packet filled 0 false s s1 s2 pkttype pktlen
                hdr pgp3 rc Hnull Hhdr Ht (or_introl eq_refl) Hd)).
  reflexivity.
Qed.

Ltac dispatch_at_type :=
  unfold dispatch;
  cbn [PKT_PUBKEY_ENC PKT_SIGNATURE PKT_SYMKEY_ENC PKT_ONEPASS_SIG
       PKT_SECRET_CERT PKT_PUBLIC_CERT PKT_SECKEY_SUBCERT PKT_COMPRESSED
       PKT_ENCRYPTED PKT_PLAINTEXT PKT_RING_TRUST PKT_USER_ID
       PKT_PUBKEY_SUBCERT PKT_OLD_COMMENT PKT_COMMENT Z.eqb Pos.eqb orb].

Lemma parse_user_id_plain (pkttype : Z) (packet : PACKET) (body rest : list byte)
  (pos : Z) :
  parse_user_id pkttype (Z.of_nat (length body)) packet (plain (body ++ rest) pos)
  = Done (0, set_body (User_id (mkUserId (Z.of_nat (length body)) body)) packet)
         (plain rest (pos + Z.of_nat (length body))).
Proof.
  unfold parse_user_id. rewrite Nat2Z.id.
  rewrite (bind_done _ _ _ _ _ (read_bytes_plain body rest pos)). reflexivity.
Qed.

Lemma parse_comment_plain (pkttype : Z) (packet : PACKET) (body rest : list byte)
  (pos : Z) :
  parse_comment pkttype (Z.of_nat (length body)) packet (plain (body ++ rest) pos)
  = Done (0, set_body (Comment (mkComment (Z.of_nat (length body)) body)) packet)
         (plain rest (pos + Z.of_nat (length body))).
Proof.
  unfold parse_comment. rewrite Nat2Z.id.
  rewrite (bind_done _ _ _ _ _ (read_bytes_plain body rest pos)). reflexivity.
Qed.

(** X11.  When the header decoder reads the header of a user id packet
    or of a comment packet (old or new tag) as a definite length, leaves
    the source in plain mode, and the source holds that many body bytes,
    the body is stored byte for byte with the packet length as its
    length, the return code is 0 and the source is left on the byte after
    the body.  This covers the legacy lengths of 1, 2 and 4 bytes and the
    new-format lengths of one and two bytes; it does not cover the legacy
    indeterminate length and a first length byte 255, for which the
    decoder reports the length 0 and leaves plain mode. *)
Theorem user_id_and_comment_stored_verbatim (list_mode : bool)
  (all body rest hdr : list byte) (pos pos' pkttype : Z) (pgp3 : bool) :
  read_header (plain all pos)
  = Done (HdrOk pkttype (Z.of_nat (length body)) hdr pgp3)
         (plain (body ++ rest) pos') ->
  (pkttype = PKT_USER_ID ->
   parse_packet list_mode init_packet (plain all pos)
   = Done (0, mkPACKET PKT_USER_ID
                (User_id (mkUserId (Z.of_nat (length body)) body)))
          (plain rest (pos' + Z.of_nat (length body))))
  /\ (pkttype = PKT_OLD_COMMENT \/ pkttype = PKT_COMMENT ->
      parse_packet list_mode init_packet (plain all pos)
      = Done (0, mkPACKET pkttype
                   (Comment (mkComment (Z.of_nat (length body)) body)))
             (plain rest (pos' + Z.of_nat (length body)))).
Proof.
  intros Hhdr. split.
  - intros ->.
    apply (parse_packet_keeps list_mode init_packet _ _ _ _ _ _ _ _ _
             eq_refl Hhdr); [discriminate |].
    dispatch_at_type. apply parse_user_id_plain.
  - intros [-> | ->];
      (apply (parse_packet_keeps list_mode init_packet _ _ _ _ _ _ _ _ _
                eq_refl Hhdr); [discriminate |]);
      dispatch_at_type; apply parse_comment_plain.
Qed.

Lemma user_id_and_comment_stored_verbatim_witness :
  parse_packet false init_packet (plain (world_new ++ hello_legacy) 0)
  = Done (0, mkPACKET PKT_USER_ID
               (User_id (mkUserId 5 [x77; x6f; x72; x6c; x64])))
         (plain hello_legacy 7)
  /\ parse_packet false init_packet
       (plain (new_packet PKT_COMMENT [x68; x69] ++ hello_legacy) 0)
     = Done (0, mkPACKET PKT_COMMENT (Comment (mkComment 2 [x68; x69])))
            (plain hello_legacy 4).
Proof.
  split.
  - apply (proj1 (user_id_and_comment_stored_verbatim false
                    (world_new ++ hello_legacy) [x77; x6f; x72; x6c; x64]
                    hello_legacy [xcd; x05] 0 2 PKT_USER_ID true eq_refl)).
    reflexivity.
  - apply (proj2 (user_id_and_comment_stored_verbatim false
                    (new_packet PKT_COMMENT [x68; x69] ++ hello_legacy)
                    [x68; x69] hello_legacy [xfd; x02] 0 2 PKT_COMMENT true
                    eq_refl)).
    right. reflexivity.
Defined.

Lemma unknown_type_tests (t : Z) :
  ~ In t known_types ->
  (t =? PKT_PUBLIC_CERT) = false /\ (t =? PKT_PUBKEY_SUBCERT) = false
  /\ (t =? PKT_SECRET_CERT) = false /\ (t =? PKT_SECKEY_SUBCERT) = false
  /\ (t =? PKT_SYMKEY_ENC) = false /\ (t =? PKT_PUBKEY_ENC) = false
  /\ (t =? PKT_SIGNATURE) = false /\ (t =? PKT_ONEPASS_SIG) = false
  /\ (t =? PKT_USER_ID) = false /\ (t =? PKT_OLD_COMMENT) = false
  /\ (t =? PKT_COMMENT) = false /\ (t =? PKT_RING_TRUST) = false
  /\ (t =? PKT_PLAINTEXT) = false /\ (t =? PKT_COMPRESSED) = false
  /\ (t =? PKT_ENCRYPTED) = false.
Proof.
  intros H. unfold known_types in H. cbn [In] in H.
  repeat split; apply Z.eqb_neq; intros ->; apply H; tauto.
Qed.

(** X12.  A packet of definite length whose type has no body parser (a
    type other than 0 and the fifteen known ones) is reported with
    [G10ERR_UNKNOWN_PACKET]; the packet gets the type and no body, and the
    whole body is taken off the source, with and without [list_mode], so
    the source is left on the next packet. *)
Theorem unknown_packet_type_is_skipped (list_mode : bool)
  (all body rest hdr : list byte) (pos pos' pkttype : Z) (pgp3 : bool) :
  read_header (plain all pos)
  = Done (HdrOk pkttype (Z.of_nat (length body)) hdr pgp3)
         (plain (body ++ rest) pos') ->
  pkttype <> 0 ->
  ~ In pkttype known_types ->
  parse_packet list_mode init_packet (plain all pos)
  = Done (G10ERR_UNKNOWN_PACKET, mkPACKET pkttype Generic_NULL)
         (plain rest (pos' + Z.of_nat (length body))).
Proof.
  intros Hhdr Ht Hunknown.
  apply (parse_packet_keeps list_mode init_packet _ _ _ _ _ _ _ _ _
           eq_refl Hhdr Ht).
  destruct (unknown_type_tests pkttype Hunknown)
    as (E1 & E2 & E3 & E4 & E5 & E6 & E7 & E8 & E9 & E10 & E11 & E12 & E13
        & E14 & E15).
  unfold dispatch.
  rewrite E1, E2, E3, E4, E5, E6, E7, E8, E9, E10, E11, E12, E13, E14, E15.
  cbn [orb].
  rewrite (bind_done _ _ _ _ _ (skip_packet_plain list_mode pkttype body rest pos')).
  reflexivity.
Qed.

Lemma unknown_packet_type_is_skipped_witness :
  parse_packet true init_packet
    (plain (new_packet 20 [x01; x02; x03] ++ hello_legacy) 0)
  = Done (G10ERR_UNKNOWN_PACKET, mkPACKET 20 Generic_NULL) (plain hello_legacy 5).
Proof.
  apply (unknown_packet_type_is_skipped true
           (new_packet 20 [x01; x02; x03] ++ hello_legacy) [x01; x02; x03]
           hello_legacy [xd4; x03] 0 2 20 true eq_refl).
  - discriminate.
  - intros H. cbn in H.
    repeat (destruct H as [H | H]; [discriminate H |]). exact H.
Defined.

(** X13.  A plaintext packet of definite length 1 to 5 is answered with
    return code 0 and a packet without a body, and its body is not taken
    off the source: the next call reads the body bytes as a packet
    header. *)
Theorem short_plaintext_body_left_unread (list_mode : bool)
  (all body rest hdr : list byte) (pos pos' : Z) (pgp3 : bool) :
  read_header (plain all pos)
  = Done (HdrOk PKT_PLAINTEXT (Z.of_nat (length body)) hdr pgp3)
         (plain (body ++ rest) pos') ->
  (1 <= length body <= 5)%nat ->
  parse_packet list_mode init_packet (plain all pos)
  = Done (0, mkPACKET PKT_PLAINTEXT Generic_NULL) (plain (body ++ rest) pos').
Proof.
  intros Hhdr Hlen.
  apply (parse_packet_keeps list_mode init_packet _ _ _ _ _ _ _ _ _
           eq_refl Hhdr); [discriminate |].
  dispatch_at_type. unfold parse_plaintext.
  replace (Z.of_nat (length body) =? 0) with false
    by (symmetry; apply Z.eqb_neq; lia).
  replace (Z.of_nat (length body) <? 6) with true
    by (symmetry; apply Z.ltb_lt; lia).
  reflexivity.
Qed.

Lemma short_plaintext_body_left_unread_witness :
  parse_packet false init_packet
    (plain (new_packet PKT_PLAINTEXT [x62; x00; x00] ++ hello_legacy) 0)
  = Done (0, mkPACKET PKT_PLAINTEXT Generic_NULL)
         (plain ([x62; x00; x00] ++ hello_legacy) 2).
Proof.
  apply (short_plaintext_body_left_unread false
           (new_packet PKT_PLAINTEXT [x62; x00; x00] ++ hello_legacy)
           [x62; x00; x00] hello_legacy [xcb; x03] 0 2 true eq_refl).
  cbn [length]. lia.
Defined.

(** ** Streams of new-format packets *)

Lemma new_packets_cons_length (p : Z * list byte) (l : list (Z * list byte)) :
  Z.of_nat (length (new_packets (p :: l)))
  = 2 + Z.of_nat (length (snd p)) + Z.of_nat (length (new_packets l)).
Proof.
  rewrite new_packets_cons, length_app, Nat2Z.inj_add, new_packet_length. lia.
Qed.

Lemma parse_skips_new_packet (list_mode : bool) (packet : PACKET) (reqtype : Z)
  (want_retpos do_skip : bool) (p : Z * list byte) (rest : list byte) (pos : Z) :
  pkt packet = Generic_NULL ->
  small_packet p ->
  do_skip = true \/ skipped_type reqtype (fst p) ->
  parse list_mode packet reqtype want_retpos None do_skip
    (plain (new_packet (fst p) (snd p) ++ rest) pos)
  = Done (mkParsed 0 true packet (if want_retpos then Some pos else None) None)
         (plain rest (pos + 2 + Z.of_nat (length (snd p)))).
Proof.
  intros Hnull Hsmall Hskip. destruct p as [tag body]. cbn [fst snd] in *.
  apply (parse_skips list_mode packet reqtype want_retpos do_skip _ body rest pos
           (pos + 2) tag _ true Hnull (new_packet_header tag body rest pos Hsmall)
           Hskip).
Qed.

(** The three packets of [mixed_packets] are small. *)
Lemma mixed_packets_small : Forall small_packet mixed_packets.
Proof.
  unfold mixed_packets, user_id_hi, deleted_packet, unknown_packet.
  repeat (apply Forall_cons; [split; cbn; try unfold PKT_USER_ID; lia |]). apply Forall_nil.
Defined.

Lemma mixed_packets_not_empty_compressed :
  Forall not_empty_compressed mixed_packets.
Proof.
  unfold mixed_packets, user_id_hi, deleted_packet, unknown_packet.
  repeat (apply Forall_cons; [intros H; vm_compute in H; discriminate H |]).
  apply Forall_nil.
Defined.

(** X14.  [skip_some_packets] with the number of packets of a stream takes
    exactly these packets off the source, of whatever type they are, and
    returns 0; what follows them is left in the source. *)
Theorem skip_some_packets_skips_whole_packets (list_mode : bool)
  (pkts : list (Z * list byte)) (rest : list byte) (pos : Z) :
  Forall small_packet pkts ->
  skip_some_packets list_mode (length pkts) (plain (new_packets pkts ++ rest) pos)
  = Done 0 (plain rest (pos + Z.of_nat (length (new_packets pkts)))).
Proof.
  intros Hsmall. revert pos.
  induction Hsmall as [| p l Hp Hl IH]; intros pos.
  - cbn. unfold ret. rewrite Z.add_0_r. reflexivity.
  - cbn [length skip_some_packets]. rewrite new_packets_cons, <- app_assoc.
    rewrite (bind_done _ _ _ _ _
               (parse_skips_new_packet list_mode init_packet 0 false true p _ pos
                  eq_refl Hp (or_introl eq_refl))).
    cbn [p_rc Z.eqb]. rewrite IH.
    rewrite <- new_packets_cons, new_packets_cons_length.
    f_equal. unfold plain. f_equal. lia.
Qed.

Lemma skip_some_packets_skips_whole_packets_witness :
  skip_some_packets false 3 (plain (new_packets mixed_packets ++ hello_legacy) 0)
  = Done 0 (plain hello_legacy 13).
Proof.
  apply (skip_some_packets_skips_whole_packets false mixed_packets hello_legacy 0
           mixed_packets_small).
Defined.

Lemma parse_until_kept_skips (list_mode : bool) (packet : PACKET) (reqtype : Z)
  (want_retpos : bool) (pre : list (Z * list byte)) (tail : list byte) :
  pkt packet = Generic_NULL ->
  Forall small_packet pre ->
  Forall (fun p => skipped_type reqtype (fst p)) pre ->
  forall (pos : Z) (f1 f2 : nat),
    (length (new_packets pre ++ tail) < f1)%nat ->
    (length tail < f2)%nat ->
    parse_until_kept list_mode f1 packet reqtype want_retpos
      (plain (new_packets pre ++ tail) pos)
    = parse_until_kept list_mode f2 packet reqtype want_retpos
        (plain tail (pos + Z.of_nat (length (new_packets pre)))).
Proof.
  intros Hnull Hsmall. induction Hsmall as [| p l Hp Hl IH]; intros Hskip pos f1 f2 H1 H2.
  - cbn [new_packets flat_map app length]. change (Z.of_nat 0) with 0.
    rewrite Z.add_0_r.
    apply parse_until_kept_fuel; [exact Hnull | exact H1 | exact H2].
  - inversion Hskip as [| p' l' Hsp Hsl]; subst.
    destruct f1 as [| f1]; [lia |].
    rewrite new_packets_cons, <- app_assoc in H1 |- *.
    cbn [parse_until_kept].
    rewrite (bind_done _ _ _ _ _
               (parse_skips_new_packet list_mode packet reqtype want_retpos false
                  p _ pos Hnull Hp (or_intror Hsp))).
    cbn [p_skip p_pkt].
    rewrite (IH Hsl _ f1 f2);
      [| rewrite length_app in H1; unfold new_packet in H1; cbn [length] in H1; lia
       | exact H2].
    rewrite <- new_packets_cons, new_packets_cons_length.
    f_equal. unfold plain. f_equal. lia.
Qed.



Lemma copy_packet_plain (pkttype : Z) (body rest out : list byte) (pos : Z) :
  Z.of_nat (length body) < 2 ^ 32 ->
  (body = [] -> pkttype <> PKT_COMPRESSED) ->
  copy_packet (mkSINK out None) pkttype (Z.of_nat (length body))
    (plain (body ++ rest) pos)
  = Done (0, mkSINK (out ++ body) None)
         (plain rest (pos + Z.of_nat (length body))).
Proof.
  intros Hlen Hc. unfold copy_packet, bind, iobuf_in_block_mode.
  cbn [io_mode plain io_data].
  replace ((Z.of_nat (length body) =? 0) && (pkttype =? PKT_COMPRESSED)) with false.
  - apply copy_definite_plain;
      [unfold plain; cbn [io_data]; rewrite length_app; lia | exact Hlen].
  - symmetry. destruct body as [| b body].
    + specialize (Hc eq_refl). apply Z.eqb_neq in Hc. rewrite Hc.
      apply andb_false_r.
    + reflexivity.
Qed.

(** A round of the copy loop on a packet that is not deleted, and on a
    deleted one. *)
Lemma parse_copies_new_packet (list_mode : bool) (p : Z * list byte)
  (rest out : list byte) (pos : Z) :
  small_packet p -> not_empty_compressed p -> fst p <> 0 ->
  parse list_mode init_packet 0 false (Some (mkSINK out None)) false
    (plain (new_packet (fst p) (snd p) ++ rest) pos)
  = Done (mkParsed 0 false init_packet None
            (Some (mkSINK (out ++ new_packet (fst p) (snd p)) None)))
         (plain rest (pos + 2 + Z.of_nat (length (snd p)))).
Proof.
  intros Hsmall Hc Ht. destruct p as [tag body]. cbn [fst snd] in *.
  pose proof Hsmall as [_ Hb]. cbn [snd] in Hb.
  apply (parse_copy_mode list_mode _ _ _ tag (Z.of_nat (length body)) _ out true
           0 _ (new_packet_header tag body rest pos Hsmall));
    [apply Z.eqb_neq; exact Ht |].
  rewrite copy_packet_plain.
  - unfold new_packet. rewrite <- app_assoc. reflexivity.
  - lia.
  - intros E Hz. exact (Hc Hz E).
Qed.

Lemma parse_copy_drops_deleted (list_mode : bool) (body rest : list byte)
  (out : SINK) (pos : Z) :
  small_packet (0, body) ->
  parse list_mode init_packet 0 false (Some out) false
    (plain (new_packet 0 body ++ rest) pos)
  = Done (mkParsed 0 true init_packet None (Some out))
         (plain rest (pos + 2 + Z.of_nat (length body))).
Proof.
  intros Hsmall.
  rewrite (parse_after_header list_mode init_packet 0 false (Some out) false
             _ _ _ _ _ _ eq_refl (new_packet_header 0 body rest pos Hsmall)).
  cbn [Z.eqb orb].
  rewrite (bind_done _ _ _ _ _ (skip_packet_plain list_mode 0 body rest (pos + 2))).
  reflexivity.
Qed.

Lemma live_packets_cons (p : Z * list byte) (l : list (Z * list byte)) :
  new_packets (live_packets (p :: l))
  = (if fst p =? 0 then [] else new_packet (fst p) (snd p))
    ++ new_packets (live_packets l).
Proof.
  unfold live_packets. cbn [filter]. destruct (fst p =? 0); reflexivity.
Qed.

(** One round of the copy loop, whatever the type of the packet. *)
Lemma copy_round (list_mode : bool) (p : Z * list byte) (rest out : list byte)
  (pos : Z) :
  small_packet p -> not_empty_compressed p ->
  exists r : parsed,
    parse list_mode init_packet 0 false (Some (mkSINK out None)) false
      (plain (new_packet (fst p) (snd p) ++ rest) pos)
    = Done r (plain rest (pos + 2 + Z.of_nat (length (snd p))))
    /\ p_rc r = 0
    /\ p_out r
       = Some (mkSINK (out ++ (if fst p =? 0 then []
                               else new_packet (fst p) (snd p))) None).
Proof.
  intros Hsmall Hc. destruct (Z.eqb_spec (fst p) 0) as [E | E].
  - destruct p as [tag body]. cbn [fst snd] in *. subst tag.
    eexists. split; [apply parse_copy_drops_deleted; exact Hsmall |].
    cbn [p_rc p_out]. rewrite app_nil_r. split; reflexivity.
  - eexists. split; [apply parse_copies_new_packet; assumption |].
    split; reflexivity.
Qed.

Lemma copy_loop_new_packets (list_mode : bool) (pkts : list (Z * list byte)) :
  Forall small_packet pkts ->
  Forall not_empty_compressed pkts ->
  forall (fuel : nat) (out : list byte) (pos : Z),
    (length (new_packets pkts) < fuel)%nat ->
    copy_loop list_mode fuel (mkSINK out None) (plain (new_packets pkts) pos)
    = Done (-1, mkSINK (out ++ new_packets (live_packets pkts)) None)
           (plain [] (pos + Z.of_nat (length (new_packets pkts)))).
Proof.
  intros Hsmall. induction Hsmall as [| p l Hp Hl IH]; intros Hc fuel out pos Hf.
  - destruct fuel as [| f]; [inversion Hf |]. cbn [copy_loop new_packets flat_map].
    rewrite (bind_done _ _ _ _ _
               (parse_at_eof list_mode (Some (mkSINK out None)) pos)).
    cbn. rewrite app_nil_r, Z.add_0_r. reflexivity.
  - inversion Hc as [| p' l' Hcp Hcl]; subst.
    destruct fuel as [| f]; [inversion Hf |].
    rewrite new_packets_cons in Hf. rewrite length_app in Hf.
    unfold new_packet in Hf. cbn [length] in Hf.
    cbn [copy_loop].
    rewrite <- (app_nil_r (new_packets (p :: l))), new_packets_cons, <- app_assoc.
    destruct (copy_round list_mode p (new_packets l ++ []) out pos Hp Hcp)
      as (r & Hr & Hrc & Hout).
    rewrite (bind_done _ _ _ _ _ Hr). rewrite Hrc, Hout. cbn [Z.eqb].
    rewrite app_nil_r, IH by (assumption || lia).
    rewrite live_packets_cons, app_assoc.
    rewrite <- (new_packets_cons p l), new_packets_cons_length.
    f_equal. unfold plain. f_equal. lia.
Qed.

(** X16.  [copy_all_packets] removes the unused space: on a stream of
    packets it writes every packet that is not of type 0 to the sink,
    byte for byte and in order, drops the packets of type 0, and returns
    -1 at the end of the stream. *)
Theorem copy_all_packets_drops_deleted (list_mode : bool)
  (pkts : list (Z * list byte)) (out : list byte) (pos : Z) :
  Forall small_packet pkts ->
  Forall not_empty_compressed pkts ->
  copy_all_packets list_mode (mkSINK out None) (plain (new_packets pkts) pos)
  = Done (-1, mkSINK (out ++ new_packets (live_packets pkts)) None)
         (plain [] (pos + Z.of_nat (length (new_packets pkts)))).
Proof.
  intros Hsmall Hc. unfold copy_all_packets. cbn [io_data plain].
  apply copy_loop_new_packets; [assumption | assumption | lia].
Qed.

Lemma copy_all_packets_drops_deleted_witness :
  copy_all_packets false (mkSINK [] None) (plain (new_packets mixed_packets) 0)
  = Done (-1, mkSINK (new_packets [user_id_hi; unknown_packet]) None)
         (plain [] 13).
Proof.
  apply (copy_all_packets_drops_deleted false mixed_packets [] 0
           mixed_packets_small mixed_packets_not_empty_compressed).
Defined.




Lemma subpkt_length_bounds (buf : list byte) (p buflen n p' buflen' : Z) :
  subpkt_length buf p buflen = Some (n, p', buflen') ->
  p < p' /\ p' + buflen' <= p + buflen /\ 0 <= n < 2 ^ 32.
Proof.
  unfold subpkt_length. pose proof (byte_at_range buf p) as Hb.
  destruct (byte_at buf p =? 255).
  - destruct (buflen - 1 <? 4); [discriminate |].
    match goal with
    | |- context [wrap ?z] => pose proof (wrap_range z) as Hw; set (w := wrap z) in *
    end.
    intros [= <- <- <-]. lia.
  - destruct (Z.leb_spec 192 (byte_at buf p)) as [Hge | Hlt].
    + destruct (buflen - 1 <? 2); [discriminate |].
      rewrite Z.shiftl_mul_pow2 by lia.
      intros [= <- <- <-].
      pose proof (byte_at_range buf (p + 1)). lia.
    + intros [= <- <- <-]. lia.
Qed.

Lemma subpkt_found_bounds (p buflen n type p' n' : Z) :
  subpkt_found p buflen n type = SubFound p' n' ->
  0 <= n < 2 ^ 32 -> n <= buflen < 2 ^ 31 ->
  p' = p + 1 /\ p' + n' <= p + buflen
  /\ (type = SIGSUBPKT_SIG_CREATED /\ 4 <= n' \/ type = SIGSUBPKT_ISSUER /\ 8 <= n').
Proof.
  unfold subpkt_found. intros H Hn Hb.
  assert (Hw : wrap (n - 1) = n - 1 \/ (n = 0 /\ wrap (n - 1) = 2 ^ 32 - 1)).
  { destruct (Z.eq_dec n 0) as [-> | Hnz]; [right; split; reflexivity |].
    left. unfold wrap. apply Z.mod_small. lia. }
  destruct (Z.ltb_spec buflen (wrap (n - 1))) as [Hlt | Hge]; [discriminate |].
  destruct Hw as [Hw | [-> Hw]]; [| lia].
  rewrite Hw in *.
  destruct (Z.eqb_spec type SIGSUBPKT_SIG_CREATED) as [Et | Et].
  - destruct (Z.ltb_spec (n - 1) 4); [discriminate |].
    injection H as <- <-. split; [reflexivity |]. split; [lia |]. left. lia.
  - destruct (Z.eqb_spec type SIGSUBPKT_ISSUER) as [Ei | Ei]; [| discriminate].
    destruct (Z.ltb_spec (n - 1) 8); [discriminate |].
    injection H as <- <-. split; [reflexivity |]. split; [lia |]. right. lia.
Qed.

Lemma subpkt_scan_bounds (fuel : nat) :
  forall (buf : list byte) (reqtype p buflen p' n' : Z),
    subpkt_scan fuel buf reqtype p buflen = SubFound p' n' ->
    0 <= buflen < 2 ^ 31 ->
    p < p' /\ p' + n' <= p + buflen
    /\ (reqtype = SIGSUBPKT_SIG_CREATED /\ 4 <= n'
        \/ reqtype = SIGSUBPKT_ISSUER /\ 8 <= n').
Proof.
  induction fuel as [| f IH]; intros buf reqtype p buflen p' n' H Hb;
    [discriminate |].
  cbn [subpkt_scan] in H.
  destruct (buflen =? 0); [discriminate |].
  destruct (subpkt_length buf p buflen) as [[[n p1] b1] |] eqn:El; [| discriminate].
  apply subpkt_length_bounds in El. destruct El as (Hp & Hpb & Hn).
  destruct (Z.ltb_spec b1 n) as [Hlt | Hge]; [discriminate |].
  assert (Hrec : forall q m,
             subpkt_scan f buf reqtype (p1 + n) (b1 - n) = SubFound q m ->
             p < q /\ q + m <= p + buflen
             /\ (reqtype = SIGSUBPKT_SIG_CREATED /\ 4 <= m
                 \/ reqtype = SIGSUBPKT_ISSUER /\ 8 <= m)).
  { intros q m Hq. apply IH in Hq; [| lia]. lia. }
  destruct (reqtype <? 0); [apply Hrec; exact H |].
  match type of H with
  | context [?t =? reqtype] => destruct (Z.eqb_spec t reqtype) as [E | E]
  end; [| apply Hrec; exact H].
  apply subpkt_found_bounds in H; [| lia | lia].
  rewrite E in H. lia.
Qed.

(** X18.  What [parse_sig_subpkt] hands back lies inside the area: when it
    returns a pointer (an offset into the buffer, whose first two bytes
    give the area length) with the length n, the pointer is behind the
    two length bytes and the n bytes it points to end within the area.
    It does so only for a request of the creation time, with n at least
    4, or of the issuer, with n at least 8: the four and eight bytes the
    caller then reads are inside the area. *)
Theorem parse_sig_subpkt_stays_in_area (buf : list byte) (reqtype p n : Z) :
  parse_sig_subpkt (Some buf) reqtype = SubFound p n ->
  2 < p
  /\ p + n <= 2 + (byte_at buf 0 * 256 + byte_at buf 1)
  /\ (reqtype = SIGSUBPKT_SIG_CREATED /\ 4 <= n
      \/ reqtype = SIGSUBPKT_ISSUER /\ 8 <= n).
Proof.
  unfold parse_sig_subpkt. intros H.
  pose proof (byte_at_range buf 0) as H0. pose proof (byte_at_range buf 1) as H1.
  rewrite lor_shiftl8 in H by exact H1.
  apply subpkt_scan_bounds in H; [exact H | lia].
Qed.

Lemma parse_sig_subpkt_stays_in_area_witness :
  2 < 10
  /\ 10 + 8
     <= 2 + (byte_at (area_buffer (subpkt_area [created_subpkt; issuer_subpkt])) 0
             * 256
             + byte_at (area_buffer (subpkt_area [created_subpkt; issuer_subpkt])) 1)
  /\ (SIGSUBPKT_ISSUER = SIGSUBPKT_SIG_CREATED /\ 4 <= 8
      \/ SIGSUBPKT_ISSUER = SIGSUBPKT_ISSUER /\ 8 <= 8).
Proof.
  apply (parse_sig_subpkt_stays_in_area
           (area_buffer (subpkt_area [created_subpkt; issuer_subpkt]))
           SIGSUBPKT_ISSUER 10 8).
  reflexivity.
Defined.

Lemma byte_at_app (front l : list byte) (i : Z) :
  0 <= i ->
  byte_at (front ++ l) (Z.of_nat (length front) + i) = byte_at l i.
Proof.
  intros Hi. unfold byte_at.
  replace (Z.of_nat (length front) + i <? 0) with false
    by (symmetry; apply Z.ltb_ge; lia).
  replace (i <? 0) with false by (symmetry; apply Z.ltb_ge; lia).
  replace (Z.to_nat (Z.of_nat (length front) + i))
    with (length front + Z.to_nat i)%nat by lia.
  rewrite app_nth2_plus. reflexivity.
Qed.

Lemma subpkt_type_critical (t : byte) :
  (if negb (Z.land (b2z t) 0x80 =? 0) then Z.land (b2z t) 0x7f else b2z t)
  = subpkt_type t.
Proof. destruct t; reflexivity. Qed.

Lemma subpkt_area_cons (td : byte * list byte) (l : list (byte * list byte)) :
  subpkt_area (td :: l) = subpkt (fst td) (snd td) ++ subpkt_area l.
Proof. reflexivity. Qed.

Lemma subpkt_area_app (l1 l2 : list (byte * list byte)) :
  subpkt_area (l1 ++ l2) = subpkt_area l1 ++ subpkt_area l2.
Proof. unfold subpkt_area. apply flat_map_app. Qed.

(** The head of an area behind [front]: the length and the type the scan
    reads for the first subpacket. *)
Lemma subpkt_head (front : list byte) (t : byte) (d rest : list byte) :
  (length d < 191)%nat ->
  let buf := front ++ subpkt t d ++ rest in
  let p := Z.of_nat (length front) in
  forall buflen : Z,
    subpkt_length buf p buflen = Some (1 + Z.of_nat (length d), p + 1, buflen - 1)
    /\ byte_at buf (p + 1) = b2z t.
Proof.
  intros Hd buf p buflen.
  assert (Hn : byte_at buf p = 1 + Z.of_nat (length d)).
  { subst buf p. rewrite <- (Z.add_0_r (Z.of_nat (length front))).
    rewrite byte_at_app by lia. unfold subpkt, byte_at.
    cbn [app Z.ltb Z.compare Z.to_nat nth].
    apply b2z_z2b. lia. }
  split.
  - unfold subpkt_length. rewrite Hn.
    replace (1 + Z.of_nat (length d) =? 255) with false
      by (symmetry; apply Z.eqb_neq; lia).
    replace (192 <=? 1 + Z.of_nat (length d)) with false
      by (symmetry; apply Z.leb_gt; lia).
    reflexivity.
  - subst buf p. rewrite byte_at_app by lia. reflexivity.
Qed.

Lemma subpkt_scan_finds (reqtype : Z) (t : byte) (d : list byte)
  (post : list (byte * list byte)) (pre : list (byte * list byte)) :
  reqtype = SIGSUBPKT_SIG_CREATED \/ reqtype = SIGSUBPKT_ISSUER ->
  Forall (fun td => (length (snd td) < 191)%nat /\ subpkt_type (fst td) <> reqtype)
    pre ->
  (length d < 191)%nat ->
  subpkt_type t = reqtype ->
  forall (front : list byte) (fuel : nat),
    (length (subpkt_area (pre ++ (t, d) :: post)) < fuel)%nat ->
    Z.of_nat (length (subpkt_area (pre ++ (t, d) :: post))) < 2 ^ 31 ->
    subpkt_scan fuel (front ++ subpkt_area (pre ++ (t, d) :: post)) reqtype
      (Z.of_nat (length front))
      (Z.of_nat (length (subpkt_area (pre ++ (t, d) :: post))))
    = if subpkt_min_len reqtype <=? Z.of_nat (length d)
      then SubFound (Z.of_nat (length front)
                     + Z.of_nat (length (subpkt_area pre)) + 2)
                    (Z.of_nat (length d))
      else SubNull.
Proof.
  intros Hreq Hpre Hd Ht.
  induction Hpre as [| td pre [Hd0 Ht0] _ IH]; intros front fuel Hf Hsmall.
  - cbn [app] in *. rewrite subpkt_area_cons in *. cbn [fst snd] in *.
    destruct fuel as [| f]; [inversion Hf |].
    rewrite length_app in Hf, Hsmall |- *.
    unfold subpkt at 1 in Hf. unfold subpkt at 1 in Hsmall. unfold subpkt at 2.
    cbn [length] in Hf, Hsmall |- *.
    set (buflen := Z.of_nat (S (S (length d)) + length (subpkt_area post))).
    cbn [subpkt_scan].
    replace (buflen =? 0) with false by (symmetry; apply Z.eqb_neq; lia).
    destruct (subpkt_head front t d (subpkt_area post) Hd buflen) as [Hl Hty].
    rewrite Hl, Hty, subpkt_type_critical, Ht, Z.eqb_refl.
    replace (buflen - 1 <? 1 + Z.of_nat (length d)) with false
      by (symmetry; apply Z.ltb_ge; lia).
    replace (reqtype <? 0) with false
      by (symmetry; apply Z.ltb_ge; destruct Hreq as [-> | ->]; discriminate).
    unfold subpkt_found, subpkt_min_len.
    replace (wrap (1 + Z.of_nat (length d) - 1)) with (Z.of_nat (length d))
      by (unfold wrap; rewrite Z.mod_small by lia; lia).
    replace (buflen - 1 <? Z.of_nat (length d)) with false
      by (symmetry; apply Z.ltb_ge; lia).
    change (Z.of_nat (length (subpkt_area []))) with 0.
    destruct Hreq as [-> | ->];
      cbn [SIGSUBPKT_SIG_CREATED SIGSUBPKT_ISSUER Z.eqb Pos.eqb].
    + destruct (Z.ltb_spec (Z.of_nat (length d)) 4);
        destruct (Z.leb_spec 4 (Z.of_nat (length d))); try lia;
        [reflexivity | f_equal; lia].
    + destruct (Z.ltb_spec (Z.of_nat (length d)) 8);
        destruct (Z.leb_spec 8 (Z.of_nat (length d))); try lia;
        [reflexivity | f_equal; lia].
  - destruct td as [t0 d0]. cbn [fst snd] in *.
    cbn [app] in *. rewrite subpkt_area_cons in *. cbn [fst snd] in *.
    destruct fuel as [| f]; [inversion Hf |].
    set (rest := subpkt_area (pre ++ (t, d) :: post)) in *.
    rewrite length_app in Hf, Hsmall |- *.
    unfold subpkt at 1 in Hf. unfold subpkt at 1 in Hsmall. unfold subpkt at 2.
    cbn [length] in Hf, Hsmall |- *.
    set (buflen := Z.of_nat (S (S (length d0)) + length rest)).
    cbn [subpkt_scan].
    replace (buflen =? 0) with false by (symmetry; apply Z.eqb_neq; lia).
    destruct (subpkt_head front t0 d0 rest Hd0 buflen) as [Hl Hty].
    rewrite Hl, Hty, subpkt_type_critical.
    replace (buflen - 1 <? 1 + Z.of_nat (length d0)) with false
      by (symmetry; apply Z.ltb_ge; lia).
    replace (reqtype <? 0) with false
      by (symmetry; apply Z.ltb_ge; destruct Hreq as [-> | ->]; discriminate).
    replace (subpkt_type t0 =? reqtype) with false
      by (symmetry; apply Z.eqb_neq; exact Ht0).
    specialize (IH (front ++ subpkt t0 d0) f).
    rewrite <- app_assoc in IH.
    replace (Z.of_nat (length front) + 1 + (1 + Z.of_nat (length d0)))
      with (Z.of_nat (length (front ++ subpkt t0 d0)))
      by (rewrite length_app; unfold subpkt; cbn [length]; lia).
    replace (buflen - 1 - (1 + Z.of_nat (length d0)))
      with (Z.of_nat (length rest)) by lia.
    rewrite IH by lia.
    destruct (subpkt_min_len reqtype <=? Z.of_nat (length d)); [| reflexivity].
    f_equal. rewrite subpkt_area_cons, !length_app. unfold subpkt.
    cbn [length fst snd]. lia.
Qed.

Lemma area_buffer_length (area : list byte) :
  Z.of_nat (length area) < 65536 ->
  Z.lor (Z.shiftl (byte_at (area_buffer area) 0) 8) (byte_at (area_buffer area) 1)
  = Z.of_nat (length area).
Proof.
  intros Hlen. unfold area_buffer, byte_at. cbn [Z.ltb Z.compare Z.to_nat nth].
  change (Pos.to_nat 1) with 1%nat. cbn [nth].
  set (n := Z.of_nat (length area)) in *.
  assert (Hn : 0 <= n) by (subst n; lia).
  assert (Hhi : b2z (z2b (n / 256)) = n / 256).
  { apply b2z_z2b. split; [apply Z.div_pos; lia | apply Z.div_lt_upper_bound; lia]. }
  assert (Hlo : b2z (z2b n) = n mod 256).
  { unfold z2b. pose proof (Z.mod_pos_bound n 256 ltac:(lia)) as Hm.
    destruct (Byte.of_N (Z.to_N (n mod 256))) as [b |] eqn:E.
    - apply Byte.to_of_N in E. unfold b2z. rewrite E. lia.
    - apply Byte.of_N_None_iff in E. lia. }
  rewrite Hhi, Hlo.
  rewrite lor_shiftl8 by (apply Z.mod_pos_bound; lia).
  pose proof (Z.div_mod n 256 ltac:(lia)). lia.
Qed.

(** X19.  In an area of subpackets with one-byte lengths,
    [parse_sig_subpkt] finds the first subpacket of the type asked for
    (creation time or issuer), whether or not its critical bit is set: it
    returns the offset of its data and the data length, or the null
    pointer when the data is shorter than the 4 or 8 bytes the type
    needs. *)
Theorem parse_sig_subpkt_finds_first (reqtype : Z) (t : byte) (d : list byte)
  (pre post : list (byte * list byte)) :
  reqtype = SIGSUBPKT_SIG_CREATED \/ reqtype = SIGSUBPKT_ISSUER ->
  Forall (fun td => (length (snd td) < 191)%nat /\ subpkt_type (fst td) <> reqtype)
    pre ->
  (length d < 191)%nat ->
  subpkt_type t = reqtype ->
  Z.of_nat (length (subpkt_area (pre ++ (t, d) :: post))) < 65536 ->
  parse_sig_subpkt (Some (area_buffer (subpkt_area (pre ++ (t, d) :: post))))
    reqtype
  = if subpkt_min_len reqtype <=? Z.of_nat (length d)
    then SubFound (2 + Z.of_nat (length (subpkt_area pre)) + 2)
                  (Z.of_nat (length d))
    else SubNull.
Proof.
  intros Hreq Hpre Hd Ht Hlen. unfold parse_sig_subpkt.
  rewrite area_buffer_length by exact Hlen.
  set (area := subpkt_area (pre ++ (t, d) :: post)) in *.
  pose proof (subpkt_scan_finds reqtype t d post pre Hreq Hpre Hd Ht
                [z2b (Z.of_nat (length area) / 256); z2b (Z.of_nat (length area))]
                (S (Z.to_nat (Z.of_nat (length area))))) as H.
  fold area in H. cbn [length app] in H. change (Z.of_nat 2) with 2 in H.
  unfold area_buffer. apply H; lia.
Qed.

Lemma parse_sig_subpkt_finds_first_witness :
  parse_sig_subpkt
    (Some (area_buffer (subpkt_area [created_subpkt; issuer_subpkt])))
    SIGSUBPKT_ISSUER
  = SubFound 10 8.
Proof.
  apply (parse_sig_subpkt_finds_first SIGSUBPKT_ISSUER x90 (repeat x11 8)
           [created_subpkt] []).
  - right. reflexivity.
  - apply Forall_cons; [| apply Forall_nil].
    split; [cbn; lia | discriminate].
  - cbn. lia.
  - reflexivity.
  - cbn. lia.
Defined.

(** ** What the header decoder takes off a plain source *)

Lemma read_len_plain_inv (k : nat) :
  forall (acc : Z) (hdr bs : list byte) (pos l : Z) (hdr' : list byte) (s' : IOBUF),
    read_len k acc hdr (plain bs pos) = Done (l, hdr') s' ->
    exists lenfield : list byte,
      hdr' = hdr ++ lenfield /\ length lenfield = k
      /\ s' = plain (skipn k bs) (pos + Z.of_nat k)
      /\ bs = lenfield ++ skipn k bs.
Proof.
  induction k as [| k IH]; intros acc hdr bs pos l hdr' s' H.
  - cbn in H. injection H as _ <- <-. exists []. rewrite app_nil_r.
    cbn. rewrite Z.add_0_r. auto.
  - cbn [read_len] in H. destruct bs as [| b bs].
    + rewrite (bind_fault _ _ _ _ (iobuf_get_noeof_plain_nil pos)) in H.
      discriminate.
    + revert H. plain_step. intros H. apply IH in H.
      destruct H as (lf & -> & Hlen & -> & Hbs).
      exists (b :: lf). rewrite <- app_assoc. cbn [app length skipn].
      split; [reflexivity |]. split; [lia |].
      split; [unfold plain; f_equal; lia | f_equal; exact Hbs].
Qed.

Lemma ctb_fields (b : byte) :
  0 <= Z.land (b2z b) 0x3f < 64
  /\ 0 <= Z.land (Z.shiftr (b2z b) 2) 0xf < 16
  /\ ((if Z.land (b2z b) 3 =? 3 then 0 else Z.shiftl 1 (Z.land (b2z b) 3)) = 0
      \/ 1 <= (if Z.land (b2z b) 3 =? 3 then 0 else Z.shiftl 1 (Z.land (b2z b) 3))
         <= 4).
Proof.
  destruct b; simpl; (split; [lia | split; [lia |]]);
    first [left; reflexivity | right; lia].
Qed.

(** X20.  On a plain source the header decoder reports what it has read:
    when it accepts a header, the header bytes it hands back (the bytes
    the copy mode writes to the sink) are exactly the bytes it took off
    the source and the position has moved by their number; they are at
    most six, so the eight bytes of [hdr] are never exceeded; the type is
    below 64, and below 16 for a legacy header. *)
Theorem read_header_takes_its_header (bs : list byte) (pos pkttype pktlen : Z)
  (hdr : list byte) (pgp3 : bool) (s' : IOBUF) :
  read_header (plain bs pos) = Done (HdrOk pkttype pktlen hdr pgp3) s' ->
  bs = hdr ++ io_data s'
  /\ io_pos s' = pos + Z.of_nat (length hdr)
  /\ (1 <= length hdr <= 6)%nat
  /\ 0 <= pkttype < (if pgp3 then 64 else 16).
Proof.
  destruct bs as [| ctb bs]; [discriminate |].
  destruct (ctb_fields ctb) as (Hnew & Hold & Hbytes).
  unfold read_header. plain_step.
  set (tnew := Z.land (b2z ctb) 63) in *.
  set (told := Z.land (Z.shiftr (b2z ctb) 2) 15) in *.
  destruct (Z.land (b2z ctb) 128 =? 0); [discriminate |].
  destruct (negb (Z.land (b2z ctb) 64 =? 0)).
  - destruct bs as [| c bs]; [discriminate |].
    plain_step.
    destruct (b2z c <? 192).
    { intros [= <- <- <- <- <-]. cbn [app length io_data io_pos plain set_mode];
      repeat split; try reflexivity; lia. }
    destruct (b2z c <? 224).
    { destruct bs as [| d bs]; [discriminate |].
      plain_step. intros [= <- _ <- <- <-]. cbn [app length io_data io_pos plain set_mode];
      repeat split; try reflexivity; lia. }
    destruct (b2z c <? 255).
    { destruct bs as [| b3 bs]; [discriminate |]. plain_step.
      destruct bs as [| b2 bs]; [discriminate |]. plain_step.
      destruct bs as [| b1 bs]; [discriminate |]. plain_step.
      destruct bs as [| b0 bs]; [discriminate |]. plain_step.
      unfold ret. rewrite be32_lor by apply b2z_range.
      intros [= <- _ <- <- <-]. cbn [app length io_data io_pos plain set_mode];
      repeat split; try reflexivity; lia. }
    cbv [bind iobuf_set_partial_block_mode ret].
    intros [= <- <- <- <- <-]. cbn [app length io_data io_pos plain set_mode];
      repeat split; try reflexivity; lia.
  - destruct (Z.eqb_spec (if Z.land (b2z ctb) 3 =? 3 then 0
                          else Z.shiftl 1 (Z.land (b2z ctb) 3)) 0) as [E | E].
    + destruct (negb (told =? PKT_COMPRESSED));
        cbv [bind iobuf_set_block_mode ret];
        intros [= <- <- <- <- <-]; cbn [app length io_data io_pos plain set_mode];
        repeat split; try reflexivity; lia.
    + intros H. apply bind_inv in H.
      destruct H as ([l h] & s1 & Hr & H). injection H as <- <- <- <- <-.
      apply read_len_plain_inv in Hr.
      destruct Hr as (lf & -> & Hlf & -> & Hbs).
      cbn [io_data io_pos plain app length].
      split; [f_equal; exact Hbs |].
      rewrite Hlf.
      split; [lia |]. split; lia.
Qed.

Lemma read_header_takes_its_header_witness :
  world_new = [xcd; x05] ++ io_data (plain [x77; x6f; x72; x6c; x64] 2)
  /\ io_pos (plain [x77; x6f; x72; x6c; x64] 2) = 0 + Z.of_nat (length [xcd; x05])
  /\ (1 <= length [xcd; x05] <= 6)%nat
  /\ 0 <= 13 < (if true then 64 else 16).
Proof.
  apply (read_header_takes_its_header world_new 0 13 5 [xcd; x05] true
           (plain [x77; x6f; x72; x6c; x64] 2)).
  reflexivity.
Defined.

(** ** parse_plaintext *)

Lemma read_name_plain (k : nat) :
  forall (bs rest : list byte) (pos p : Z),
    4 <= p < 2 ^ 32 ->
    length bs = Nat.min k (Z.to_nat (p - 4)) ->
    read_name k p (plain (bs ++ rest) pos)
    = Done (bs, p - Z.of_nat (length bs))
           (plain rest (pos + Z.of_nat (length bs))).
Proof.
  induction k as [| k IH]; intros bs rest pos p Hp Hlen.
  - destruct bs; [| discriminate]. cbn. unfold ret.
    f_equal; [f_equal; lia | unfold plain; f_equal; lia].
  - cbn [read_name]. destruct (Z.ltb_spec 4 p) as [Hgt | Hle].
    + destruct bs as [| b bs]; [cbn [length] in Hlen; lia |].
      cbn [app length] in *. plain_step. rewrite dec_small by lia.
      rewrite (bind_done _ _ _ _ _ (IH bs rest (pos + 1) (p - 1) ltac:(lia)
                                      ltac:(lia))).
      unfold ret. f_equal; [f_equal; lia | unfold plain; f_equal; lia].
    + destruct bs as [| b bs]; [| cbn [length] in Hlen; lia].
      cbn. unfold ret. f_equal; [f_equal; lia | unfold plain; f_equal; lia].
Qed.

(** X21.  On a plaintext packet of definite length (6 bytes or more) the
    name is cut to what the packet holds before the four bytes of the
    timestamp, and the length recorded for the data is exactly the number
    of body bytes not yet read: header fields and data length add up to
    the packet length, and the source handed to the caller stands on the
    first data byte. *)
Theorem plaintext_lengths_add_up (pkttype : Z) (pkt : PACKET)
  (mode namelen : byte) (tail rest : list byte) (pos : Z) :
  (4 <= length tail)%nat ->
  Z.of_nat (length tail) + 2 < 2 ^ 32 ->
  let pktlen := 2 + Z.of_nat (length tail) in
  let k := Nat.min (Z.to_nat (b2z namelen)) (length tail - 4) in
  let data := skipn (k + 4) tail in
  let source := plain (data ++ rest) (pos + 2 + Z.of_nat k + 4) in
  parse_plaintext pkttype pktlen pkt (plain (mode :: namelen :: tail ++ rest) pos)
  = Done (0, set_body
              (Plaintext
                 (mkPlaintext (Z.of_nat (length data)) source (b2z mode)
                    (be_value (firstn 4 (skipn k tail))) (b2z namelen)
                    (firstn k tail)))
              pkt)
         source
  /\ 2 + Z.of_nat k + 4 + Z.of_nat (length data) = pktlen.
Proof.
  intros Htail Hfit pktlen k data source.
  assert (Hk : (k <= length tail - 4)%nat) by (subst k; lia).
  assert (Hdata : length data = (length tail - (k + 4))%nat)
    by (subst data; apply length_skipn).
  split; [| subst pktlen; lia].
  unfold parse_plaintext. subst pktlen.
  replace (2 + Z.of_nat (length tail) =? 0) with false
    by (symmetry; apply Z.eqb_neq; lia).
  replace (2 + Z.of_nat (length tail) <? 6) with false
    by (symmetry; apply Z.ltb_ge; lia).
  cbn [negb andb]. do 2 plain_step.
  rewrite (dec_small (2 + Z.of_nat (length tail)) 1) by lia.
  replace (2 + Z.of_nat (length tail) - 1 =? 0) with false
    by (symmetry; apply Z.eqb_neq; lia).
  cbn [negb]. rewrite (dec_small (2 + Z.of_nat (length tail) - 1) 1) by lia.
  replace (2 + Z.of_nat (length tail) - 1 - 1 =? 0) with false
    by (symmetry; apply Z.eqb_neq; lia).
  cbn [negb].
  (* the name *)
  assert (Esplit : tail = firstn k tail ++ firstn 4 (skipn k tail) ++ data).
  { subst data. rewrite <- (firstn_skipn k tail) at 1. f_equal.
    rewrite <- (firstn_skipn 4 (skipn k tail)) at 1. f_equal.
    rewrite skipn_skipn. f_equal. lia. }
  assert (Hname : length (firstn k tail) = k) by (apply firstn_length_le; lia).
  assert (Hts : length (firstn 4 (skipn k tail)) = 4%nat)
    by (apply firstn_length_le; rewrite length_skipn; lia).
  set (name := firstn k tail) in *. set (ts := firstn 4 (skipn k tail)) in *.
  assert (E2 : tail ++ rest = name ++ ts ++ data ++ rest)
    by (rewrite Esplit at 1; rewrite <- !app_assoc; reflexivity).
  rewrite E2.
  rewrite (bind_done _ _ _ _ _
             (read_name_plain (Z.to_nat (b2z namelen)) name (ts ++ data ++ rest)
                (pos + 1 + 1) (2 + Z.of_nat (length tail) - 1 - 1) ltac:(lia)
                ltac:(rewrite Hname; subst k; lia))).
  cbv beta iota.
  destruct ts as [| t3 [| t2 [| t1 [| t0 [| ? ?]]]]]; try discriminate Hts.
  cbn [app].
  rewrite (bind_done _ _ _ _ _ (read_32_plain t3 t2 t1 t0 (data ++ rest) _)).
  rewrite Hname.
  replace (2 + Z.of_nat (length tail) - 1 - 1 - Z.of_nat k =? 0) with false
    by (symmetry; apply Z.eqb_neq; lia).
  cbn [negb]. rewrite dec_small by lia.
  unfold bind, get_source, ret. subst source.
  replace (pos + 1 + 1 + Z.of_nat k + 4) with (pos + 2 + Z.of_nat k + 4) by lia.
  replace (2 + Z.of_nat (length tail) - 1 - 1 - Z.of_nat k - 4)
    with (Z.of_nat (length data)) by lia.
  reflexivity.
Qed.

Lemma plaintext_lengths_add_up_witness :
  parse_plaintext PKT_PLAINTEXT 11 init_packet
    (plain (x62 :: x02 :: plaintext_tail ++ hello_legacy) 0)
  = Done (0, set_body
              (Plaintext
                 (mkPlaintext 3 (plain ([x61; x62; x63] ++ hello_legacy) 8) 98
                    (be_value [x5f; x00; x00; x01]) 2 [x68; x69]))
              init_packet)
         (plain ([x61; x62; x63] ++ hello_legacy) 8)
  /\ 2 + 2 + 4 + 3 = 11.
Proof.
  apply (plaintext_lengths_add_up PKT_PLAINTEXT init_packet x62 x02 plaintext_tail
           hello_legacy 0); cbn; lia.
Defined.

(** ** parse_onepass_sig *)

(** X22.  A one-pass signature body of 13 bytes or more that starts with
    version 3 fills the record with the class, the two algorithms, the key
    id read as two big-endian words and the flag; every other body (too
    short, or another version) leaves the record as it was.  In both
    cases the return code is 0 and exactly the body is taken off the
    source. *)
Theorem onepass_sig_fields (pkttype : Z) (ops : PKT_onepass_sig)
  (body rest : list byte) (pos : Z) :
  Z.of_nat (length body) < 2 ^ 32 ->
  parse_onepass_sig pkttype (Z.of_nat (length body)) ops (plain (body ++ rest) pos)
  = Done (0,
          match body with
          | v :: c :: d :: p :: k0 :: k1 :: k2 :: k3 :: k4 :: k5 :: k6 :: k7
              :: l :: _ =>
              if b2z v =? 3 then
                mkOnepass (be_value [k0; k1; k2; k3]) (be_value [k4; k5; k6; k7])
                  (b2z c) (b2z d) (b2z p) (b2z l)
              else ops
          | _ => ops
          end)
         (plain rest (pos + Z.of_nat (length body))).
Proof.
  intros Hfit. unfold parse_onepass_sig.
  destruct (Z.ltb_spec (Z.of_nat (length body)) 13) as [Hshort | Hlong].
  - rewrite leave_plain.
    do 13 (destruct body as [| ? body]; [reflexivity |]).
    cbn [length] in Hshort. lia.
  - destruct body as [| v body]; [cbn [length] in Hlong; lia |].
    cbn [app]. plain_step.
    set (L := Z.of_nat (length (v :: body))) in *.
    assert (HL : L = 1 + Z.of_nat (length body)) by (subst L; cbn [length]; lia).
    rewrite (dec_small L 1) by lia.
    destruct (Z.eqb_spec (b2z v) 3) as [Ev | Ev]; cbn [negb].
    + do 12 (destruct body as [| ? body]; [cbn [length] in HL; lia |]).
      cbn [app]. do 3 plain_step.
      rewrite (bind_done _ _ _ _ _ (read_32_plain _ _ _ _ _ _)).
      rewrite (bind_done _ _ _ _ _ (read_32_plain _ _ _ _ _ _)).
      plain_step.
      cbn [length] in HL.
      rewrite (dec_small (L - 1) 1), (dec_small (L - 1 - 1) 1),
        (dec_small (L - 1 - 1 - 1) 1), (dec_small (L - 1 - 1 - 1 - 1) 4),
        (dec_small (L - 1 - 1 - 1 - 1 - 4) 4),
        (dec_small (L - 1 - 1 - 1 - 1 - 4 - 4) 1) by lia.
      rewrite (leave_plain_gen _ _ body rest _ _ _ eq_refl) by lia.
      f_equal. unfold plain. f_equal. lia.
    + rewrite (leave_plain_gen _ _ body rest _ _ _ eq_refl) by lia.
      f_equal.
      * do 12 (destruct body as [| ? body]; [reflexivity |]). reflexivity.
      * unfold plain. f_equal. lia.
Qed.

Lemma onepass_sig_fields_witness :
  parse_onepass_sig PKT_ONEPASS_SIG 13 onepass_clear
    (plain (onepass_body ++ hello_legacy) 0)
  = Done (0, mkOnepass (be_value [xb4; x05; x48; x65])
               (be_value [x6c; x6c; x6f; x21]) 0 2 1 1)
         (plain hello_legacy 13).
Proof.
  apply (onepass_sig_fields PKT_ONEPASS_SIG onepass_clear onepass_body
           hello_legacy 0).
  cbn. lia.
Defined.

(** ** Integers within a packet *)

(** [mpi_read] on the bytes of a whole integer takes exactly these bytes,
    whatever the caller has put into the counter. *)
Lemma mpi_read_encoded (nmax : Z) (m rest : list byte) (pos : Z) :
  mpi_encoded m ->
  mpi_read nmax (plain (m ++ rest) pos)
  = Done (mpi_decode m, Z.of_nat (length m))
         (plain rest (pos + Z.of_nat (length m))).
Proof.
  intros [H2 Hlen].
  destruct m as [| c1 [| c2 val]]; try (cbn [length] in H2; lia).
  unfold mpi_decode. unfold mpi_bits in *. cbn [nth skipn] in *.
  unfold mpi_read. cbn [app]. do 2 plain_step. cbv zeta.
  assert (Hk : (b2z c1 * 256 + b2z c2 + 7) / 8 = Z.of_nat (length val))
    by (cbn [length] in Hlen; lia).
  rewrite Hk.
  assert (Hread : exists got : Z,
             iobuf_read (Z.of_nat (length val)) (plain (val ++ rest) (pos + 1 + 1))
             = Done (got, val)
                    (plain rest (pos + 1 + 1 + Z.of_nat (length val)))).
  { destruct val as [| v0 val'].
    - exists 0. unfold iobuf_read. cbn. rewrite Z.add_0_r. reflexivity.
    - eexists. unfold plain.
      apply iobuf_read_exact; [left; reflexivity | discriminate]. }
  destruct Hread as [got Hr]. rewrite (bind_done _ _ _ _ _ Hr). cbv beta iota.
  rewrite Z.ltb_irrefl. unfold ret.
  f_equal; [f_equal; cbn [length]; lia | unfold plain; f_equal; cbn [length]; lia].
Qed.

(** Run the [mpi_read] that stands first on the integer [m]; [H] says
    that [m] is whole. *)
Ltac mpi_take H :=
  rewrite (bind_done _ _ _ _ _ (mpi_read_encoded _ _ _ _ H)); cbv beta iota.

Lemma mpi_encoded_length (m : list byte) :
  mpi_encoded m -> 2 <= Z.of_nat (length m) <= 8195.
Proof.
  intros [H2 Hlen]. unfold mpi_bits in Hlen.
  pose proof (b2z_range (nth 0 m x00)). pose proof (b2z_range (nth 1 m x00)).
  assert ((b2z (nth 0 m x00) * 256 + b2z (nth 1 m x00) + 7) / 8 <= 8193)
    by (apply Z.div_le_upper_bound; lia).
  lia.
Qed.

(** ** parse_pubkeyenc *)

(** X23.  [parse_pubkeyenc] keeps to its packet when the packet holds
    its integers.  A body shorter than 12 bytes, or one that starts with
    a version other than 2 and 3, is taken off the source whole, with
    return code 0.  A body of 12 bytes or more with version 2 or 3 whose
    integers (two for ElGamal, one for RSA, none for another algorithm)
    are whole within it gives return code 0 and a record with the
    version, the key id read as two big-endian words, the algorithm and,
    for ElGamal and RSA, the integers; exactly the body is taken off the
    source, the bytes behind the integers included. *)
Theorem pubkeyenc_keeps_to_its_packet (pkttype : Z) (packet : PACKET)
  (body rest : list byte) (pos : Z) :
  Z.of_nat (length body) < 2 ^ 32 ->
  ((length body < 12)%nat
   \/ (b2z (nth 0 body x00) <> 2 /\ b2z (nth 0 body x00) <> 3) ->
   exists k : PKT_pubkey_enc,
     parse_pubkeyenc pkttype (Z.of_nat (length body)) packet
       (plain (body ++ rest) pos)
     = Done (0, set_body (Pubkey_enc k) packet)
            (plain rest (pos + Z.of_nat (length body))))
  /\ (forall (v : byte) (kid : list byte) (algo : byte)
             (ms : list (list byte)) (extra : list byte),
         body = v :: kid ++ algo :: concat ms ++ extra ->
         (12 <= length body)%nat ->
         b2z v = 2 \/ b2z v = 3 ->
         length kid = 8%nat ->
         Forall mpi_encoded ms ->
         length ms = pubkeyenc_count (b2z algo) ->
         exists k : PKT_pubkey_enc,
           parse_pubkeyenc pkttype (Z.of_nat (length body)) packet
             (plain (body ++ rest) pos)
           = Done (0, set_body (Pubkey_enc k) packet)
                  (plain rest (pos + Z.of_nat (length body)))
           /\ pke_version k = b2z v
           /\ pke_keyid0 k = be_value (firstn 4 kid)
           /\ pke_keyid1 k = be_value (skipn 4 kid)
           /\ pke_pubkey_algo k = b2z algo
           /\ (is_ELGAMAL (b2z algo) = true ->
               pke_d k = EncElg (mpi_decode (nth 0 ms []))
                           (mpi_decode (nth 1 ms [])))
           /\ (is_ELGAMAL (b2z algo) = false -> is_RSA (b2z algo) = true ->
               pke_d k = EncRsa (mpi_decode (nth 0 ms [])))).
Proof.
  intros Hfit. split.
  - intros Hcase. unfold parse_pubkeyenc.
    destruct (Z.ltb_spec (Z.of_nat (length body)) 12) as [Hshort | Hlong].
    { eexists. apply leave_plain. }
    destruct Hcase as [Hlt | [Hv2 Hv3]]; [lia |].
    destruct body as [| v body]; [cbn [length] in Hlong; lia |].
    cbn [nth] in Hv2, Hv3. cbn [app]. plain_step. cbv zeta.
    replace (negb (b2z v =? 2) && negb (b2z v =? 3)) with true
      by (symmetry; apply andb_true_iff; split; apply negb_true_iff;
          apply Z.eqb_neq; assumption).
    eexists.
    rewrite (leave_plain_gen _ _ body rest _ _ _ eq_refl)
      by (rewrite dec_small; cbn [length] in *; lia).
    f_equal. unfold plain. f_equal.
    rewrite dec_small; cbn [length] in *; lia.
  - intros v kid algo ms extra -> Hlong Hv Hkid Hms Hd.
    destruct kid as [| k0 [| k1 [| k2 [| k3 [| k4 [| k5 [| k6 [| k7 [| ? ?]]]]]]]]];
      try discriminate Hkid.
    cbn [app firstn skipn] in *.
    set (r := concat ms ++ extra) in *.
    set (L := Z.of_nat (length (v :: k0 :: k1 :: k2 :: k3 :: k4 :: k5 :: k6 :: k7
                                  :: algo :: r))) in *.
    assert (HL : L = 10 + Z.of_nat (length r)) by (subst L; cbn [length]; lia).
    unfold parse_pubkeyenc.
    replace (L <? 12) with false by (symmetry; apply Z.ltb_ge; lia).
    plain_step. cbv zeta.
    replace (negb (b2z v =? 2) && negb (b2z v =? 3)) with false
      by (destruct Hv as [-> | ->]; reflexivity).
    rewrite (bind_done _ _ _ _ _ (read_32_plain _ _ _ _ _ _)).
    rewrite (bind_done _ _ _ _ _ (read_32_plain _ _ _ _ _ _)).
    plain_step.
    rewrite (dec_small L 1), (dec_small (L - 1) 4), (dec_small (L - 1 - 4) 4),
      (dec_small (L - 1 - 4 - 4) 1) by lia.
    replace (L - 1 - 4 - 4 - 1) with (Z.of_nat (length r)) by lia.
    replace (pos + L) with (pos + 1 + 4 + 4 + 1 + Z.of_nat (length r)) by lia.
    assert (Hr : Z.of_nat (length r) < 2 ^ 32) by lia.
    clearbody L. clear HL Hlong Hfit.
    unfold pubkeyenc_count in Hd. subst r.
    destruct (is_ELGAMAL (b2z algo)).
    + destruct ms as [| a [| b [| ? ?]]]; try discriminate Hd.
      inversion Hms as [| ? ? Ha Hms1]; subst.
      inversion Hms1 as [| ? ? Hb _]; subst.
      pose proof (mpi_encoded_length a Ha). pose proof (mpi_encoded_length b Hb).
      cbn [concat] in *. rewrite app_nil_r in *. rewrite <- !app_assoc.
      rewrite !length_app, !Nat2Z.inj_add in *.
      mpi_take Ha. rewrite dec_small by lia.
      mpi_take Hb. rewrite dec_small by lia.
      rewrite (leave_plain_gen _ _ extra rest _ _ _ eq_refl) by lia.
      eexists. split; [f_equal; unfold plain; f_equal; lia |].
      repeat split; try reflexivity; discriminate.
    + destruct (is_RSA (b2z algo)).
      * destruct ms as [| a [| ? ?]]; try discriminate Hd.
        inversion Hms as [| ? ? Ha _]; subst.
        pose proof (mpi_encoded_length a Ha).
        cbn [concat] in *. rewrite app_nil_r in *. rewrite <- !app_assoc.
        rewrite !length_app, !Nat2Z.inj_add in *.
        mpi_take Ha. rewrite dec_small by lia.
        rewrite (leave_plain_gen _ _ extra rest _ _ _ eq_refl) by lia.
        eexists. split; [f_equal; unfold plain; f_equal; lia |].
        repeat split; try reflexivity; discriminate.
      * destruct ms as [| ? ?]; try discriminate Hd.
        cbn [concat app]. rewrite leave_plain.
        eexists. split; [reflexivity |].
        repeat split; try reflexivity; discriminate.
Qed.

Lemma pubkeyenc_keeps_to_its_packet_witness :
  exists k : PKT_pubkey_enc,
    parse_pubkeyenc PKT_PUBKEY_ENC 13 init_packet
      (plain (pubkeyenc_body ++ hello_legacy) 0)
    = Done (0, set_body (Pubkey_enc k) init_packet) (plain hello_legacy 13)
    /\ pke_version k = 3
    /\ pke_keyid0 k = be_value [xb4; x05; x48; x65]
    /\ pke_keyid1 k = be_value [x6c; x6c; x6f; x21]
    /\ pke_pubkey_algo k = 1
    /\ pke_d k = EncRsa (Some (mkMPI 8 [x80])).
Proof.
  destruct (proj2 (pubkeyenc_keeps_to_its_packet PKT_PUBKEY_ENC init_packet
                     pubkeyenc_body hello_legacy 0 ltac:(cbn; lia))
              x03 sig_v3_keyid x01 [mpi_80] [] eq_refl ltac:(cbn; lia)
              (or_intror eq_refl) eq_refl
              ltac:(apply Forall_cons;
                    [split; [cbn; lia | reflexivity] | apply Forall_nil])
              eq_refl)
    as (k & Hrun & Hv & Hk0 & Hk1 & Ha & _ & Hrsa).
  exists k. repeat split; try assumption.
  apply Hrsa; reflexivity.
Defined.

(** ** Signatures of version 2 and 3 *)

(** The fixed fields of a signature of version 2 or 3 (lines 663-681):
    17 bytes. *)
Lemma signature_v3_head (pkttype : Z) (sig : PKT_signature)
  (v md5 cls t3 t2 t1 t0 k0 k1 k2 k3 k4 k5 k6 k7 pa da : byte)
  (tail : list byte) (pos L : Z) :
  b2z v = 2 \/ b2z v = 3 ->
  16 <= L < 2 ^ 32 ->
  parse_signature pkttype L sig
    (plain (v :: md5 :: cls :: t3 :: t2 :: t1 :: t0 :: k0 :: k1 :: k2 :: k3
              :: k4 :: k5 :: k6 :: k7 :: pa :: da :: tail) pos)
  = signature_tail false (dec (L - 16) 1)
      (set_sig_digest_algo (b2z da)
         (set_sig_pubkey_algo (b2z pa)
            (set_sig_keyid (be_value [k0; k1; k2; k3]) (be_value [k4; k5; k6; k7])
               (set_sig_timestamp (be_value [t3; t2; t1; t0])
                  (set_sig_class (b2z cls) (set_sig_version (b2z v) sig))))))
      (plain tail (pos + 17)).
Proof.
  intros Hv HL. unfold parse_signature.
  replace (L <? 16) with false by (symmetry; apply Z.ltb_ge; lia).
  plain_step. cbv zeta.
  assert (H4 : (b2z v =? 4) = false) by (apply Z.eqb_neq; lia).
  assert (H23 : negb (b2z v =? 2) && negb (b2z v =? 3) = false)
    by (destruct Hv as [-> | ->]; reflexivity).
  rewrite H4. cbn [negb andb]. rewrite H23.
  rewrite bind_assoc. plain_step. rewrite bind_ret_l. cbv beta iota.
  plain_step.
  rewrite bind_assoc.
  rewrite (bind_done _ _ _ _ _ (read_32_plain _ _ _ _ _ _)). rewrite bind_assoc.
  rewrite (bind_done _ _ _ _ _ (read_32_plain _ _ _ _ _ _)). rewrite bind_assoc.
  rewrite (bind_done _ _ _ _ _ (read_32_plain _ _ _ _ _ _)).
  rewrite bind_ret_l. cbv beta iota.
  do 2 plain_step.
  rewrite (dec_small L 1), (dec_small (L - 1) 1), (dec_small (L - 1 - 1) 1),
    (dec_small (L - 1 - 1 - 1) 4), (dec_small (L - 1 - 1 - 1 - 4) 4),
    (dec_small (L - 1 - 1 - 1 - 4 - 4) 4),
    (dec_small (L - 1 - 1 - 1 - 4 - 4 - 4) 1) by lia.
  replace (L - 1 - 1 - 1 - 4 - 4 - 4 - 1) with (L - 16) by lia.
  replace (pos + 1 + 1 + 1 + 4 + 4 + 4 + 1 + 1) with (pos + 17) by lia.
  reflexivity.
Qed.

(** The integers of a signature that are whole in the packet
    (lines 758-794). *)
Lemma read_sig_mpis_encoded (sig : PKT_signature) (ms : list (list byte))
  (extra rest : list byte) (d : sig_material) (pos : Z) :
  Forall mpi_encoded ms ->
  signature_integers (sig_pubkey_algo sig) ms (sig_d sig) = Some d ->
  Z.of_nat (length (concat ms ++ extra)) < 2 ^ 32 ->
  read_sig_mpis (Z.of_nat (length (concat ms ++ extra))) sig
    (plain ((concat ms ++ extra) ++ rest) pos)
  = Done (set_sig_d d sig, Z.of_nat (length extra))
         (plain (extra ++ rest) (pos + Z.of_nat (length (concat ms)))).
Proof.
  intros Hms Hd Hfit. unfold read_sig_mpis.
  unfold signature_integers in Hd.
  destruct (is_ELGAMAL (sig_pubkey_algo sig)).
  { destruct ms as [| a [| b [| ? ?]]]; try discriminate Hd.
    injection Hd as <-.
    inversion Hms as [| ? ? Ha Hms1]; subst.
    inversion Hms1 as [| ? ? Hb _]; subst.
    pose proof (mpi_encoded_length a Ha). pose proof (mpi_encoded_length b Hb).
    cbn [concat] in *. rewrite app_nil_r in *. rewrite <- !app_assoc.
    rewrite !length_app, !Nat2Z.inj_add in *.
    mpi_take Ha. rewrite dec_small by lia.
    mpi_take Hb. rewrite dec_small by lia.
    unfold ret. f_equal; [f_equal; lia | unfold plain; f_equal; lia]. }
  destruct (sig_pubkey_algo sig =? PUBKEY_ALGO_DSA).
  { destruct ms as [| a [| b [| ? ?]]]; try discriminate Hd.
    injection Hd as <-.
    inversion Hms as [| ? ? Ha Hms1]; subst.
    inversion Hms1 as [| ? ? Hb _]; subst.
    pose proof (mpi_encoded_length a Ha). pose proof (mpi_encoded_length b Hb).
    cbn [concat] in *. rewrite app_nil_r in *. rewrite <- !app_assoc.
    rewrite !length_app, !Nat2Z.inj_add in *.
    mpi_take Ha. rewrite dec_small by lia.
    mpi_take Hb. rewrite dec_small by lia.
    unfold ret. f_equal; [f_equal; lia | unfold plain; f_equal; lia]. }
  destruct (is_RSA (sig_pubkey_algo sig)).
  { destruct ms as [| a [| ? ?]]; try discriminate Hd.
    injection Hd as <-.
    inversion Hms as [| ? ? Ha _]; subst.
    pose proof (mpi_encoded_length a Ha).
    cbn [concat] in *. rewrite app_nil_r in *. rewrite <- !app_assoc.
    rewrite !length_app, !Nat2Z.inj_add in *.
    mpi_take Ha. rewrite dec_small by lia.
    unfold ret. f_equal. f_equal. lia. }
  destruct ms as [| ? ?]; try discriminate Hd.
  injection Hd as <-. cbn [concat app length]. unfold ret.
  replace (set_sig_d (sig_d sig) sig) with sig by (destruct sig; reflexivity).
  change (Z.of_nat 0) with 0. rewrite Z.add_0_r. reflexivity.
Qed.

(** X24.  A signature of version 2 or 3 is read within its packet when
    the packet holds its integers.  The body is the 17 bytes of the fixed
    fields and what follows them; version, class, creation time, key id
    and the two algorithms are stored as they stand.  With fewer than 5
    bytes behind the fixed fields the return code is
    [G10ERR_INVALID_PACKET] and the body is taken off the source whole.
    With 5 bytes or more that are the two bytes of the digest start and
    then the integers of the algorithm (two for ElGamal and DSA, one for
    RSA, none for another algorithm), whole within the packet, the return
    code is 0, the record holds digest start and integers, and exactly
    the body is taken off the source, the bytes behind the integers
    included. *)
Theorem signature_v3_fields (pkttype : Z) (sig : PKT_signature)
  (v md5 cls : byte) (ts kid : list byte) (pa da : byte)
  (tail rest : list byte) (pos : Z) :
  b2z v = 2 \/ b2z v = 3 ->
  length ts = 4%nat -> length kid = 8%nat ->
  Z.of_nat (length tail) + 17 < 2 ^ 32 ->
  let body := v :: md5 :: cls :: ts ++ kid ++ pa :: da :: tail in
  ((length tail < 5)%nat ->
   exists sig' : PKT_signature,
     parse_signature pkttype (Z.of_nat (length body)) sig
       (plain (body ++ rest) pos)
     = Done (G10ERR_INVALID_PACKET, sig')
            (plain rest (pos + Z.of_nat (length body)))
     /\ sig_v3_fixed sig' v cls ts kid pa da)
  /\ (forall (d0 d1 : byte) (ms : list (list byte)) (extra : list byte)
             (d : sig_material),
         tail = d0 :: d1 :: concat ms ++ extra ->
         (5 <= length tail)%nat ->
         Forall mpi_encoded ms ->
         signature_integers (b2z pa) ms (sig_d sig) = Some d ->
         exists sig' : PKT_signature,
           parse_signature pkttype (Z.of_nat (length body)) sig
             (plain (body ++ rest) pos)
           = Done (0, sig') (plain rest (pos + Z.of_nat (length body)))
           /\ sig_v3_fixed sig' v cls ts kid pa da
           /\ sig_digest_start sig' = [d0; d1]
           /\ sig_d sig' = d).
Proof.
  intros Hv Hts Hkid Hfit body.
  destruct ts as [| t3 [| t2 [| t1 [| t0 [| ? ?]]]]]; try discriminate Hts.
  destruct kid as [| k0 [| k1 [| k2 [| k3 [| k4 [| k5 [| k6 [| k7 [| ? ?]]]]]]]]];
    try discriminate Hkid.
  subst body. cbn [app].
  assert (HL : Z.of_nat (length (v :: md5 :: cls :: t3 :: t2 :: t1 :: t0 :: k0
                                   :: k1 :: k2 :: k3 :: k4 :: k5 :: k6 :: k7
                                   :: pa :: da :: tail))
               = 17 + Z.of_nat (length tail)) by (cbn [length]; lia).
  rewrite HL.
  rewrite signature_v3_head by (assumption || lia).
  rewrite dec_small by lia.
  replace (17 + Z.of_nat (length tail) - 16 - 1) with (Z.of_nat (length tail))
    by lia.
  unfold signature_tail. split.
  - intros Hshort.
    replace (Z.of_nat (length tail) <? 5) with true
      by (symmetry; apply Z.ltb_lt; lia).
    eexists. split.
    { rewrite leave_plain. f_equal. unfold plain. f_equal. lia. }
    destruct sig. repeat split; reflexivity.
  - intros d0 d1 ms extra d -> Hlong Hms Hd.
    replace (Z.of_nat (length (d0 :: d1 :: concat ms ++ extra)) <? 5) with false
      by (symmetry; apply Z.ltb_ge; lia).
    cbn [app]. do 2 plain_step. cbv zeta. rewrite bind_ret_l.
    cbn [length] in Hfit, Hlong.
    rewrite (dec_small (Z.of_nat (length (d0 :: d1 :: concat ms ++ extra))) 1)
      by (cbn [length]; lia).
    rewrite (dec_small (Z.of_nat (length (d0 :: d1 :: concat ms ++ extra)) - 1) 1)
      by (cbn [length]; lia).
    replace (Z.of_nat (length (d0 :: d1 :: concat ms ++ extra)) - 1 - 1)
      with (Z.of_nat (length (concat ms ++ extra))) by (cbn [length]; lia).
    match goal with
    | |- context [read_sig_mpis _ ?s] =>
        rewrite (bind_done _ _ _ _ _
                   (read_sig_mpis_encoded s ms extra rest d (pos + 17 + 1 + 1) Hms
                      ltac:(destruct sig; exact Hd) ltac:(lia)))
    end.
    cbv beta iota. eexists. split.
    { rewrite leave_plain. f_equal. unfold plain. f_equal.
      cbn [length]. rewrite length_app. lia. }
    destruct sig. repeat split; reflexivity.
Qed.

Lemma signature_v3_fields_witness :
  exists sig' : PKT_signature,
    parse_signature PKT_SIGNATURE 22 signature_clear
      (plain ((x03 :: x05 :: x00 :: sig_v3_timestamp ++ sig_v3_keyid
                 ++ x01 :: x01 :: sig_v3_tail) ++ hello_legacy) 0)
    = Done (0, sig') (plain hello_legacy 22)
    /\ sig_v3_fixed sig' x03 x00 sig_v3_timestamp sig_v3_keyid x01 x01
    /\ sig_digest_start sig' = [xab; xcd]
    /\ sig_d sig' = SigRsa (Some (mkMPI 8 [x80])).
Proof.
  apply (proj2 (signature_v3_fields PKT_SIGNATURE signature_clear x03 x05 x00
                  sig_v3_timestamp sig_v3_keyid x01 x01 sig_v3_tail hello_legacy
                  0 (or_intror eq_refl) eq_refl eq_refl ltac:(cbn; lia))
           xab xcd [mpi_80] []).
  - reflexivity.
  - cbn. lia.
  - apply Forall_cons; [split; [cbn; lia | reflexivity] | apply Forall_nil].
  - reflexivity.
Defined.

(** ** Reading past the end of a packet *)

Lemma get_n_at_eof (n : nat) (pos : Z) :
  get_n n (plain [] pos) = Done tt (plain [] pos).
Proof.
  induction n as [| n IH]; [reflexivity |].
  cbn [get_n]. plain_step. exact IH.
Qed.

(** A counter larger than what the source holds makes [skip_rest] take
    everything. *)
Lemma get_n_all (bs : list byte) :
  forall (n : nat) (pos : Z),
    (length bs <= n)%nat ->
    get_n n (plain bs pos) = Done tt (plain [] (pos + Z.of_nat (length bs))).
Proof.
  induction bs as [| b bs IH]; intros n pos Hn.
  - cbn [length]. change (Z.of_nat 0) with 0. rewrite Z.add_0_r.
    apply get_n_at_eof.
  - destruct n as [| n]; [cbn [length] in Hn; lia |].
    cbn [get_n length] in *. plain_step. rewrite IH by lia.
    f_equal. unfold plain. f_equal. lia.
Qed.

Lemma skip_rest_all (pktlen : Z) (bs : list byte) (pos : Z) :
  Z.of_nat (length bs) <= pktlen ->
  skip_rest pktlen (plain bs pos)
  = Done tt (plain [] (pos + Z.of_nat (length bs))).
Proof.
  intros Hp. unfold skip_rest, bind, iobuf_in_block_mode. cbn [io_mode plain].
  apply get_n_all. lia.
Qed.

Lemma leave_all {A : Type} (rc pktlen : Z) (a : A) (bs : list byte) (pos : Z) :
  Z.of_nat (length bs) <= pktlen ->
  leave rc pktlen a (plain bs pos)
  = Done (rc, a) (plain [] (pos + Z.of_nat (length bs))).
Proof.
  intros Hp. unfold leave.
  rewrite (bind_done _ _ _ _ _ (skip_rest_all pktlen bs pos Hp)). reflexivity.
Qed.

(** [mpi_read] on a plain source that holds whatever bytes: it takes [n]
    of them, at most what the source holds, and reports [n]. *)
Lemma mpi_read_plain_any (bs : list byte) (pos nmax : Z) :
  exists (m : option MPI) (n : nat),
    mpi_read nmax (plain bs pos)
    = Done (m, Z.of_nat n) (plain (skipn n bs) (pos + Z.of_nat n))
    /\ (n <= length bs)%nat.
Proof.
  unfold mpi_read.
  destruct bs as [| c1 bs].
  { exists None, 0%nat. plain_step. cbn [skipn]. unfold ret. rewrite Z.add_0_r.
    split; [reflexivity | cbn [length]; lia]. }
  plain_step.
  destruct bs as [| c2 tail].
  { exists None, 1%nat. plain_step. cbn [skipn]. unfold ret.
    split; [reflexivity | cbn [length]; lia]. }
  plain_step.
  set (nb := b2z c1 * 256 + b2z c2).
  pose proof (b2z_range c1) as H1. pose proof (b2z_range c2) as H2.
  assert (Hnb : 0 <= (nb + 7) / 8) by (apply Z.div_pos; lia).
  cbv zeta.
  set (k := Z.to_nat ((nb + 7) / 8)).
  assert (Hkz : (nb + 7) / 8 = Z.of_nat k) by (subst k; lia).
  rewrite Hkz.
  destruct (Nat.le_gt_cases k (length tail)) as [Hk | Hk].
  - destruct (split_at k tail Hk) as (Esplit & Ha & Hb).
    set (a := firstn k tail) in *. set (b := skipn k tail) in *.
    assert (Hread : exists got,
               iobuf_read (Z.of_nat k) (plain tail (pos + 1 + 1))
               = Done (got, a) (plain b (pos + 1 + 1 + Z.of_nat k))).
    { destruct k as [| k'].
      - exists 0. subst a b. cbn [firstn skipn].
        unfold iobuf_read. cbn. rewrite Z.add_0_r. reflexivity.
      - exists (Z.of_nat (S k')).
        assert (Hane : a <> [])
          by (intros E; rewrite E in Ha; cbn in Ha; lia).
        rewrite Esplit at 1. rewrite <- Ha. unfold plain.
        apply iobuf_read_exact; [left; reflexivity | exact Hane]. }
    destruct Hread as [got Hr].
    exists (Some (mkMPI nb a)), (S (S k)). cbn [skipn]. fold b.
    rewrite (bind_done _ _ _ _ _ Hr). cbv beta iota.
    replace (Z.of_nat (length a) <? Z.of_nat k) with false
      by (symmetry; apply Z.ltb_ge; lia).
    unfold ret.
    split; [f_equal; [f_equal; lia | unfold plain; f_equal; lia] |].
    cbn [length]. lia.
  - exists None, (S (S (length tail))). cbn [skipn]. rewrite skipn_all.
    unfold bind, iobuf_read. unfold plain at 1.
    rewrite (iobuf_read_loop_short tail (Z.to_nat (Z.of_nat k)) (pos + 1 + 1)
               Plain (or_introl eq_refl)) by lia.
    assert (Hlt : (Z.of_nat (length tail) <? Z.of_nat k) = true)
      by (apply Z.ltb_lt; lia).
    destruct tail as [| t0 tail'].
    + cbn [length] in *. change (Z.of_nat 0) with 0 in *.
      rewrite Hlt. unfold ret. rewrite Z.add_0_r.
      split; [f_equal; unfold plain; f_equal; lia | lia].
    + cbv beta iota. rewrite Hlt. unfold ret.
      split; [f_equal; [f_equal; lia | unfold plain; f_equal; lia] |].
      cbn [length] in *. lia.
Qed.

(** The integers of a signature read with a counter that is larger than
    what the source holds. *)
Lemma read_sig_mpis_any (sig : PKT_signature) (bs : list byte) (pos pktlen : Z) :
  Z.of_nat (length bs) <= pktlen < 2 ^ 32 ->
  exists (d : sig_material) (n : nat),
    read_sig_mpis pktlen sig (plain bs pos)
    = Done (set_sig_d d sig, pktlen - Z.of_nat n)
           (plain (skipn n bs) (pos + Z.of_nat n))
    /\ (n <= length bs)%nat /\ Z.of_nat n <= pktlen.
Proof.
  intros Hp.
  assert (Htwo : forall (A : Type) (k : option MPI * Z -> M A)
                        (bs1 : list byte) (pos1 p1 : Z),
             Z.of_nat (length bs1) <= p1 < 2 ^ 32 ->
             exists (m : option MPI) (n : nat),
               bind (mpi_read p1) k (plain bs1 pos1)
               = k (m, Z.of_nat n) (plain (skipn n bs1) (pos1 + Z.of_nat n))
               /\ (n <= length bs1)%nat
               /\ dec p1 (Z.of_nat n) = p1 - Z.of_nat n).
  { intros A k bs1 pos1 p1 Hp1.
    destruct (mpi_read_plain_any bs1 pos1 p1) as (m & n & Hm & Hn).
    exists m, n. rewrite (bind_done _ _ _ _ _ Hm).
    split; [reflexivity |]. split; [exact Hn |].
    apply dec_small; lia. }
  unfold read_sig_mpis.
  destruct (is_ELGAMAL (sig_pubkey_algo sig)).
  { destruct (Htwo _ (fun x => let (a, n) := x in
                       bind (mpi_read (dec pktlen n))
                         (fun y => let (b, n0) := y in
                            ret (set_sig_d (SigElg a b) sig, dec (dec pktlen n) n0)))
                bs pos pktlen Hp) as (m1 & n1 & H1 & Hn1 & Hd1).
    rewrite H1. cbv beta iota. rewrite Hd1.
    destruct (Htwo _ (fun y => let (b, n0) := y in
                       ret (set_sig_d (SigElg m1 b) sig,
                            dec (pktlen - Z.of_nat n1) n0))
                (skipn n1 bs) (pos + Z.of_nat n1) (pktlen - Z.of_nat n1)
                ltac:(rewrite length_skipn; lia)) as (m2 & n2 & H2 & Hn2 & Hd2).
    rewrite H2. cbv beta iota. rewrite Hd2. unfold ret.
    rewrite length_skipn in Hn2.
    exists (SigElg m1 m2), (n1 + n2)%nat. rewrite skipn_skipn.
    split; [f_equal; [f_equal; lia | unfold plain; f_equal; [f_equal; lia | lia]] |].
    lia. }
  destruct (sig_pubkey_algo sig =? PUBKEY_ALGO_DSA).
  { destruct (Htwo _ (fun x => let (a, n) := x in
                       bind (mpi_read (dec pktlen n))
                         (fun y => let (b, n0) := y in
                            ret (set_sig_d (SigDsa a b) sig, dec (dec pktlen n) n0)))
                bs pos pktlen Hp) as (m1 & n1 & H1 & Hn1 & Hd1).
    rewrite H1. cbv beta iota. rewrite Hd1.
    destruct (Htwo _ (fun y => let (b, n0) := y in
                       ret (set_sig_d (SigDsa m1 b) sig,
                            dec (pktlen - Z.of_nat n1) n0))
                (skipn n1 bs) (pos + Z.of_nat n1) (pktlen - Z.of_nat n1)
                ltac:(rewrite length_skipn; lia)) as (m2 & n2 & H2 & Hn2 & Hd2).
    rewrite H2. cbv beta iota. rewrite Hd2. unfold ret.
    rewrite length_skipn in Hn2.
    exists (SigDsa m1 m2), (n1 + n2)%nat. rewrite skipn_skipn.
    split; [f_equal; [f_equal; lia | unfold plain; f_equal; [f_equal; lia | lia]] |].
    lia. }
  destruct (is_RSA (sig_pubkey_algo sig)).
  { destruct (Htwo _ (fun x => let (a, n) := x in
                       ret (set_sig_d (SigRsa a) sig, dec pktlen n))
                bs pos pktlen Hp) as (m1 & n1 & H1 & Hn1 & Hd1).
    rewrite H1. cbv beta iota. rewrite Hd1. unfold ret.
    exists (SigRsa m1), n1. split; [reflexivity | lia]. }
  exists (sig_d sig), 0%nat. cbn [skipn]. unfold ret.
  split; [| lia]. destruct sig. cbn. f_equal; [f_equal; lia |].
  unfold plain. f_equal. lia.
Qed.

(** X25.  A signature of version 2 or 3 with a body of exactly 16 bytes
    passes the length check of line 659 although the fixed fields take 17
    bytes: the digest algorithm and the start of the digest are taken
    from the three bytes behind the packet, the counter wraps around, and
    the call returns 0 after taking everything that follows off the
    source, up to the end of the stream. *)
Theorem signature_v3_of_16_bytes_reads_on (pkttype : Z) (sig : PKT_signature)
  (v md5 cls : byte) (ts kid : list byte) (pa r0 r1 r2 : byte)
  (more : list byte) (pos : Z) :
  b2z v = 2 \/ b2z v = 3 ->
  length ts = 4%nat -> length kid = 8%nat ->
  Z.of_nat (length more) < 2 ^ 32 - 3 ->
  let body := v :: md5 :: cls :: ts ++ kid ++ [pa] in
  length body = 16%nat
  /\ exists sig' : PKT_signature,
       parse_signature pkttype 16 sig (plain (body ++ r0 :: r1 :: r2 :: more) pos)
       = Done (0, sig') (plain [] (pos + 16 + 3 + Z.of_nat (length more)))
       /\ sig_digest_algo sig' = b2z r0
       /\ sig_digest_start sig' = [r1; r2].
Proof.
  intros Hv Hts Hkid Hmore body.
  destruct ts as [| t3 [| t2 [| t1 [| t0 [| ? ?]]]]]; try discriminate Hts.
  destruct kid as [| k0 [| k1 [| k2 [| k3 [| k4 [| k5 [| k6 [| k7 [| ? ?]]]]]]]]];
    try discriminate Hkid.
  subst body. cbn [app]. split; [reflexivity |].
  rewrite signature_v3_head by (assumption || lia).
  change (dec (16 - 16) 1) with (2 ^ 32 - 1).
  unfold signature_tail.
  change (2 ^ 32 - 1 <? 5) with false. cbv iota.
  do 2 plain_step. cbv zeta. rewrite bind_ret_l.
  change (dec (dec (2 ^ 32 - 1) 1) 1) with (2 ^ 32 - 3).
  match goal with
  | |- context [read_sig_mpis _ ?s] =>
      destruct (read_sig_mpis_any s more (pos + 17 + 1 + 1) (2 ^ 32 - 3)
                  ltac:(lia)) as (d & n & Hm & Hn & Hle)
  end.
  rewrite (bind_done _ _ _ _ _ Hm). cbv beta iota.
  rewrite leave_all by (rewrite length_skipn; lia).
  eexists. split.
  { f_equal. unfold plain. f_equal. rewrite length_skipn. lia. }
  split; reflexivity.
Qed.

Lemma signature_v3_of_16_bytes_reads_on_witness :
  length (x03 :: x05 :: x00 :: sig_v3_timestamp ++ sig_v3_keyid ++ [x01]) = 16%nat
  /\ exists sig' : PKT_signature,
       parse_signature PKT_SIGNATURE 16 signature_clear
         (plain ((x03 :: x05 :: x00 :: sig_v3_timestamp ++ sig_v3_keyid ++ [x01])
                   ++ xb4 :: x05 :: x48 :: [x65; x6c; x6c; x6f]) 0)
       = Done (0, sig') (plain [] (0 + 16 + 3 + 4))
       /\ sig_digest_algo sig' = 180
       /\ sig_digest_start sig' = [x05; x48].
Proof.
  apply (signature_v3_of_16_bytes_reads_on PKT_SIGNATURE signature_clear x03 x05
           x00 sig_v3_timestamp sig_v3_keyid x01 xb4 x05 x48
           [x65; x6c; x6c; x6f] 0 (or_intror eq_refl) eq_refl eq_refl).
  cbn. lia.
Defined.

(** ** Public key packets *)

Lemma be_value_2 (b1 b0 : byte) : be_value [b1; b0] = b2z b1 * 256 + b2z b0.
Proof. unfold be_value. cbn [fold_left]. lia. Qed.

(** Run the [mpi_read]s of a chain on the integers [ms] that are known
    to be whole. *)
Ltac mpi_chain :=
  repeat match goal with
         | H : Forall mpi_encoded (_ :: _) |- _ => inversion H; subst; clear H
         | H : Forall mpi_encoded [] |- _ => clear H
         end;
  repeat match goal with
         | H : mpi_encoded ?m |- _ =>
             lazymatch goal with
             | _ : 2 <= Z.of_nat (length m) <= 8195 |- _ => fail
             | _ => pose proof (mpi_encoded_length m H)
             end
         end;
  cbn [concat app] in *; rewrite ?app_nil_r in *; rewrite <- ?app_assoc;
  rewrite ?length_app, ?Nat2Z.inj_add in *;
  repeat match goal with
         | H : mpi_encoded ?m
           |- context [bind (mpi_read _) _ (plain (?m ++ _) _)] =>
             mpi_take H; rewrite dec_small by lia
         end.

(** X26.  [parse_certificate] keeps to its packet on a public key or
    public subkey whose body is not empty and holds its integers.  When
    the byte [v] the body starts with is not a version 2, 3 or 4 (the
    hash mark of an old comment is such a byte), or fewer than 11 bytes
    follow it, the body is taken off the source whole and the packet is
    returned as it was, with return code 0.  With version 2, 3 or 4 and
    11 bytes or more that are the creation time, the validity period
    (versions 2 and 3 only), the algorithm and the integers of the
    algorithm (three for ElGamal, four for DSA, two for RSA, none for
    another algorithm), whole within the packet, the return code is 0,
    the record holds these fields, the header length and the integers,
    and exactly the body is taken off the source, the bytes behind the
    integers included; [list_mode] makes no difference. *)
Theorem public_key_keeps_to_its_packet (list_mode : bool) (pkttype : Z)
  (hdr : list byte) (hdrlen : Z) (pkt : PACKET) (v : byte)
  (tail rest : list byte) (pos : Z) :
  pkttype = PKT_PUBLIC_CERT \/ pkttype = PKT_PUBKEY_SUBCERT ->
  Z.of_nat (length tail) + 1 < 2 ^ 32 ->
  ((b2z v <> 2 /\ b2z v <> 3 /\ b2z v <> 4) \/ (length tail < 11)%nat ->
   parse_certificate list_mode pkttype (Z.of_nat (length (v :: tail))) hdr hdrlen
     pkt (plain ((v :: tail) ++ rest) pos)
   = Done (0, pkt) (plain rest (pos + Z.of_nat (length (v :: tail)))))
  /\ (forall (ts valid : list byte) (algo : byte) (ms : list (list byte))
             (extra : list byte) (d : pubkey_material),
         tail = ts ++ valid ++ algo :: concat ms ++ extra ->
         (11 <= length tail)%nat ->
         b2z v = 2 \/ b2z v = 3 \/ b2z v = 4 ->
         length ts = 4%nat ->
         length valid = (if b2z v =? 4 then 0%nat else 2%nat) ->
         Forall mpi_encoded ms ->
         public_key_integers (b2z algo) ms (pc_d (public_cert_of pkt)) = Some d ->
         parse_certificate list_mode pkttype (Z.of_nat (length (v :: tail))) hdr
           hdrlen pkt (plain ((v :: tail) ++ rest) pos)
         = Done (0, set_body
                      (Public_cert
                         (mkPublicCert (be_value ts) (be_value valid) hdrlen
                            (b2z v) (b2z algo) d))
                      pkt)
                (plain rest (pos + Z.of_nat (length (v :: tail))))).
Proof.
  intros Htype Hfit.
  assert (Hpub : is_public_type pkttype = true)
    by (destruct Htype as [-> | ->]; reflexivity).
  assert (Hsec : is_secret_type pkttype = false)
    by (destruct Htype as [-> | ->]; reflexivity).
  set (L := Z.of_nat (length (v :: tail))).
  assert (HL : L = 1 + Z.of_nat (length tail)) by (subst L; cbn [length]; lia).
  unfold parse_certificate. cbn [app]. plain_step. cbv zeta.
  rewrite (dec_small L 1) by lia.
  replace (L - 1) with (Z.of_nat (length tail)) by lia.
  replace (pos + L) with (pos + 1 + Z.of_nat (length tail)) by lia.
  clearbody L. clear HL. split.
  - intros Hcase.
    destruct ((pkttype =? PKT_PUBKEY_SUBCERT) && (b2z v =? 35)) eqn:Ecomment.
    { (* an old comment packet *)
      destruct list_mode.
      - rewrite Nat2Z.id. rewrite bind_assoc.
        rewrite (bind_done _ _ _ _ _ (read_bytes_plain tail rest (pos + 1))).
        cbv beta. unfold skip_rest, bind, iobuf_in_block_mode, ret.
        cbn [io_mode plain get_n Z.to_nat]. reflexivity.
      - rewrite (bind_done _ _ _ _ _ (skip_rest_plain tail rest (pos + 1))).
        reflexivity. }
    destruct (negb (b2z v =? 4) && negb (b2z v =? 2) && negb (b2z v =? 3))
      eqn:Ever; [apply leave_plain |].
    destruct Hcase as [(H2 & H3 & H4) | Hshort].
    + exfalso. apply Z.eqb_neq in H2, H3, H4.
      rewrite H2, H3, H4 in Ever. discriminate.
    + replace (Z.of_nat (length tail) <? 11) with true
        by (symmetry; apply Z.ltb_lt; lia).
      apply leave_plain.
  - intros ts valid algo ms extra d -> Hlong Hv Hts Hvalid Hms Hd.
    replace ((pkttype =? PKT_PUBKEY_SUBCERT) && (b2z v =? 35)) with false
      by (symmetry; apply andb_false_iff; right; apply Z.eqb_neq; lia).
    replace (negb (b2z v =? 4) && negb (b2z v =? 2) && negb (b2z v =? 3))
      with false
      by (destruct Hv as [-> | [-> | ->]]; reflexivity).
    replace (Z.of_nat (length (ts ++ valid ++ algo :: concat ms ++ extra)) <? 11)
      with false by (symmetry; apply Z.ltb_ge; lia).
    destruct ts as [| t3 [| t2 [| t1 [| t0 [| ? ?]]]]]; try discriminate Hts.
    set (r := concat ms ++ extra) in *.
    cbn [app].
    rewrite (bind_done _ _ _ _ _ (read_32_plain _ _ _ _ _ _)).
    unfold public_key_integers in Hd.
    destruct (Z.eqb_spec (b2z v) 4) as [E4 | E4].
    + (* version 4: no validity period *)
      destruct valid as [| ? ?]; try discriminate Hvalid.
      cbn [app length] in *.
      rewrite bind_ret_l. cbv beta iota. plain_step.
      rewrite (dec_small (Z.of_nat (S (S (S (S (S (length r))))))) 4) by lia.
      rewrite (dec_small (Z.of_nat (S (S (S (S (S (length r)))))) - 4) 1) by lia.
      replace (Z.of_nat (S (S (S (S (S (length r)))))) - 4 - 1)
        with (Z.of_nat (length r)) by lia.
      replace (pos + 1 + Z.of_nat (S (S (S (S (S (length r)))))))
        with (pos + 1 + 1 + 1 + 1 + 1 + 1 + Z.of_nat (length r)) by lia.
      assert (Hr : Z.of_nat (length r) < 2 ^ 32) by lia.
      clear Hfit Hlong. subst r.
      change (be_value []) with 0.
      destruct (is_ELGAMAL (b2z algo));
        [| destruct (b2z algo =? PUBKEY_ALGO_DSA);
           [| destruct (is_RSA (b2z algo))]];
        [ destruct ms as [| p [| g [| y [| ? ?]]]]; try discriminate Hd
        | destruct ms as [| p [| q [| g [| y [| ? ?]]]]]; try discriminate Hd
        | destruct ms as [| n [| e [| ? ?]]]; try discriminate Hd
        | destruct ms as [| ? ?]; try discriminate Hd ];
        injection Hd as <-; mpi_chain; rewrite ?Hpub, ?Hsec;
        (rewrite (leave_plain_gen _ _ extra rest _ _ _ eq_refl) by lia);
        f_equal; unfold plain; f_equal; lia.
    + (* version 2 or 3 *)
      destruct valid as [| v1 [| v0 [| ? ?]]]; try discriminate Hvalid.
      cbn [app length] in *.
      rewrite bind_assoc.
      rewrite (bind_done _ _ _ _ _ (read_16_plain _ _ _ _)).
      rewrite bind_ret_l. cbv beta iota. plain_step.
      rewrite (dec_small (Z.of_nat (S (S (S (S (S (S (S (length r))))))))) 4)
        by lia.
      rewrite (dec_small (Z.of_nat (S (S (S (S (S (S (S (length r)))))))) - 4) 2)
        by lia.
      rewrite (dec_small
                 (Z.of_nat (S (S (S (S (S (S (S (length r)))))))) - 4 - 2) 1)
        by lia.
      replace (Z.of_nat (S (S (S (S (S (S (S (length r)))))))) - 4 - 2 - 1)
        with (Z.of_nat (length r)) by lia.
      replace (pos + 1 + Z.of_nat (S (S (S (S (S (S (S (length r)))))))))
        with (pos + 1 + 1 + 1 + 1 + 1 + 1 + 1 + 1 + Z.of_nat (length r)) by lia.
      assert (Hr : Z.of_nat (length r) < 2 ^ 32) by lia.
      clear Hfit Hlong. subst r.
      rewrite <- be_value_2.
      destruct (is_ELGAMAL (b2z algo));
        [| destruct (b2z algo =? PUBKEY_ALGO_DSA);
           [| destruct (is_RSA (b2z algo))]];
        [ destruct ms as [| p [| g [| y [| ? ?]]]]; try discriminate Hd
        | destruct ms as [| p [| q [| g [| y [| ? ?]]]]]; try discriminate Hd
        | destruct ms as [| n [| e [| ? ?]]]; try discriminate Hd
        | destruct ms as [| ? ?]; try discriminate Hd ];
        injection Hd as <-; mpi_chain; rewrite ?Hpub, ?Hsec;
        (rewrite (leave_plain_gen _ _ extra rest _ _ _ eq_refl) by lia);
        f_equal; unfold plain; f_equal; lia.
Qed.

Lemma public_key_keeps_to_its_packet_witness :
  parse_certificate false PKT_PUBLIC_CERT 12 [x98; x0c] 2
    (set_body (Public_cert public_cert_clear) init_packet)
    (plain ((x04 :: public_key_v4_tail) ++ hello_legacy) 0)
  = Done (0, set_body
               (Public_cert
                  (mkPublicCert (be_value [x5f; x00; x00; x01]) 0 2 4 1
                     (PkRsa (Some (mkMPI 8 [xc5])) (Some (mkMPI 2 [x03])))))
               (set_body (Public_cert public_cert_clear) init_packet))
         (plain hello_legacy 12).
Proof.
  apply (proj2 (public_key_keeps_to_its_packet false PKT_PUBLIC_CERT [x98; x0c]
                  2 (set_body (Public_cert public_cert_clear) init_packet) x04
                  public_key_v4_tail hello_legacy 0 (or_introl eq_refl)
                  ltac:(cbn; lia))
           [x5f; x00; x00; x01] [] x01 [[x00; x08; xc5]; [x00; x02; x03]] []).
  - reflexivity.
  - cbn. lia.
  - right. right. reflexivity.
  - reflexivity.
  - reflexivity.
  - repeat (apply Forall_cons; [split; [cbn; lia | reflexivity] |]).
    apply Forall_nil.
  - reflexivity.
Defined.

(** ** Encrypted and compressed packets *)

(** X27.  An encrypted data packet of definite length 10 or more is
    returned with its length and with the source itself as its data,
    standing on the first byte of the body: nothing of the body is
    read.  One of length 1 to 9 is returned with its length and without
    data, and its body is taken off the source.  Both give return code
    0. *)
Theorem encrypted_body_handed_over_or_skipped (list_mode : bool)
  (all body rest hdr : list byte) (pos pos' : Z) (pgp3 : bool) :
  read_header (plain all pos)
  = Done (HdrOk PKT_ENCRYPTED (Z.of_nat (length body)) hdr pgp3)
         (plain (body ++ rest) pos') ->
  body <> [] ->
  parse_packet list_mode init_packet (plain all pos)
  = if (length body <? 10)%nat
    then Done (0, mkPACKET PKT_ENCRYPTED
                    (Encrypted (mkEncrypted (Z.of_nat (length body)) None)))
              (plain rest (pos' + Z.of_nat (length body)))
    else Done (0, mkPACKET PKT_ENCRYPTED
                    (Encrypted (mkEncrypted (Z.of_nat (length body))
                                  (Some (plain (body ++ rest) pos')))))
              (plain (body ++ rest) pos').
Proof.
  intros Hhdr Hbody.
  assert (Hpos : (0 < length body)%nat)
    by (destruct body; [contradiction | cbn [length]; lia]).
  destruct (Nat.ltb_spec (length body) 10) as [Hshort | Hlong];
    (apply (parse_packet_keeps list_mode init_packet _ _ _ _ _ _ _ _ _
              eq_refl Hhdr); [discriminate |]);
    dispatch_at_type; unfold parse_encrypted;
    replace (Z.of_nat (length body) =? 0) with false
      by (symmetry; apply Z.eqb_neq; lia).
  - replace (Z.of_nat (length body) <? 10) with true
      by (symmetry; apply Z.ltb_lt; lia).
    cbn [negb andb].
    rewrite (bind_done _ _ _ _ _ (skip_rest_plain body rest pos')).
    reflexivity.
  - replace (Z.of_nat (length body) <? 10) with false
      by (symmetry; apply Z.ltb_ge; lia).
    reflexivity.
Qed.

Lemma encrypted_body_handed_over_or_skipped_witness :
  parse_packet false init_packet
    (plain (new_packet PKT_ENCRYPTED (repeat xee 10) ++ hello_legacy) 0)
  = Done (0, mkPACKET PKT_ENCRYPTED
               (Encrypted (mkEncrypted 10
                             (Some (plain (repeat xee 10 ++ hello_legacy) 2)))))
         (plain (repeat xee 10 ++ hello_legacy) 2)
  /\ parse_packet false init_packet
       (plain (new_packet PKT_ENCRYPTED (repeat xee 9) ++ hello_legacy) 0)
     = Done (0, mkPACKET PKT_ENCRYPTED (Encrypted (mkEncrypted 9 None)))
            (plain hello_legacy 11).
Proof.
  split.
  - apply (encrypted_body_handed_over_or_skipped false
             (new_packet PKT_ENCRYPTED (repeat xee 10) ++ hello_legacy)
             (repeat xee 10) hello_legacy [xc9; x0a] 0 2 true eq_refl).
    discriminate.
  - apply (encrypted_body_handed_over_or_skipped false
             (new_packet PKT_ENCRYPTED (repeat xee 9) ++ hello_legacy)
             (repeat xee 9) hello_legacy [xc9; x09] 0 2 true eq_refl).
    discriminate.
Defined.



(** ** Searching for a packet *)

(** X29.  [search_packet] returns the first packet of the type asked
    for: on a stream that holds a user id packet behind packets of other
    types, a search for user ids returns 0 with that packet, reports the
    offset of its header byte in [*retpos], and leaves the source on the
    byte after its body. *)
Theorem search_packet_finds_first_user_id (list_mode : bool)
  (pre : list (Z * list byte)) (body rest : list byte) (pos : Z) :
  Forall small_packet pre ->
  Forall (fun p => fst p <> PKT_USER_ID) pre ->
  (length body < 192)%nat ->
  search_packet list_mode init_packet PKT_USER_ID true
    (plain (new_packets pre ++ new_packet PKT_USER_ID body ++ rest) pos)
  = Done (0,
          mkPACKET PKT_USER_ID (User_id (mkUserId (Z.of_nat (length body)) body)),
          Some (pos + Z.of_nat (length (new_packets pre))))
         (plain rest
            (pos + Z.of_nat (length (new_packets pre)) + 2
             + Z.of_nat (length body))).
Proof.
  intros Hsmall Hother Hbody.
  assert (Hskip : Forall (fun p => skipped_type PKT_USER_ID (fst p)) pre).
  { eapply Forall_impl; [| exact Hother].
    intros p Hp. right. split; [discriminate | exact Hp]. }
  unfold search_packet, bind at 1. cbn [io_data plain].
  rewrite (parse_until_kept_skips list_mode init_packet PKT_USER_ID true pre
             (new_packet PKT_USER_ID body ++ rest) eq_refl Hsmall Hskip)
    with (f2 := S (length (new_packet PKT_USER_ID body ++ rest))); [| lia | lia].
  cbn [parse_until_kept].
  assert (Hsm : small_packet (PKT_USER_ID, body))
    by (split; cbn [fst snd]; [unfold PKT_USER_ID; lia | exact Hbody]).
  rewrite (bind_done _ _ _ _ _
             (parse_keeps list_mode init_packet
                (mkPACKET PKT_USER_ID
                   (User_id (mkUserId (Z.of_nat (length body)) body)))
                PKT_USER_ID true _ _
                (plain rest
                   (pos + Z.of_nat (length (new_packets pre)) + 2
                    + Z.of_nat (length body)))
                _ _ _ _ 0 eq_refl
                (new_packet_header PKT_USER_ID body rest _ Hsm)
                ltac:(discriminate) (or_intror eq_refl)
                ltac:(dispatch_at_type; apply parse_user_id_plain))).
  reflexivity.
Qed.

Lemma search_packet_finds_first_user_id_witness :
  search_packet false init_packet PKT_USER_ID true
    (plain (new_packets [deleted_packet; unknown_packet]
              ++ new_packet PKT_USER_ID [x68; x69] ++ hello_legacy) 0)
  = Done (0, mkPACKET PKT_USER_ID (User_id (mkUserId 2 [x68; x69])), Some 9)
         (plain hello_legacy 13).
Proof.
  apply (search_packet_finds_first_user_id false [deleted_packet; unknown_packet]
           [x68; x69] hello_legacy 0).
  - unfold deleted_packet, unknown_packet.
    repeat (apply Forall_cons; [split; cbn; lia |]). apply Forall_nil.
  - repeat (apply Forall_cons; [discriminate |]). apply Forall_nil.
  - cbn. lia.
Defined.
